(** * OS_2024: MLFQ process table (project02) and reference-counted page
      allocator (project04)

    A shallow embedding of [project02/proc.c], [project02/trap.c] and
    [project04/kalloc.c], and the properties of the design document that
    were checked against it.

    Conventions.
    - A C [int] is a [Z]; every [++], [--], [+], [-], [*] of the source goes
      through [wrap] (two's complement, 32 bits).  A [uint] goes through
      [wrapu].
    - A pointer into [ptable.proc] is the index of the slot ([nat]); the
      null pointer is [None].
    - A C function that can call [panic], dereference a null pointer or
      index an array out of bounds returns a [result]: [Panic msg] for the
      first, [Fault] for the other two.
    - Locks are not modelled: every operation is taken as one atomic step
      under the lock the source acquires.  spinlock.c, x86.h and lapic.c
      are not among the sources; what [sched] reads from them (whether
      [ptable.lock] is held, the interrupt flag, [mycpu()->ncli]) is taken
      as it is at the call, in a [cpu_view], and the lock handed to
      [sleep] is told apart only as null, [&ptable.lock] or another
      lock.  [mycpu()] is taken to find its CPU among [cpus[]]. *)

From stdpp Require Import base numbers list strings.

Open Scope Z_scope.

(** ** Machine integers and results *)

Definition wrap (z : Z) : Z := (z + 2 ^ 31) mod 2 ^ 32 - 2 ^ 31.
Definition wrapu (z : Z) : Z := z mod 2 ^ 32.

Definition INT_MAX : Z := 2 ^ 31 - 1.
Definition INT_MIN : Z := - 2 ^ 31.

Inductive result (A : Type) : Type :=
  | Ok (a : A)
  | Panic (msg : string)
  | Fault.
Arguments Ok {A} a.
Arguments Panic {A} msg.
Arguments Fault {A}.

#[global] Instance result_ret : MRet result := λ A a, Ok a.
#[global] Instance result_bind : MBind result := λ A B f m,
  match m with
  | Ok a => f a
  | Panic msg => Panic msg
  | Fault => Fault
  end.

Module Proc.

(** ** Data model of [proc.c] *)

Inductive procstate := UNUSED | EMBRYO | SLEEPING | RUNNABLE | RUNNING | ZOMBIE.

#[global] Instance procstate_eq_dec : EqDecision procstate.
Proof. solve_decision. Defined.

(** A sleep channel [void *chan]: null, the address of a slot of the table
    ([wait] sleeps on its own PCB), [&ticks], or any other address. *)
Inductive channel :=
  | ChanNull
  | ChanProc (i : nat)
  | ChanTicks
  | ChanAddr (a : Z).

#[global] Instance channel_eq_dec : EqDecision channel.
Proof. solve_decision. Defined.

(** Modelled from the spec: [struct proc] is declared in proc.h, which is
    not among the sources; the fields are those of section 3 of the design
    that [proc.c] and [trap.c] read and write.  The flags [killed] and
    [monopolize] are C [int]s, as the code compares them with 0 and 1; the
    field [monopolize] is named [monopolize_flag] here, next to the function
    [monopolize].  The resources a PCB owns ([kstack], [pgdir], [tf],
    [context], [ofile], [cwd], [sz], [name]) belong to collaborators and
    are left out. *)
Record proc := mkProc {
  state : procstate;
  pid : Z;
  parent : option nat;
  chan : channel;
  killed : Z;
  level : Z;
  tick : Z;
  priority : Z;
  monopolize_flag : Z
}.

#[global] Instance proc_eq_dec : EqDecision proc.
Proof. solve_decision. Defined.

Definition set_state (s : procstate) (p : proc) : proc :=
  mkProc s (pid p) (parent p) (chan p) (killed p) (level p) (tick p)
         (priority p) (monopolize_flag p).
Definition set_pid (v : Z) (p : proc) : proc :=
  mkProc (state p) v (parent p) (chan p) (killed p) (level p) (tick p)
         (priority p) (monopolize_flag p).
Definition set_parent (v : option nat) (p : proc) : proc :=
  mkProc (state p) (pid p) v (chan p) (killed p) (level p) (tick p)
         (priority p) (monopolize_flag p).
Definition set_chan (v : channel) (p : proc) : proc :=
  mkProc (state p) (pid p) (parent p) v (killed p) (level p) (tick p)
         (priority p) (monopolize_flag p).
Definition set_killed (v : Z) (p : proc) : proc :=
  mkProc (state p) (pid p) (parent p) (chan p) v (level p) (tick p)
         (priority p) (monopolize_flag p).
Definition set_level (v : Z) (p : proc) : proc :=
  mkProc (state p) (pid p) (parent p) (chan p) (killed p) v (tick p)
         (priority p) (monopolize_flag p).
Definition set_tick (v : Z) (p : proc) : proc :=
  mkProc (state p) (pid p) (parent p) (chan p) (killed p) (level p) v
         (priority p) (monopolize_flag p).
Definition set_priority (v : Z) (p : proc) : proc :=
  mkProc (state p) (pid p) (parent p) (chan p) (killed p) (level p) (tick p)
         v (monopolize_flag p).

(** A slot of the zero-initialised table. *)
Definition proc_zero : proc := mkProc UNUSED 0 None ChanNull 0 0 0 0 0.

(** [ptable] (the table and [numProc[6]]), the [proc] field of the CPU that
    runs the code, [ticks] of trap.c and [nextpid]. *)
Record kstate := mkKstate {
  ptable_proc : list proc;
  ptable_numProc : list Z;
  cpu_proc : option nat;
  ticks : Z;
  nextpid : Z
}.

#[global] Instance kstate_eq_dec : EqDecision kstate.
Proof. solve_decision. Defined.

Definition set_ptable_proc (t : list proc) (k : kstate) : kstate :=
  mkKstate t (ptable_numProc k) (cpu_proc k) (ticks k) (nextpid k).
Definition set_numProc (np : list Z) (k : kstate) : kstate :=
  mkKstate (ptable_proc k) np (cpu_proc k) (ticks k) (nextpid k).
Definition set_cpu_proc (c : option nat) (k : kstate) : kstate :=
  mkKstate (ptable_proc k) (ptable_numProc k) c (ticks k) (nextpid k).
Definition set_ticks (v : Z) (k : kstate) : kstate :=
  mkKstate (ptable_proc k) (ptable_numProc k) (cpu_proc k) v (nextpid k).
Definition set_nextpid (v : Z) (k : kstate) : kstate :=
  mkKstate (ptable_proc k) (ptable_numProc k) (cpu_proc k) (ticks k) v.

(** What [sched] reads from the lock and from the CPU at the call:
    [holding(&ptable.lock)], the flag [FL_IF] of [readeflags()], and
    [mycpu()->ncli].  The code that owns them is not among the sources. *)
Record cpu_view := mkCpuView {
  holding_ptable_lock : bool;
  eflags_if : bool;
  ncli : Z
}.

(** The [struct spinlock *lk] handed to [sleep]: null, [&ptable.lock], or
    another lock. *)
Inductive lockref := LkNull | LkPtable | LkOther.

(** The message of the first [panic] of [mycpu], which ends in a newline. *)
Definition mycpu_msg : string :=
  "mycpu called with interrupts enabled" +:+ String (Ascii.ascii_of_nat 10) "".

(** [p->field = ...] through a pointer [i] into the table. *)
Definition update_proc (i : nat) (f : proc → proc) (k : kstate) : kstate :=
  set_ptable_proc (alter f i (ptable_proc k)) k.

(** [myproc()]: the [proc] field of the current CPU. *)
Definition myproc (k : kstate) : option nat := cpu_proc k.

(** [*p] for a pointer [p] into the table. *)
Definition deref (k : kstate) (p : option nat) : result proc :=
  match p with
  | Some i =>
      match ptable_proc k !! i with
      | Some x => Ok x
      | None => Fault
      end
  | None => Fault
  end.

Definition nonnull (p : option nat) : result nat :=
  match p with Some i => Ok i | None => Fault end.

(** *** The [numProc] array *)

(** [numProc[i]++] and [numProc[i]--] at an index the source writes as a
    constant or guards. *)
Definition np_incr (i : nat) (np : list Z) : list Z :=
  alter (λ n, wrap (n + 1)) i np.
Definition np_decr (i : nat) (np : list Z) : list Z :=
  alter (λ n, wrap (n - 1)) i np.
Definition np_get (i : nat) (np : list Z) : Z := default 0 (np !! i).

(** [numProc[e]] at an index the source computes and does not guard. *)
Definition np_index (e : Z) (np : list Z) : result nat :=
  if (0 <=? e) && (e <? Z.of_nat (length np)) then Ok (Z.to_nat e) else Fault.

Definition is_runnable (p : proc) : bool := bool_decide (state p = RUNNABLE).

Section Operations.

(** The hand-off [swtch(&(c->scheduler), p->context)]: everything that
    happens until control comes back to the scheduler. *)
Variable swtch : kstate → kstate.

(** *** allocproc, userinit, fork *)

(** [allocproc]; [kalloc_ok] says whether [kalloc] returned a stack. *)
Definition allocproc (kalloc_ok : bool) (k : kstate) : kstate * option nat :=
  match list_find (λ p, state p = UNUSED) (ptable_proc k) with
  | None => (k, None)
  | Some (i, _) =>
      let k1 := update_proc i (λ p, set_pid (nextpid k) (set_state EMBRYO p)) k in
      let k2 := set_nextpid (wrap (nextpid k + 1)) k1 in
      if kalloc_ok then (k2, Some i)
      else (update_proc i (set_state UNUSED) k2, None)
  end.

(** [userinit]; a null [p] is dereferenced as the source does, by the
    store to [p->pgdir]; [setupkvm_ok] says whether [setupkvm] returned a
    page directory. *)
Definition userinit (kalloc_ok setupkvm_ok : bool) (k : kstate) : result kstate :=
  let '(k1, p) := allocproc kalloc_ok k in
  i ← nonnull p;
  if setupkvm_ok then Ok (update_proc i (set_state RUNNABLE) k1)
  else Panic "userinit: out of memory?".

(** [fork]; [copyuvm_ok] says whether [copyuvm] succeeded.  [curproc] is
    first dereferenced for the arguments of [copyuvm], after [allocproc]. *)
Definition fork (kalloc_ok copyuvm_ok : bool) (k : kstate) : result (kstate * Z) :=
  let '(k1, np) := allocproc kalloc_ok k in
  match np with
  | None => Ok (k1, -1)
  | Some i =>
      cur ← nonnull (myproc k);
      if copyuvm_ok then
        c ← deref k1 (Some i);
        let k2 := update_proc i (set_parent (Some cur)) k1 in
        Ok (update_proc i (set_state RUNNABLE) k2, pid c)
      else Ok (update_proc i (set_state UNUSED) k1, -1)
  end.

(** *** wakeup1, wakeup, sleep, kill *)

Definition wakeup1_proc (c : channel) (p : proc) : proc :=
  if bool_decide (state p = SLEEPING) && bool_decide (chan p = c)
  then set_state RUNNABLE p else p.

Definition wakeup1 (c : channel) (k : kstate) : kstate :=
  set_ptable_proc (wakeup1_proc c <$> ptable_proc k) k.

Definition wakeup (c : channel) (k : kstate) : kstate := wakeup1 c k.

(** [mycpu()] called outside [pushcli]/[popcli], as [sched] does: the
    check of the interrupt flag. *)
Definition mycpu (c : cpu_view) : result unit :=
  if eflags_if c then Panic mycpu_msg else Ok ().

(** [sched], in the order of the source: [holding(&ptable.lock)], then
    [mycpu()->ncli], then [p->state], then [readeflags() & FL_IF].  The
    [swtch] to the scheduler is where the model of the caller stops; the
    later calls of [mycpu()] read the same flag as the first. *)
Definition sched (c : cpu_view) (k : kstate) : result kstate :=
  if negb (holding_ptable_lock c) then Panic "sched ptable.lock"
  else
    _ ← mycpu c;
    if negb (ncli c =? 1) then Panic "sched locks"
    else
      p ← deref k (myproc k);
      if bool_decide (state p = RUNNING) then Panic "sched running"
      else if eflags_if c then Panic "sched interruptible"
      else Ok k.

(** [sleep] up to the [swtch] inside its [sched()]; [c] is what [sched]
    reads, after the [acquire(&ptable.lock); release(lk)] of a lock other
    than [ptable.lock]. *)
Definition sleep (c : cpu_view) (ch : channel) (lk : lockref) (k : kstate)
    : result kstate :=
  match myproc k with
  | None => Panic "sleep"
  | Some i =>
      match lk with
      | LkNull => Panic "sleep without lk"
      | LkPtable | LkOther =>
          _ ← deref k (Some i);
          sched c (update_proc i (λ p, set_state SLEEPING (set_chan ch p)) k)
      end
  end.

Definition kill_proc (p : proc) : proc :=
  let p1 := set_killed 1 p in
  if bool_decide (state p1 = SLEEPING) then set_state RUNNABLE p1 else p1.

Definition kill (pid0 : Z) (k : kstate) : kstate * Z :=
  match list_find (λ p, pid p = pid0) (ptable_proc k) with
  | Some (i, _) => (update_proc i kill_proc k, 0)
  | None => (k, -1)
  end.

(** *** wait: one pass of its [for(;;)] *)

Inductive wait_outcome :=
  | WaitReturn (r : Z)
  | WaitSleep.

Definition reap (p : proc) : proc :=
  set_state UNUSED (set_killed 0 (set_parent None (set_pid 0 p))).

Definition wait_pass (c : cpu_view) (k : kstate)
    : result (kstate * wait_outcome) :=
  cur ← nonnull (myproc k);
  p ← deref k (Some cur);
  match list_find (λ p, parent p = Some cur ∧ state p = ZOMBIE) (ptable_proc k) with
  | Some (i, z) => Ok (update_proc i reap k, WaitReturn (pid z))
  | None =>
      let havekids := bool_decide (Exists (λ p, parent p = Some cur) (ptable_proc k)) in
      if negb havekids || negb (killed p =? 0) then Ok (k, WaitReturn (-1))
      else k' ← sleep c (ChanProc cur) LkPtable k; Ok (k', WaitSleep)
  end.

(** *** priority_boosting, setpriority, getlev *)

Definition boost_count (np : list Z) (p : proc) : list Z :=
  if is_runnable p && (level p =? 0) && (monopolize_flag p =? 0) then
    np_incr 0 np
  else if is_runnable p
          && ((level p =? 1) || (level p =? 2) || (level p =? 3))
          && (monopolize_flag p =? 0) then
    np_decr (Z.to_nat (level p)) (np_incr 0 np)
  else np.

Definition boost_proc (p : proc) : proc := set_tick 0 (set_level 0 p).

Fixpoint boost_loop (np : list Z) (t : list proc) : list Z * list proc :=
  match t with
  | [] => (np, [])
  | p :: t' =>
      let '(np', t'') := boost_loop (boost_count np p) t' in
      (np', boost_proc p :: t'')
  end.

Definition priority_boosting (k : kstate) : kstate :=
  let '(np, t) := boost_loop (<[0%nat := 0]> (ptable_numProc k)) (ptable_proc k) in
  set_numProc np (set_ptable_proc t k).

Definition setpriority (pid0 prio : Z) (k : kstate) : kstate * Z :=
  if (prio <? 0) || (10 <? prio) then (k, -2)
  else
    match list_find (λ p, pid0 = pid p) (ptable_proc k) with
    | Some (i, _) => (update_proc i (set_priority prio) k, 0)
    | None => (k, -1)
    end.

Definition getlev (k : kstate) : result Z :=
  match myproc k with
  | None => Ok (-1)
  | Some i =>
      p ← deref k (Some i);
      if monopolize_flag p =? 0 then Ok (level p)
      else if monopolize_flag p =? 1 then Ok 99
      else Ok (-1)
  end.

(** *** setmonopoly, unmonopolize, monopolize, yield *)



Definition unmonopolize (k : kstate) : result kstate :=
  i ← nonnull (myproc k);
  p ← deref k (Some i);
  if monopolize_flag p =? 1 then
    let k1 := update_proc i (set_state RUNNABLE) k in
    let np := ptable_numProc k1 in
    if level p =? 0 then Ok (set_numProc (np_decr 4 (np_incr 0 np)) k1)
    else if level p =? 1 then Ok (set_numProc (np_decr 4 (np_incr 1 np)) k1)
    else if level p =? 2 then Ok (set_numProc (np_decr 4 (np_incr 2 np)) k1)
    else if level p =? 3 then Ok (set_numProc (np_decr 4 (np_incr 3 np)) k1)
    else Ok k1
  else Ok k.

Definition monopolize (k : kstate) : result kstate :=
  let k0 := set_cpu_proc None k in            (* c->proc = 0 *)
  q ← deref k0 (myproc k0);                   (* myproc()->monopolize *)
  if monopolize_flag q =? 1 then
    i ← nonnull (myproc k0);                  (* p = myproc() *)
    let k1 := set_cpu_proc (Some i) k0 in     (* c->proc = p *)
    let k2 := update_proc i (set_state RUNNABLE) k1 in
    let k3 := swtch k2 in
    unmonopolize (set_cpu_proc None k3)       (* c->proc = 0; unmonopolize() *)
  else Ok k0.

(** [yield] up to the [swtch] inside [sched]; [c] is what [sched] reads,
    after the [acquire(&ptable.lock)]. *)
Definition yield (c : cpu_view) (k : kstate) : result kstate :=
  i ← nonnull (myproc k);
  p ← deref k (Some i);
  let k1 := update_proc i (set_state RUNNABLE) k in
  l ← np_index (level p) (ptable_numProc k1);
  sched c (set_numProc (np_incr l (ptable_numProc k1)) k1).

(** *** scheduler: the body of the scan loop *)

(** The inner loop of the last branch: [tmp] runs over the table and [p]
    is moved to [tmp] when [tmp] is RUNNABLE at level 3 with a greater
    priority, or with the same priority and a smaller pid. *)
Definition l3_step (t : list proc) (p tmp : nat) : nat :=
  match t !! tmp, t !! p with
  | Some q, Some b =>
      if is_runnable q && (level q =? 3) && (priority q >? priority b) then tmp
      else if is_runnable q && (level q =? 3) && (priority q =? priority b) then
        if pid q <? pid b then tmp else p
      else p
  | _, _ => p
  end.

Definition l3_select (t : list proc) (p : nat) : nat :=
  foldl (l3_step t) p (seq 0 (length t)).

(** [c->proc = p; p->state = RUNNING; ptable.numProc[l]--]: the state in
    which the scheduler hands off to [p]. *)
Definition dispatch (l : nat) (p : nat) (k : kstate) : kstate :=
  let k1 := set_cpu_proc (Some p) k in
  let k2 := update_proc p (set_state RUNNING) k1 in
  set_numProc (np_decr l (ptable_numProc k2)) k2.

(** Which branch the scan takes at a RUNNABLE slot. *)
Inductive branch :=
  | BrMonopolize
  | BrLevel (l : nat)
  | BrLast.

Definition scheduler_branch (p : proc) (np : list Z) : branch :=
  if monopolize_flag p =? 1 then BrMonopolize
  else if negb (np_get 0 np =? 0) && (level p =? 0) && (monopolize_flag p =? 0)
  then BrLevel 0
  else if (np_get 0 np =? 0) && (np_get 1 np >? 0) && (level p =? 1)
          && (monopolize_flag p =? 0)
  then BrLevel 1
  else if (np_get 0 np =? 0) && (np_get 1 np =? 0) && (np_get 2 np >? 0)
          && (level p =? 2) && (monopolize_flag p =? 0)
  then BrLevel 2
  else BrLast.

(** One execution of the body of [for(p = ptable.proc; ...; p++)] at slot
    [i]: the value of [p] at the end of the body and the state reached. *)
Definition scheduler_body (i : nat) (k : kstate) : result (nat * kstate) :=
  p ← deref k (Some i);
  if negb (is_runnable p) then Ok (i, k)
  else
    match scheduler_branch p (ptable_numProc k) with
    | BrMonopolize => k' ← monopolize k; Ok (i, k')
    | BrLevel l => Ok (i, set_cpu_proc None (swtch (dispatch l i k)))
    | BrLast =>
        let j := l3_select (ptable_proc k) i in
        Ok (j, set_cpu_proc None (swtch (dispatch 3 j k)))
    end.

(** [age]: what the timer does to the RUNNING process of CPU 0
    (trap.c, the [else] of [boosting == 1]). *)
Definition age (p : proc) : proc :=
  if monopolize_flag p =? 1 then set_tick 0 p
  else
    let p1 := set_tick (wrap (tick p + 1)) p in
    if tick p1 >=? wrap (wrap (2 * level p1) + 2) then
      if level p1 =? 0 then
        if Z.rem (pid p1) 2 =? 1 then set_tick 0 (set_level 1 p1)
        else set_tick 0 (set_level 2 p1)
      else if (level p1 =? 1) || (level p1 =? 2) then
        set_tick 0 (set_level 3 p1)
      else if level p1 =? 3 then
        let p2 := if negb (priority p1 =? 0)
                  then set_priority (wrap (priority p1 - 1)) p1 else p1 in
        set_tick 0 p2
      else p1
    else p1.

(** [case T_IRQ0 + IRQ_TIMER] of [trap], up to [lapiceoi()]. *)
Definition trap_timer (cpuid : Z) (k : kstate) : result kstate :=
  if cpuid =? 0 then
    let t1 := wrapu (ticks k + 1) in
    let boosting := t1 =? 100 in
    let k1 := set_ticks (if boosting then 0 else t1) k in
    let k2 := wakeup ChanTicks k1 in
    if boosting then Ok (priority_boosting k2)
    else
      match myproc k2 with
      | None => Ok k2
      | Some i =>
          p ← deref k2 (Some i);
          if bool_decide (state p = RUNNING) then Ok (update_proc i age k2)
          else Ok k2
      end
  else Ok k.

End Operations.

(** *** What [numProc] is meant to count *)

Definition eligible (l : Z) (p : proc) : Prop :=
  state p = RUNNABLE ∧ level p = l ∧ monopolize_flag p = 0.

#[global] Instance eligible_dec l p : Decision (eligible l p).
Proof. unfold eligible. apply _. Defined.

Definition count_eligible (l : Z) (t : list proc) : Z :=
  Z.of_nat (length (filter (eligible l) t)).

Definition monopolized (p : proc) : Prop := monopolize_flag p = 1.

#[global] Instance monopolized_dec p : Decision (monopolized p).
Proof. unfold monopolized. apply _. Defined.

Definition count_monopolized (t : list proc) : Z :=
  Z.of_nat (length (filter monopolized t)).

(** RUNNABLE and not monopolized, whatever the level. *)
Definition ready (p : proc) : Prop :=
  state p = RUNNABLE ∧ monopolize_flag p = 0.

#[global] Instance ready_dec p : Decision (ready p).
Proof. unfold ready. apply _. Defined.

Definition count_ready (t : list proc) : Z :=
  Z.of_nat (length (filter ready t)).

Definition numProc_consistent (k : kstate) : Prop :=
  np_get 0 (ptable_numProc k) = count_eligible 0 (ptable_proc k)
  ∧ np_get 1 (ptable_numProc k) = count_eligible 1 (ptable_proc k)
  ∧ np_get 2 (ptable_numProc k) = count_eligible 2 (ptable_proc k)
  ∧ np_get 3 (ptable_numProc k) = count_eligible 3 (ptable_proc k)
  ∧ np_get 4 (ptable_numProc k) = count_monopolized (ptable_proc k).

#[global] Instance numProc_consistent_dec k : Decision (numProc_consistent k).
Proof. unfold numProc_consistent. apply _. Defined.

(** Slot [i], holding [p], is the first slot of [t] whose pid is [pid0]. *)
Definition first_with_pid (t : list proc) (pid0 : Z) (i : nat) (p : proc) : Prop :=
  t !! i = Some p ∧ pid p = pid0
  ∧ ∀ j q, t !! j = Some q → (j < i)%nat → pid q ≠ pid0.

(** A candidate of the inner loop of the scheduler's last branch. *)
Definition l3_candidate (q : proc) : Prop := state q = RUNNABLE ∧ level q = 3.

(** The order of the last branch of the scheduler: [b] is at least as good
    as [a] when it has a greater priority, or the same priority and a pid
    that is not greater. *)
Definition l3_le (a b : proc) : Prop :=
  priority a < priority b ∨ (priority a = priority b ∧ pid b <= pid a).

(** The domain of the fields: levels 0 to 3, [int]s elsewhere. *)
Definition int_range (z : Z) : Prop := INT_MIN <= z <= INT_MAX.

Definition level_ok (p : proc) : Prop := 0 <= level p <= 3.

(** *** exit, and the timer interrupt up to its hand-off *)

(** A pointer to a slot used as a sleep channel. *)
Definition chan_of (p : option nat) : channel :=
  match p with Some i => ChanProc i | None => ChanNull end.

(** One round of the loop of [exit] that passes the children of [cur] to
    [initproc]. *)
Definition exit_reparent_step (cur : nat) (initproc : option nat)
    (k : kstate) (i : nat) : kstate :=
  match ptable_proc k !! i with
  | Some p =>
      if bool_decide (parent p = Some cur) then
        let k1 := update_proc i (set_parent initproc) k in
        if bool_decide (state p = ZOMBIE) then wakeup1 (chan_of initproc) k1
        else k1
      else k
  | None => k
  end.

(** [exit] up to the [swtch] inside its [sched()]; [initproc] is the static
    variable [userinit] sets, [c] what [sched] reads after the
    [acquire(&ptable.lock)].  Closing the files and releasing [cwd] belong
    to collaborators. *)
Definition exit (initproc : option nat) (c : cpu_view) (k : kstate)
    : result kstate :=
  if bool_decide (myproc k = initproc) then Panic "init exiting"
  else
    cur ← nonnull (myproc k);
    p ← deref k (Some cur);
    let k1 := wakeup1 (chan_of (parent p)) k in
    let k2 := foldl (exit_reparent_step cur initproc) k1
                    (seq 0 (length (ptable_proc k1))) in
    sched c (update_proc cur (set_state ZOMBIE) k2).

(** [trap] on [T_IRQ0 + IRQ_TIMER], up to the first hand-off: the timer
    case, then [exit] for a killed process interrupted in user mode
    ([user] is [(tf->cs & 3) == DPL_USER]), then [yield] for a RUNNING
    one. *)
Definition trap_timer_irq (initproc : option nat) (cpuid : Z) (user : bool)
    (c : cpu_view) (k : kstate) : result kstate :=
  k1 ← trap_timer cpuid k;
  match myproc k1 with
  | None => Ok k1
  | Some i =>
      p ← deref k1 (Some i);
      if negb (killed p =? 0) && user then exit initproc c k1
      else if bool_decide (state p = RUNNING) then yield c k1
      else Ok k1
  end.

(** *** Domains and invariants of the table *)

(** *** The hand-off *)

(** The conditions [sched] puts on the lock and the CPU: [ptable.lock]
    held, interrupts off, exactly one [pushcli] outstanding. *)
Definition handoff_ok (c : cpu_view) : Prop :=
  holding_ptable_lock c = true ∧ eflags_if c = false ∧ ncli c = 1.

(** The panic at which [sched] stops when they fail, in the order of its
    tests. *)
Definition sched_checks (c : cpu_view) : result unit :=
  if negb (holding_ptable_lock c) then Panic "sched ptable.lock"
  else if eflags_if c then Panic mycpu_msg
  else if negb (ncli c =? 1) then Panic "sched locks"
  else Ok ().

(** A child of the process of slot [cur] that has exited. *)
Definition zombie_child (cur : nat) (p : proc) : Prop :=
  parent p = Some cur ∧ state p = ZOMBIE.

#[global] Instance zombie_child_dec cur p : Decision (zombie_child cur p).
Proof. unfold zombie_child. apply _. Defined.

(** The table after the first [m] rounds of the loop of [exit] over the
    table [t]: the children of [cur] among the first [m] slots have
    [initproc] as parent, and whoever slept on [initproc] is awake once one
    of them was a ZOMBIE. *)
Definition exit_loop_table (cur : nat) (initproc : option nat) (m : nat)
    (t : list proc) : list proc :=
  imap (λ j p,
          let p1 := if bool_decide ((j < m)%nat ∧ parent p = Some cur)
                    then set_parent initproc p else p in
          if bool_decide (Exists (zombie_child cur) (take m t))
          then wakeup1_proc (chan_of initproc) p1 else p1) t.

(** Slot [i], which held [p], after [exit] of the process of slot [cur],
    which held [c]; [z] tells whether [cur] had a ZOMBIE child. *)
Definition exit_slot (cur : nat) (initproc : option nat) (c : proc) (z : bool)
    (i : nat) (p : proc) : proc :=
  let p1 := wakeup1_proc (chan_of (parent c)) p in
  let p2 := if bool_decide (parent p = Some cur)
            then set_parent initproc p1 else p1 in
  let p3 := if z then wakeup1_proc (chan_of initproc) p2 else p2 in
  if bool_decide (i = cur) then set_state ZOMBIE p3 else p3.

(** Every pid of the table was handed out by [allocproc]. *)
Definition pids_below (k : kstate) : Prop :=
  Forall (λ p, pid p < nextpid k) (ptable_proc k).

Definition priority_ok (p : proc) : Prop := 0 <= priority p <= 10.

(** The quantum of a level, and a tick counter that has not used it up. *)
Definition quantum (p : proc) : Z := 2 * level p + 2.

Definition tick_ok (p : proc) : Prop := 0 <= tick p < quantum p.

(** Slot [i], holding [p], is the first UNUSED slot of [t]. *)
Definition first_unused (t : list proc) (i : nat) (p : proc) : Prop :=
  t !! i = Some p ∧ state p = UNUSED
  ∧ ∀ j q, t !! j = Some q → (j < i)%nat → state q ≠ UNUSED.

(** Nobody sleeps on [c]. *)
Definition no_sleeper (c : channel) (t : list proc) : Prop :=
  Forall (λ p, ¬ (state p = SLEEPING ∧ chan p = c)) t.

(** The fields the timer works on are in their domain. *)
Definition fields_ok (p : proc) : Prop :=
  level_ok p ∧ tick_ok p ∧ priority_ok p.

(** The scheduling fields of a slot. *)
Definition sched_fields (p : proc) : Z * Z * Z * Z :=
  (level p, tick p, priority p, monopolize_flag p).

(** Slot 0 is [init] (pid 1), asleep in [wait]; slot 1 is its child, which
    runs; slots 2 and 3 are children of slot 1, a ZOMBIE and a sleeper. *)
Definition k_family : kstate := {|
  ptable_proc :=
    [ mkProc SLEEPING 1 None (ChanProc 0) 0 0 0 0 0;
      mkProc RUNNING 2 (Some 0%nat) ChanNull 0 1 3 0 0;
      mkProc ZOMBIE 3 (Some 1%nat) ChanNull 0 0 0 0 0;
      mkProc SLEEPING 4 (Some 1%nat) (ChanAddr 64) 0 2 0 0 0 ];
  ptable_numProc := [0; 0; 0; 0; 0; 0];
  cpu_proc := Some 1%nat;
  ticks := 7;
  nextpid := 5
|}.

(** *** Example states *)

(** The zero-initialised kernel before [userinit], with a table of three
    slots. *)
Definition k_boot : kstate := {|
  ptable_proc := [proc_zero; proc_zero; proc_zero];
  ptable_numProc := [0; 0; 0; 0; 0; 0];
  cpu_proc := None;
  ticks := 0;
  nextpid := 1
|}.

(** Slot 0 is [init], asleep in [wait] on its own PCB; slot 1 is its child,
    RUNNING on the CPU; slot 2 is free.  No process is RUNNABLE and every
    count is 0. *)
Definition k_wait : kstate := {|
  ptable_proc :=
    [ mkProc SLEEPING 1 None (ChanProc 0) 0 0 0 0 0;
      mkProc RUNNING 2 (Some 0%nat) ChanNull 0 0 0 0 0;
      proc_zero ];
  ptable_numProc := [0; 0; 0; 0; 0; 0];
  cpu_proc := Some 1%nat;
  ticks := 7;
  nextpid := 3
|}.

(** The scheduler's view after [setmonopoly] marked the RUNNABLE process of
    slot 1: the CPU runs no process, slot 1 is counted in [numProc[4]]. *)
Definition k_mono : kstate := {|
  ptable_proc :=
    [ mkProc SLEEPING 1 None (ChanProc 0) 0 0 0 0 0;
      mkProc RUNNABLE 2 (Some 0%nat) ChanNull 0 0 0 0 1;
      mkProc SLEEPING 3 (Some 0%nat) (ChanAddr 64) 0 0 0 0 0 ];
  ptable_numProc := [0; 0; 0; 0; 1; 0];
  cpu_proc := None;
  ticks := 7;
  nextpid := 4
|}.

(** Slot 1 has exited and is a ZOMBIE child of the process of slot 0, which
    runs on the CPU and calls [wait]. *)
Definition k_zombie : kstate := {|
  ptable_proc :=
    [ mkProc RUNNING 1 None ChanNull 0 0 0 0 0;
      mkProc ZOMBIE 2 (Some 0%nat) ChanNull 0 1 1 5 0;
      mkProc SLEEPING 3 (Some 0%nat) (ChanAddr 64) 0 0 0 0 0 ];
  ptable_numProc := [0; 0; 0; 0; 0; 0];
  cpu_proc := Some 0%nat;
  ticks := 7;
  nextpid := 4
|}.

(** [k_zombie] after that [wait]: slot 1 is UNUSED with pid 0; its level,
    tick and priority are what the dead process left. *)
Definition k_reaped : kstate := {|
  ptable_proc :=
    [ mkProc RUNNING 1 None ChanNull 0 0 0 0 0;
      mkProc UNUSED 0 None ChanNull 0 1 1 5 0;
      mkProc SLEEPING 3 (Some 0%nat) (ChanAddr 64) 0 0 0 0 0 ];
  ptable_numProc := [0; 0; 0; 0; 0; 0];
  cpu_proc := Some 0%nat;
  ticks := 7;
  nextpid := 4
|}.

(** [k_tick] seen by the scheduler: the process of slot 0 sleeps, slot 1
    is the only eligible one, at level 2. *)
Definition k_tick' : kstate := {|
  ptable_proc :=
    [ mkProc SLEEPING 2 None (ChanAddr 64) 0 3 7 5 0;
      mkProc RUNNABLE 3 None ChanNull 0 2 1 4 0;
      mkProc SLEEPING 4 None ChanTicks 0 1 0 0 0 ];
  ptable_numProc := [0; 0; 1; 0; 0; 0];
  cpu_proc := None;
  ticks := 41;
  nextpid := 5
|}.

(** Two eligible processes, at level 1 in slot 0 and at level 0 in slot 1,
    rightly counted. *)
Definition k_split : kstate := {|
  ptable_proc :=
    [ mkProc RUNNABLE 2 None ChanNull 0 1 0 0 0;
      mkProc RUNNABLE 3 None ChanNull 0 0 0 0 0 ];
  ptable_numProc := [1; 1; 0; 0; 0; 0];
  cpu_proc := None;
  ticks := 7;
  nextpid := 4
|}.

(** Three eligible processes, at levels 0, 2 and 3, and a monopolized
    one; [numProc[0]] is wrong, the other counts are right. *)
Definition k_stale0 : kstate := {|
  ptable_proc :=
    [ mkProc RUNNABLE 2 None ChanNull 0 0 1 0 0;
      mkProc RUNNABLE 3 None ChanNull 0 2 3 0 0;
      mkProc RUNNABLE 4 None ChanNull 0 3 5 7 0;
      mkProc SLEEPING 5 None (ChanAddr 64) 0 1 0 0 1 ];
  ptable_numProc := [7; 0; 1; 1; 1; 0];
  cpu_proc := None;
  ticks := 99;
  nextpid := 6
|}.

(** [k_tick] with nobody asleep on [&ticks]. *)
Definition k_run : kstate := {|
  ptable_proc :=
    [ mkProc RUNNING 2 None ChanNull 0 3 7 5 0;
      mkProc RUNNABLE 3 None ChanNull 0 2 1 4 0;
      mkProc SLEEPING 4 None (ChanAddr 64) 0 1 0 0 0 ];
  ptable_numProc := [0; 0; 1; 0; 0; 0];
  cpu_proc := Some 0%nat;
  ticks := 41;
  nextpid := 5
|}.



(** [init] asleep in [wait] and three eligible processes, rightly counted:
    pid 3 at level 1 in slot 1, pid 5 at level 0 in slot 2, pid 4 at
    level 3 in slot 3, each with the priority 0 it was created with. *)
Definition k_mixed : kstate := {|
  ptable_proc :=
    [ mkProc SLEEPING 1 None (ChanProc 0) 0 0 0 0 0;
      mkProc RUNNABLE 3 (Some 0%nat) ChanNull 0 1 0 0 0;
      mkProc RUNNABLE 5 (Some 0%nat) ChanNull 0 0 0 0 0;
      mkProc RUNNABLE 4 (Some 0%nat) ChanNull 0 3 0 0 0 ];
  ptable_numProc := [1; 1; 0; 1; 0; 0];
  cpu_proc := None;
  ticks := 7;
  nextpid := 6
|}.

(** The CPU as [sched] wants it: [ptable.lock] held once, interrupts
    off. *)
Definition cpu_handoff : cpu_view := {|
  holding_ptable_lock := true;
  eflags_if := false;
  ncli := 1
|}.

(** The CPU with a second lock held. *)
Definition cpu_two_locks : cpu_view := {|
  holding_ptable_lock := true;
  eflags_if := false;
  ncli := 2
|}.

(** [k_reaped] after a [fork] by the process of slot 0. *)
Definition k_forked : kstate := {|
  ptable_proc :=
    [ mkProc RUNNING 1 None ChanNull 0 0 0 0 0;
      mkProc RUNNABLE 4 (Some 0%nat) ChanNull 0 1 1 5 0;
      mkProc SLEEPING 3 (Some 0%nat) (ChanAddr 64) 0 0 0 0 0 ];
  ptable_numProc := [0; 0; 0; 0; 0; 0];
  cpu_proc := Some 0%nat;
  ticks := 7;
  nextpid := 5
|}.

(** Two RUNNABLE level-3 processes of priority 5 (pids 4 and 2) and one of
    priority 3, seen by the scheduler; levels 0 to 2 are empty. *)
Definition k_level3 : kstate := {|
  ptable_proc :=
    [ mkProc RUNNABLE 3 None ChanNull 0 3 0 3 0;
      mkProc RUNNABLE 4 None ChanNull 0 3 0 5 0;
      mkProc SLEEPING 1 None (ChanProc 2) 0 0 0 0 0;
      mkProc RUNNABLE 2 None ChanNull 0 3 0 5 0 ];
  ptable_numProc := [0; 0; 0; 3; 0; 0];
  cpu_proc := None;
  ticks := 7;
  nextpid := 5
|}.

(** [k_tick] one tick before the boost. *)
Definition k_boost : kstate := {|
  ptable_proc :=
    [ mkProc RUNNING 2 None ChanNull 0 3 7 5 0;
      mkProc RUNNABLE 3 None ChanNull 0 2 1 4 0;
      mkProc SLEEPING 4 None ChanTicks 0 1 0 0 0 ];
  ptable_numProc := [0; 0; 1; 0; 0; 0];
  cpu_proc := Some 0%nat;
  ticks := 99;
  nextpid := 5
|}.

(** [k_level3] seen from the process of slot 1, which runs; no slot is
    UNUSED. *)
Definition k_level3' : kstate := {|
  ptable_proc :=
    [ mkProc RUNNABLE 3 None ChanNull 0 3 0 3 0;
      mkProc RUNNING 4 None ChanNull 0 3 0 5 0;
      mkProc SLEEPING 1 None (ChanProc 2) 0 0 0 0 0;
      mkProc RUNNABLE 2 None ChanNull 0 3 0 5 0 ];
  ptable_numProc := [0; 0; 0; 2; 0; 0];
  cpu_proc := Some 1%nat;
  ticks := 7;
  nextpid := 5
|}.

(** The process of slot 0 runs at level 3 with priority 5 and has used 7 of
    its 8 ticks; slot 1 is RUNNABLE at level 2, slot 2 sleeps on [&ticks]. *)
Definition k_tick : kstate := {|
  ptable_proc :=
    [ mkProc RUNNING 2 None ChanNull 0 3 7 5 0;
      mkProc RUNNABLE 3 None ChanNull 0 2 1 4 0;
      mkProc SLEEPING 4 None ChanTicks 0 1 0 0 0 ];
  ptable_numProc := [0; 0; 1; 0; 0; 0];
  cpu_proc := Some 0%nat;
  ticks := 41;
  nextpid := 5
|}.

End Proc.

Module Kalloc.

(** ** Data model of [kalloc.c] *)

(** The constants and macros of memlayout.h and mmu.h, which are not among
    the sources, are parameters of the development: the page size, the top
    of physical memory, the first address after the kernel image ([end]),
    and the macros [V2P] and [PGROUNDUP]. *)
Class layout := mkLayout {
  PGSIZE : Z;
  PHYSTOP : Z;
  kend : Z;
  V2P : Z → Z;
  PGROUNDUP : Z → Z
}.

(** The values of a stock 32-bit xv6: [KERNBASE = 0x80000000],
    [PHYSTOP = 0xE000000], 4096-byte pages, and a kernel image that ends
    at [0x801154a8]. *)
Definition xv6_layout : layout := {|
  PGSIZE := 4096;
  PHYSTOP := 234881024;
  kend := 2148619432;
  V2P := λ a, wrapu (wrapu a - 2147483648);
  PGROUNDUP := λ a, Z.land (wrapu (a + 4096 - 1)) (wrapu (Z.lnot (4096 - 1)))
|}.

(** [kmem], and the memory the free list is threaded through: [mem a] is
    the byte at kernel virtual address [a].  A [struct run *] is an address,
    0 for null; [r->next] is the 32-bit little-endian word at [r]. *)
Record kmem := mkKmem {
  use_lock : Z;
  freelist : Z;
  ref_cnt : Z → Z;
  num_freePage : Z;
  mem : Z → Z
}.

Definition store8 (m : Z → Z) (a b : Z) : Z → Z :=
  λ x, if x =? a then b else m x.

Definition store32 (m : Z → Z) (a w : Z) : Z → Z :=
  store8 (store8 (store8 (store8 m a (w mod 256))
                         (a + 1) (w / 2 ^ 8 mod 256))
                 (a + 2) (w / 2 ^ 16 mod 256))
         (a + 3) (w / 2 ^ 24 mod 256).

Definition load32 (m : Z → Z) (a : Z) : Z :=
  m a + 2 ^ 8 * m (a + 1) + 2 ^ 16 * m (a + 2) + 2 ^ 24 * m (a + 3).

Definition memset (m : Z → Z) (a c n : Z) : Z → Z :=
  λ x, if (a <=? x) && (x <? a + n) then c mod 256 else m x.

(** [a[i] = v] on an array seen as a function of its index. *)
Definition rc_set (rc : Z → Z) (i v : Z) : Z → Z :=
  λ j, if j =? i then v else rc j.

Definition set_use_lock (v : Z) (s : kmem) : kmem :=
  mkKmem v (freelist s) (ref_cnt s) (num_freePage s) (mem s).
Definition set_ref_cnt (rc : Z → Z) (s : kmem) : kmem :=
  mkKmem (use_lock s) (freelist s) rc (num_freePage s) (mem s).

(** The chain of [next] pointers from [r], at most [fuel] links of it. *)
Fixpoint freelist_walk (fuel : nat) (m : Z → Z) (r : Z) : list Z :=
  match fuel with
  | O => []
  | S fuel' => if r =? 0 then [] else r :: freelist_walk fuel' m (load32 m r)
  end.

(** The frame at [v] is on the free list. *)
Definition on_freelist (s : kmem) (v : Z) : Prop :=
  ∃ fuel, v ∈ freelist_walk fuel (mem s) (freelist s).

Section Operations.

Context {L : layout}.

Definition PAGE_COUNT : Z := PHYSTOP / PGSIZE.
Definition PAGE_INDEX (pa : Z) : Z := pa / PGSIZE.

(** An index into [ref_cnt[PAGE_COUNT]]. *)
Definition rc_index (i : Z) : result Z :=
  if (0 <=? i) && (i <? PAGE_COUNT) then Ok i else Fault.

Definition kfree (v : Z) (s : kmem) : result kmem :=
  if negb (wrapu v mod PGSIZE =? 0) || (v <? kend) || (V2P v >=? PHYSTOP)
  then Panic "kfree"
  else
    i ← rc_index (V2P v / PGSIZE);
    let rc :=
      if ref_cnt s i >? 0 then rc_set (ref_cnt s) i (wrap (ref_cnt s i - 1))
      else ref_cnt s in
    if rc i =? 0 then
      let m1 := memset (mem s) v 1 PGSIZE in
      let m2 := store32 m1 v (freelist s) in
      Ok (mkKmem (use_lock s) v rc (wrap (num_freePage s + 1)) m2)
    else Ok (set_ref_cnt rc s).

Definition kalloc (s : kmem) : result (Z * kmem) :=
  let r := freelist s in
  if negb (r =? 0) then
    i ← rc_index (V2P r / PGSIZE);
    Ok (r, mkKmem (use_lock s) (load32 (mem s) r) (rc_set (ref_cnt s) i 1)
                  (wrap (num_freePage s - 1)) (mem s))
  else Ok (r, s).

Definition incr_refc (pa : Z) (s : kmem) : result kmem :=
  i ← rc_index (wrap (PAGE_INDEX (wrapu pa)));
  Ok (set_ref_cnt (rc_set (ref_cnt s) i (wrap (ref_cnt s i + 1))) s).

Definition decr_refc (pa : Z) (s : kmem) : result kmem :=
  i ← rc_index (wrap (PAGE_INDEX (wrapu pa)));
  Ok (set_ref_cnt (rc_set (ref_cnt s) i (wrap (ref_cnt s i - 1))) s).

Definition get_refc (pa : Z) (s : kmem) : result Z :=
  i ← rc_index (wrap (PAGE_INDEX (wrapu pa)));
  Ok (ref_cnt s i).

Definition countfp (s : kmem) : Z := wrap (wrapu (num_freePage s)).

(** [freerange]: the loop runs while [p + PGSIZE <= vend]; [fuel] bounds
    the number of rounds. *)
Fixpoint freerange_loop (fuel : nat) (p vend : Z) (s : kmem) : result kmem :=
  match fuel with
  | O => Ok s
  | S fuel' =>
      if p + PGSIZE <=? vend then
        i ← rc_index (V2P p / PGSIZE);
        s' ← kfree p (set_ref_cnt (rc_set (ref_cnt s) i 0) s);
        freerange_loop fuel' (p + PGSIZE) vend s'
      else Ok s
  end.

Definition freerange (vstart vend : Z) (s : kmem) : result kmem :=
  let p := PGROUNDUP (wrapu vstart) in
  freerange_loop (Z.to_nat ((vend - p) / PGSIZE)) p vend s.

Definition kinit1 (vstart vend : Z) (s : kmem) : result kmem :=
  freerange vstart vend (set_use_lock 0 s).

Definition kinit2 (vstart vend : Z) (s : kmem) : result kmem :=
  s' ← freerange vstart vend s;
  Ok (set_use_lock 1 s').

(** A call of the allocator's interface, and a sequence of calls. *)
Inductive call :=
  | CallKalloc
  | CallKfree (v : Z)
  | CallIncr (pa : Z)
  | CallDecr (pa : Z).

Definition run_call (c : call) (s : kmem) : result kmem :=
  match c with
  | CallKalloc => r ← kalloc s; Ok r.2
  | CallKfree v => kfree v s
  | CallIncr pa => incr_refc pa s
  | CallDecr pa => decr_refc pa s
  end.

Fixpoint run_calls (cs : list call) (s : kmem) : result kmem :=
  match cs with
  | [] => Ok s
  | c :: cs' => s' ← run_call c s; run_calls cs' s'
  end.

(** The constants are those of a 32-bit kernel: pages have a positive
    size, physical memory is a whole number of pages and its size fits an
    [int]. *)
Definition layout_ok : Prop :=
  0 < PGSIZE ∧ 0 <= PHYSTOP <= 2 ^ 31 ∧ PHYSTOP mod PGSIZE = 0.

(** [v] passes the check at the head of [kfree]: aligned, not below [end],
    and below [PHYSTOP] once translated. *)
Definition frame_ok (v : Z) : Prop :=
  wrapu v mod PGSIZE = 0 ∧ kend <= v ∧ 0 <= V2P v < PHYSTOP.

(** The slot of [ref_cnt] for the frame at [v]. *)
Definition frame_index (v : Z) : Z := V2P v / PGSIZE.

(** [s'] has the free list, the free-page counter and the memory of [s]. *)
Definition same_pool (s s' : kmem) : Prop :=
  freelist s' = freelist s ∧ num_freePage s' = num_freePage s ∧ mem s' = mem s.

(** [s'] is [s] with the frame at [v] recycled: filled with the byte 1,
    linked in front of the old free list, and counted. *)
Definition recycled (v : Z) (s s' : kmem) : Prop :=
  freelist s' = v
  ∧ load32 (mem s') v = freelist s
  ∧ (∀ a, v + 4 <= a < v + PGSIZE → mem s' a = 1)
  ∧ num_freePage s' = wrap (num_freePage s + 1).

(** Calls other than [decr_refc]. *)
Definition guarded (c : call) : Prop :=
  match c with CallDecr _ => False | _ => True end.

(** A non-null 32-bit pointer. *)
Definition is_ptr (v : Z) : Prop := 0 < v < 2 ^ 32.

(** The frames [kfree] accepts. *)
Definition good (v : Z) : Prop := frame_ok v ∧ is_ptr v.

(** From [r] the [next] pointers run through the frames of [l], in this
    order, and end at null. *)
Fixpoint is_chain (m : Z → Z) (r : Z) (l : list Z) : Prop :=
  match l with
  | [] => r = 0
  | v :: l' => r = v ∧ v ≠ 0 ∧ is_chain m (load32 m v) l'
  end.

(** The allocator is well formed for a set of managed frames: counts are
    non-negative [int]s; the free list is a chain of distinct frames, each
    with count 0; a managed frame with count 0 is on it. *)
Definition alloc_wf (managed : Z → Prop) (s : kmem) : Prop :=
  (∀ i, 0 <= ref_cnt s i <= INT_MAX)
  ∧ ∃ l, is_chain (mem s) (freelist s) l
         ∧ NoDup l
         ∧ (∀ v, v ∈ l → good v ∧ ref_cnt s (frame_index v) = 0)
         ∧ (∀ v, managed v → ref_cnt s (frame_index v) = 0 → v ∈ l).

(** The use the collaborators are to make of the interface: [kfree] of a
    frame that has an owner, [incr_refc] of a frame that has an owner,
    [decr_refc] of a frame that has another owner left. *)
Definition call_ok (c : call) (s : kmem) : Prop :=
  match c with
  | CallKalloc => True
  | CallKfree v => good v ∧ 0 < ref_cnt s (frame_index v)
  | CallIncr pa =>
      0 <= wrap (PAGE_INDEX (wrapu pa)) < PAGE_COUNT
      ∧ 0 < ref_cnt s (wrap (PAGE_INDEX (wrapu pa))) < INT_MAX
  | CallDecr pa =>
      0 <= wrap (PAGE_INDEX (wrapu pa)) < PAGE_COUNT
      ∧ 1 < ref_cnt s (wrap (PAGE_INDEX (wrapu pa)))
  end.

Fixpoint calls_ok (cs : list call) (s : kmem) : Prop :=
  match cs with
  | [] => True
  | c :: cs' => call_ok c s ∧ ∀ s', run_call c s = Ok s' → calls_ok cs' s'
  end.

(** What the counts need to stay non-negative [int]s: [decr_refc] of a
    frame whose count is positive, [incr_refc] of a frame whose count is
    below [INT_MAX].  [kalloc] and [kfree] are free. *)
Definition count_ok (c : call) (s : kmem) : Prop :=
  match c with
  | CallKalloc | CallKfree _ => True
  | CallIncr pa => ref_cnt s (wrap (PAGE_INDEX (wrapu pa))) < INT_MAX
  | CallDecr pa => 0 < ref_cnt s (wrap (PAGE_INDEX (wrapu pa)))
  end.

Fixpoint counts_ok (cs : list call) (s : kmem) : Prop :=
  match cs with
  | [] => True
  | c :: cs' => count_ok c s ∧ ∀ s', run_call c s = Ok s' → counts_ok cs' s'
  end.

(** The [n] pages from [p] on, in ascending order. *)
Definition range_pages (p : Z) (n : nat) : list Z :=
  (λ i : nat, p + Z.of_nat i * PGSIZE) <$> seq 0 n.

(** [s'] is [s] with [pages] pushed onto the free list [l], one after the
    other: the last one is the head; each has the count 0 and is counted
    as a free page; the counts of other frames are those of [s]. *)
Definition seeded (pages l : list Z) (s s' : kmem) : Prop :=
  is_chain (mem s') (freelist s') (reverse pages ++ l)
  ∧ num_freePage s' = num_freePage s + Z.of_nat (length pages)
  ∧ (∀ u, u ∈ pages → ref_cnt s' (frame_index u) = 0)
  ∧ (∀ i, (∀ u, u ∈ pages → i ≠ frame_index u) → ref_cnt s' i = ref_cnt s i).

(** The free-page counter is the length of the free list. *)
Definition counted (s : kmem) : Prop :=
  ∀ l, is_chain (mem s) (freelist s) l → num_freePage s = Z.of_nat (length l).

End Operations.

(** *** Example states *)

(** The allocator before [kinit1]: zero-initialised, over a zeroed memory. *)
Definition s_boot : kmem := {|
  use_lock := 0;
  freelist := 0;
  ref_cnt := λ _, 0;
  num_freePage := 0;
  mem := λ _, 0
|}.

(** A page of the stock layout: [0x80400000], frame 1024. *)
Definition v0 : Z := 2151677952.
Definition pa0 : Z := 4194304.

(** The allocator after [kinit1] over that one page, and after the page
    has been handed out by [kalloc]. *)
Definition s_init : kmem :=
  match kinit1 (L := xv6_layout) v0 (v0 + 4096) s_boot with
  | Ok s => s
  | _ => s_boot
  end.

Definition s_fresh : kmem :=
  match kalloc (L := xv6_layout) s_init with
  | Ok (_, s) => s
  | _ => s_init
  end.

(** The state a sequence of calls leaves, when it runs to its end. *)
Definition exec (cs : list call) (s : kmem) : kmem :=
  match run_calls (L := xv6_layout) cs s with
  | Ok s' => s'
  | _ => s
  end.

End Kalloc.

(** * Properties *)

(** ** Machine integers *)

Lemma wrap_small z : INT_MIN <= z <= INT_MAX → wrap z = z.
Proof.
  unfold INT_MIN, INT_MAX, wrap. intros H. rewrite Z.mod_small; lia.
Qed.

Lemma wrap_range z : INT_MIN <= wrap z <= INT_MAX.
Proof.
  unfold INT_MIN, INT_MAX, wrap.
  pose proof (Z.mod_pos_bound (z + 2 ^ 31) (2 ^ 32)). lia.
Qed.

Lemma wrap_add_l a b : wrap (wrap a + b) = wrap (a + b).
Proof.
  unfold wrap. f_equal.
  replace ((a + 2 ^ 31) mod 2 ^ 32 - 2 ^ 31 + b + 2 ^ 31)
    with ((a + 2 ^ 31) mod 2 ^ 32 + b) by lia.
  rewrite Zplus_mod_idemp_l. f_equal. lia.
Qed.

Lemma wrapu_small z : 0 <= z < 2 ^ 32 → wrapu z = z.
Proof. intros H. unfold wrapu. apply Z.mod_small. lia. Qed.

Section ProcProperties.

Import Proc.

(** ** The process table *)

Lemma np_get_incr_eq i np :
  (i < length np)%nat → np_get i (np_incr i np) = wrap (np_get i np + 1).
Proof.
  intros Hi. unfold np_get, np_incr. rewrite list_lookup_alter_eq.
  destruct (lookup_lt_is_Some_2 np i Hi) as [x ->]. reflexivity.
Qed.

Lemma np_get_decr_eq i np :
  (i < length np)%nat → np_get i (np_decr i np) = wrap (np_get i np - 1).
Proof.
  intros Hi. unfold np_get, np_decr. rewrite list_lookup_alter_eq.
  destruct (lookup_lt_is_Some_2 np i Hi) as [x ->]. reflexivity.
Qed.

Lemma np_get_incr_ne i j np : i ≠ j → np_get j (np_incr i np) = np_get j np.
Proof.
  intros Hne. unfold np_get, np_incr. by rewrite list_lookup_alter_ne.
Qed.

Lemma np_get_decr_ne i j np : i ≠ j → np_get j (np_decr i np) = np_get j np.
Proof.
  intros Hne. unfold np_get, np_decr. by rewrite list_lookup_alter_ne.
Qed.

Lemma length_np_incr i np : length (np_incr i np) = length np.
Proof. apply length_alter. Qed.

Lemma length_np_decr i np : length (np_decr i np) = length np.
Proof. apply length_alter. Qed.

(** [claim C1] The counts of [numProc] are meant to be the numbers of
    RUNNABLE, non-monopolized processes per level (and of monopolized
    processes in slot 4), after every operation.  The code does not keep
    them: in [k_wait] the counts are right; [wakeup] on the channel [init]
    sleeps on, [kill] of [init], and [fork] by the running process each make
    a process RUNNABLE and leave [numProc] as it was. *)
Theorem C1_numProc_not_maintained :
  numProc_consistent k_wait
  ∧ ¬ numProc_consistent (wakeup (ChanProc 0) k_wait)
  ∧ ptable_numProc (wakeup (ChanProc 0) k_wait) = ptable_numProc k_wait
  ∧ count_eligible 0 (ptable_proc (wakeup (ChanProc 0) k_wait)) = 1
  ∧ ¬ numProc_consistent (kill 1 k_wait).1
  ∧ (∃ k', fork true true k_wait = Ok (k', 3) ∧ ¬ numProc_consistent k').
Proof.
  split_and!.
  - apply (bool_decide_unpack _). by vm_compute.
  - apply (bool_decide_eq_false_1 _). by vm_compute.
  - reflexivity.
  - by vm_compute.
  - apply (bool_decide_eq_false_1 _). by vm_compute.
  - eexists. split; [by vm_compute|].
    apply (bool_decide_eq_false_1 _). by vm_compute.
Qed.

(** The first steps of the kernel already show it: [userinit] makes the
    first process RUNNABLE at level 0 with [numProc[0]] at 0, so the scan
    dispatches it through its last branch and takes [numProc[3]] to -1. *)
Lemma boot_first_dispatch :
  numProc_consistent k_boot
  ∧ ∃ k1, userinit true true k_boot = Ok k1
      ∧ ptable_proc k1 !! 0%nat = Some (mkProc RUNNABLE 1 None ChanNull 0 0 0 0 0)
      ∧ ptable_numProc k1 = [0; 0; 0; 0; 0; 0]
      ∧ ¬ numProc_consistent k1
      ∧ scheduler_branch (mkProc RUNNABLE 1 None ChanNull 0 0 0 0 0)
                         (ptable_numProc k1) = BrLast
      ∧ ∃ k2, scheduler_body id 0 k1 = Ok (0%nat, k2)
          ∧ ptable_proc k2 !! 0%nat
            = Some (mkProc RUNNING 1 None ChanNull 0 0 0 0 0)
          ∧ ptable_numProc k2 = [0; 0; 0; -1; 0; 0].
Proof.
  split; [apply (bool_decide_unpack _); by vm_compute|].
  eexists. split; [reflexivity|]. split_and!; try reflexivity.
  - apply (bool_decide_eq_false_1 _). by vm_compute.
  - eexists. split_and!; reflexivity.
Qed.

(** *** The exclusive path *)

Lemma monopolize_faults (swtch : kstate → kstate) k : monopolize swtch k = Fault.
Proof. reflexivity. Qed.

Lemma alter_as_insert {A} (f : A → A) (l : list A) i x :
  l !! i = Some x → alter f i l = <[i := f x]> l.
Proof.
  revert i. induction l as [|a l IH]; intros [|i] Hi; simplify_eq/=; [done|].
  f_equal. by apply IH.
Qed.

Lemma Ok_inj {A} (a b : A) : Ok a = Ok b → a = b.
Proof. by intros [= ->]. Qed.

Lemma is_Ok_bind {A B} (m : result A) (f : A → result B) b :
  m ≫= f = Ok b → ∃ a, m = Ok a ∧ f a = Ok b.
Proof. destruct m; simpl; intros H; try discriminate. eauto. Qed.

Lemma unmonopolize_keeps_flag k k' i :
  unmonopolize k = Ok k' →
  monopolize_flag <$> ptable_proc k' !! i = monopolize_flag <$> ptable_proc k !! i.
Proof.
  unfold unmonopolize. intros H.
  apply is_Ok_bind in H as (c & _ & H).
  apply is_Ok_bind in H as (p & _ & H).
  assert (Hupd : monopolize_flag
                   <$> ptable_proc (update_proc c (set_state RUNNABLE) k) !! i
                 = monopolize_flag <$> ptable_proc k !! i).
  { simpl. rewrite list_lookup_alter. case_decide; [subst|done].
    by destruct (ptable_proc k !! i). }
  repeat case_match; simplify_eq; done.
Qed.

(** [claim C4] The exclusive path is meant to run the monopolized process
    for one dispatch cycle and then put it back under level scheduling.
    In [k_mono] the scan reaches the RUNNABLE, monopolized process of slot
    1 and calls [monopolize], which clears [c->proc] and then reads
    [myproc()->monopolize] through the null pointer: nothing is marked
    RUNNING and nothing is handed off.  [unmonopolize], run with that
    process as the current one, moves the count from slot 4 to the level
    but leaves the flag at 1, so the scan takes the exclusive branch for it
    again. *)
Theorem C4_exclusive_path_never_dispatches (swtch : kstate → kstate) :
  deref k_mono (Some 1%nat) = Ok (mkProc RUNNABLE 2 (Some 0%nat) ChanNull 0 0 0 0 1)
  ∧ scheduler_branch (mkProc RUNNABLE 2 (Some 0%nat) ChanNull 0 0 0 0 1)
                     (ptable_numProc k_mono) = BrMonopolize
  ∧ monopolize swtch k_mono = Fault
  ∧ scheduler_body swtch 1 k_mono = Fault
  ∧ ∃ k', unmonopolize (set_cpu_proc (Some 1%nat) k_mono) = Ok k'
          ∧ ptable_numProc k' = [1; 0; 0; 0; 0; 0]
          ∧ ptable_proc k' !! 1%nat
            = Some (mkProc RUNNABLE 2 (Some 0%nat) ChanNull 0 0 0 0 1)
          ∧ scheduler_branch (mkProc RUNNABLE 2 (Some 0%nat) ChanNull 0 0 0 0 1)
                             (ptable_numProc k') = BrMonopolize.
Proof.
  split_and!; try reflexivity.
  eexists. split_and!; reflexivity.
Qed.

(** *** kill and setpriority *)

(** [claim C10] [kill] and [setpriority] look a process up by pid alone.
    When the first slot whose pid is 0 is an UNUSED one (as [wait] leaves a
    reaped slot), [kill(0)] returns 0 and sets [killed] in that slot, and
    [setpriority(0, prio)] with [prio] in 0..10 returns 0 and stores [prio]
    there; neither returns -1. *)
Theorem C10_pid_0_matches_unused_slot (k : kstate) (i : nat) (p : proc) (prio : Z) :
  ptable_proc k !! i = Some p →
  pid p = 0 →
  state p = UNUSED →
  (∀ j q, ptable_proc k !! j = Some q → (j < i)%nat → pid q ≠ 0) →
  0 <= prio <= 10 →
  (kill 0 k).2 = 0
  ∧ ptable_proc (kill 0 k).1 = <[i := set_killed 1 p]> (ptable_proc k)
  ∧ state (set_killed 1 p) = UNUSED
  ∧ killed (set_killed 1 p) = 1
  ∧ (setpriority 0 prio k).2 = 0
  ∧ ptable_proc (setpriority 0 prio k).1 = <[i := set_priority prio p]> (ptable_proc k)
  ∧ state (set_priority prio p) = UNUSED
  ∧ priority (set_priority prio p) = prio.
Proof.
  intros Hi Hpid Hst Hfirst Hprio.
  assert (Hk : list_find (λ q, pid q = 0) (ptable_proc k) = Some (i, p)).
  { apply list_find_Some. split_and!; [done|done|]. intros j q Hj Hlt. eauto. }
  assert (Hs : list_find (λ q, 0 = pid q) (ptable_proc k) = Some (i, p)).
  { apply list_find_Some. split_and!; [done|done|].
    intros j q Hj Hlt Heq. by eapply Hfirst. }
  unfold kill, setpriority. rewrite Hk, Hs.
  assert ((prio <? 0) || (10 <? prio) = false) as ->.
  { apply orb_false_iff. split; [apply Z.ltb_ge|apply Z.ltb_ge]; lia. }
  simpl. rewrite !(alter_as_insert _ _ _ _ Hi).
  split_and!; try done.
  f_equal. unfold kill_proc. simpl. rewrite Hst. by rewrite bool_decide_false.
Qed.

(** [wait] in [k_zombie] reaps slot 1 and leaves [k_reaped]. *)
Lemma wait_pass_k_zombie c : wait_pass c k_zombie = Ok (k_reaped, WaitReturn 2).
Proof. reflexivity. Qed.

Lemma C10_pid_0_matches_unused_slot_witness :
  (kill 0 k_reaped).2 = 0
  ∧ ptable_proc (kill 0 k_reaped).1
    = <[1%nat := set_killed 1 (mkProc UNUSED 0 None ChanNull 0 1 1 5 0)]>
        (ptable_proc k_reaped)
  ∧ state (set_killed 1 (mkProc UNUSED 0 None ChanNull 0 1 1 5 0)) = UNUSED
  ∧ killed (set_killed 1 (mkProc UNUSED 0 None ChanNull 0 1 1 5 0)) = 1
  ∧ (setpriority 0 7 k_reaped).2 = 0
  ∧ ptable_proc (setpriority 0 7 k_reaped).1
    = <[1%nat := set_priority 7 (mkProc UNUSED 0 None ChanNull 0 1 1 5 0)]>
        (ptable_proc k_reaped)
  ∧ state (set_priority 7 (mkProc UNUSED 0 None ChanNull 0 1 1 5 0)) = UNUSED
  ∧ priority (set_priority 7 (mkProc UNUSED 0 None ChanNull 0 1 1 5 0)) = 7.
Proof.
  apply (C10_pid_0_matches_unused_slot k_reaped 1%nat
           (mkProc UNUSED 0 None ChanNull 0 1 1 5 0) 7).
  - reflexivity.
  - reflexivity.
  - reflexivity.
  - intros [|[|j]] q Hq Hlt; simplify_eq/=; [done|lia|lia].
  - lia.
Defined.

(** *** setmonopoly *)

Lemma first_with_pid_find t pid0 i p :
  first_with_pid t pid0 i p → list_find (λ q, pid q = pid0) t = Some (i, p).
Proof. intros (Hi & Hp & Hfirst). apply list_find_Some. eauto. Qed.






(** *** The timer interrupt *)


Lemma wakeup1_lookup_awake c k i p :
  ptable_proc k !! i = Some p → state p ≠ SLEEPING →
  ptable_proc (wakeup1 c k) !! i = Some p.
Proof.
  intros Hi Hst. unfold wakeup1. simpl. rewrite list_lookup_fmap, Hi. simpl.
  unfold wakeup1_proc. by rewrite bool_decide_false.
Qed.

Lemma trap_timer_aging k i p :
  wrapu (ticks k + 1) ≠ 100 →
  myproc k = Some i →
  ptable_proc k !! i = Some p →
  state p = RUNNING →
  trap_timer 0 k
  = Ok (update_proc i age (wakeup ChanTicks (set_ticks (wrapu (ticks k + 1)) k))).
Proof.
  intros Hticks Hmy Hi Hst. unfold trap_timer.
  rewrite Z.eqb_refl.
  apply Z.eqb_neq in Hticks. rewrite Hticks.
  assert (myproc (wakeup ChanTicks (set_ticks (wrapu (ticks k + 1)) k)) = Some i)
    as -> by exact Hmy.
  unfold deref, wakeup.
  rewrite (wakeup1_lookup_awake ChanTicks
             (set_ticks (wrapu (ticks k + 1)) k) i p) by (done || congruence).
  simpl. by rewrite bool_decide_true.
Qed.



(** *** Priority boosting *)

Lemma boost_loop_fold np t :
  boost_loop np t = (foldl boost_count np t, boost_proc <$> t).
Proof.
  revert np. induction t as [|p t IH]; intros np; [done|].
  simpl. by rewrite IH.
Qed.

Lemma ready_bools p :
  ready p ↔ is_runnable p = true ∧ (monopolize_flag p =? 0) = true.
Proof.
  unfold ready, is_runnable.
  rewrite bool_decide_eq_true, Z.eqb_eq. done.
Qed.

Lemma boost_count_not_ready np p : ¬ ready p → boost_count np p = np.
Proof.
  intros Hn. unfold boost_count.
  destruct (is_runnable p) eqn:Hr; [|done].
  destruct (monopolize_flag p =? 0) eqn:Hm.
  - destruct Hn. by apply ready_bools.
  - by rewrite !andb_false_r.
Qed.

Lemma boost_count_ready np p :
  ready p → level_ok p →
  boost_count np p
  = if level p =? 0 then np_incr 0 np
    else np_decr (Z.to_nat (level p)) (np_incr 0 np).
Proof.
  intros [Hr Hm]%ready_bools [Hl0 Hl3]. unfold boost_count.
  rewrite Hr, Hm. simpl.
  destruct (Z.eqb_spec (level p) 0) as [|H0]; [done|]. simpl.
  rewrite !andb_true_r.
  assert (level p = 1 ∨ level p = 2 ∨ level p = 3) as [-> | [-> | ->]] by lia;
    done.
Qed.

Lemma length_boost_count np p : length (boost_count np p) = length np.
Proof.
  unfold boost_count. repeat case_match;
    by rewrite ?length_np_decr, ?length_np_incr.
Qed.

Lemma length_foldl_boost_count np t :
  length (foldl boost_count np t) = length np.
Proof.
  revert np. induction t as [|p t IH]; intros np; [done|].
  simpl. by rewrite IH, length_boost_count.
Qed.

Lemma boost_count_get_0 np p :
  (0 < length np)%nat → level_ok p →
  np_get 0 (boost_count np p)
  = if decide (ready p) then wrap (np_get 0 np + 1) else np_get 0 np.
Proof.
  intros Hlen Hlv. case_decide as Hr.
  - rewrite boost_count_ready by done.
    destruct (level p =? 0) eqn:Hl.
    + by apply np_get_incr_eq.
    + apply Z.eqb_neq in Hl. destruct Hlv.
      rewrite np_get_decr_ne by lia. by apply np_get_incr_eq.
  - by rewrite boost_count_not_ready.
Qed.

Lemma boost_count_get_level np p (l : nat) :
  (1 <= l <= 3)%nat → (l < length np)%nat →
  np_get l (boost_count np p)
  = if decide (eligible (Z.of_nat l) p) then wrap (np_get l np - 1)
    else np_get l np.
Proof.
  intros Hl Hlen. unfold boost_count.
  destruct (is_runnable p) eqn:Hr; simpl.
  2:{ rewrite decide_False; [done|]. intros (Hst & _).
      unfold is_runnable in Hr. by apply bool_decide_eq_false in Hr. }
  destruct (monopolize_flag p =? 0) eqn:Hm; simpl.
  2:{ rewrite !andb_false_r. rewrite decide_False; [done|]. intros (_ & _ & H).
      by apply Z.eqb_neq in Hm. }
  apply bool_decide_eq_true in Hr. apply Z.eqb_eq in Hm.
  rewrite !andb_true_r.
  destruct (Z.eqb_spec (level p) 0) as [H0|H0].
  { rewrite np_get_incr_ne by lia. rewrite decide_False; [done|].
    intros (_ & H & _). lia. }
  destruct ((level p =? 1) || (level p =? 2) || (level p =? 3)) eqn:Hb.
  - assert (Hlv : 1 <= level p <= 3).
    { apply orb_true_iff in Hb as [Hb|Hb]; [apply orb_true_iff in Hb as [Hb|Hb]|];
        apply Z.eqb_eq in Hb; lia. }
    case_decide as He.
    + destruct He as (_ & He & _). rewrite He, Nat2Z.id.
      rewrite np_get_decr_eq by (by rewrite length_np_incr).
      rewrite np_get_incr_ne by lia. done.
    + rewrite np_get_decr_ne.
      * rewrite np_get_incr_ne by lia. done.
      * intros Heq. apply He. unfold eligible. split_and!; [done|lia|done].
  - rewrite decide_False; [done|]. intros (_ & He & _).
    apply orb_false_iff in Hb as [Hb H3]. apply orb_false_iff in Hb as [H1 H2].
    apply Z.eqb_neq in H1, H2, H3. lia.
Qed.

Lemma boost_fold_get_0 np t :
  (0 < length np)%nat → Forall level_ok t →
  0 <= np_get 0 np → np_get 0 np + Z.of_nat (length t) <= INT_MAX →
  np_get 0 (foldl boost_count np t) = np_get 0 np + count_ready t.
Proof.
  unfold count_ready. revert np.
  induction t as [|p t IH]; intros np Hlen Hlv H0 Hmax; [simpl; lia|].
  apply Forall_cons in Hlv as [Hp Hlv]. simpl in Hmax |- *.
  pose proof (boost_count_get_0 np p Hlen Hp) as Hg.
  rewrite IH; [|by rewrite length_boost_count|done|..].
  - rewrite filter_cons. rewrite Hg. case_decide; [|lia].
    rewrite wrap_small by (unfold INT_MIN, INT_MAX in *; lia).
    simpl. lia.
  - rewrite Hg. case_decide; [|lia].
    rewrite wrap_small by (unfold INT_MIN, INT_MAX in *; lia). lia.
  - rewrite Hg. case_decide; [|lia].
    rewrite wrap_small by (unfold INT_MIN, INT_MAX in *; lia). lia.
Qed.

Lemma boost_fold_get_level np t (l : nat) :
  (1 <= l <= 3)%nat → (l < length np)%nat → int_range (np_get l np) →
  np_get l (foldl boost_count np t)
  = wrap (np_get l np - count_eligible (Z.of_nat l) t).
Proof.
  unfold count_eligible. intros Hl. revert np.
  induction t as [|p t IH]; intros np Hlen Hr.
  - simpl. rewrite Z.sub_0_r. symmetry. by apply wrap_small.
  - simpl. rewrite IH; [|by rewrite length_boost_count|].
    + rewrite boost_count_get_level by done. rewrite filter_cons.
      case_decide; [|done]. simpl length.
      rewrite <- (Z.add_opp_r (wrap _)), wrap_add_l. f_equal. lia.
    + rewrite boost_count_get_level by done.
      case_decide; [apply wrap_range|done].
Qed.

Lemma count_ready_boost t : count_ready (boost_proc <$> t) = count_ready t.
Proof.
  unfold count_ready. f_equal.
  induction t as [|p t IH]; [done|].
  rewrite fmap_cons, !filter_cons.
  destruct (decide (ready p)) as [Hr|Hr].
  - rewrite decide_True by exact Hr. simpl. by rewrite IH.
  - rewrite decide_False by exact Hr. done.
Qed.

Lemma wakeup1_level_ok c t :
  Forall level_ok t → Forall level_ok (wakeup1_proc c <$> t).
Proof.
  intros H. apply Forall_fmap. eapply Forall_impl; [exact H|].
  intros p Hp. simpl. unfold wakeup1_proc.
  destruct (_ && _); exact Hp.
Qed.

(** [claim C3] A timer interrupt on CPU 0 that brings [ticks] to 100: it is
    reset to 0 and [priority_boosting] runs on the table (after the wake-up
    on [&ticks]) in place of the aging.  Every slot then has level 0 and
    tick 0 and the priority it had; [numProc[0]] is the number of RUNNABLE,
    non-monopolized processes; [numProc[l]] for l = 1, 2, 3 has lost one for
    each process that was RUNNABLE and not monopolized at level l. *)
Theorem C3_priority_boost (k : kstate) :
  wrapu (ticks k + 1) = 100 →
  length (ptable_numProc k) = 6%nat →
  Z.of_nat (length (ptable_proc k)) <= INT_MAX →
  Forall level_ok (ptable_proc k) →
  (∀ l, int_range (np_get l (ptable_numProc k))) →
  ∃ k', trap_timer 0 k = Ok k'
    ∧ k' = priority_boosting (wakeup ChanTicks (set_ticks 0 k))
    ∧ ticks k' = 0
    ∧ length (ptable_proc k') = length (ptable_proc k)
    ∧ (∀ i p', ptable_proc k' !! i = Some p' → level p' = 0 ∧ tick p' = 0)
    ∧ (∀ i, priority <$> ptable_proc k' !! i = priority <$> ptable_proc k !! i)
    ∧ np_get 0 (ptable_numProc k') = count_ready (ptable_proc k')
    ∧ (∀ l : nat, (1 <= l <= 3)%nat →
       np_get l (ptable_numProc k')
       = wrap (np_get l (ptable_numProc k)
               - count_eligible (Z.of_nat l)
                   (ptable_proc (wakeup ChanTicks k)))).
Proof.
  intros Hticks Hlen Hmax Hlv Hint.
  assert (Hrun : trap_timer 0 k
                 = Ok (priority_boosting (wakeup ChanTicks (set_ticks 0 k)))).
  { unfold trap_timer. rewrite Z.eqb_refl, Hticks. done. }
  eexists. split; [exact Hrun|]. split; [done|].
  unfold priority_boosting. rewrite boost_loop_fold. simpl.
  set (t := wakeup1_proc ChanTicks <$> ptable_proc k).
  split_and!.
  - done.
  - unfold t. by rewrite !length_fmap.
  - intros i p' Hi. rewrite list_lookup_fmap in Hi.
    destruct (t !! i) as [q|]; simplify_eq/=. done.
  - intros i. unfold t. rewrite !list_lookup_fmap.
    destruct (ptable_proc k !! i) as [q|]; [|done]. simpl.
    unfold wakeup1_proc. by case_match.
  - rewrite count_ready_boost. rewrite boost_fold_get_0.
    + unfold np_get. rewrite list_lookup_insert_eq by lia. simpl. lia.
    + rewrite length_insert. lia.
    + by apply wakeup1_level_ok.
    + unfold np_get. rewrite list_lookup_insert_eq by lia. simpl. lia.
    + unfold np_get. rewrite list_lookup_insert_eq by lia. simpl.
      unfold t. rewrite length_fmap. lia.
  - intros l Hl. rewrite boost_fold_get_level.
    + unfold np_get at 1. rewrite list_lookup_insert_ne by lia. done.
    + done.
    + rewrite length_insert. lia.
    + unfold np_get. rewrite list_lookup_insert_ne by lia. apply Hint.
Qed.

(** In [k_boost] the hundredth tick wakes slot 2 and boosts: two processes
    are counted at level 0, and the counts of levels 1 and 2 each lose
    one. *)
Lemma C3_priority_boost_witness :
  ∃ k', trap_timer 0 k_boost = Ok k'
        ∧ ticks k' = 0
        ∧ ptable_proc k'
          = [ mkProc RUNNING 2 None ChanNull 0 0 0 5 0;
              mkProc RUNNABLE 3 None ChanNull 0 0 0 4 0;
              mkProc RUNNABLE 4 None ChanTicks 0 0 0 0 0 ]
        ∧ np_get 0 (ptable_numProc k') = 2
        ∧ np_get 1 (ptable_numProc k') = -1
        ∧ np_get 2 (ptable_numProc k') = 0.
Proof.
  destruct (C3_priority_boost k_boost) as (k' & Hk' & Heq & Ht & _ & _ & _ & H0 & Hl).
  - reflexivity.
  - reflexivity.
  - by vm_compute.
  - repeat constructor; by vm_compute.
  - intros l. do 6 (destruct l as [|l]; [by vm_compute|]). by vm_compute.
  - exists k'. split_and!.
    + exact Hk'.
    + exact Ht.
    + by rewrite Heq.
    + rewrite H0, Heq. reflexivity.
    + rewrite (Hl 1%nat) by lia. reflexivity.
    + rewrite (Hl 2%nat) by lia. reflexivity.
Defined.

(** *** The last branch of the scheduler *)

Lemma l3_le_refl p : l3_le p p.
Proof. unfold l3_le. lia. Qed.

Lemma l3_le_trans a b c : l3_le a b → l3_le b c → l3_le a c.
Proof. unfold l3_le. lia. Qed.

Lemma l3_candidate_bools q :
  l3_candidate q ↔ is_runnable q && (level q =? 3) = true.
Proof.
  unfold l3_candidate, is_runnable.
  rewrite andb_true_iff, bool_decide_eq_true, Z.eqb_eq. done.
Qed.

Lemma l3_step_spec t i p m :
  t !! i = Some p →
  ∃ b, t !! l3_step t i m = Some b
       ∧ l3_le p b
       ∧ (l3_step t i m = i ∨ l3_candidate b)
       ∧ ∀ q, t !! m = Some q → l3_candidate q → l3_le q b.
Proof.
  intros Hi. unfold l3_step. rewrite Hi.
  destruct (t !! m) as [q|] eqn:Hm.
  2:{ exists p. rewrite Hi. split_and!; [done|apply l3_le_refl|by left|done]. }
  destruct (is_runnable q && (level q =? 3)) eqn:Hc; simpl.
  2:{ exists p. rewrite Hi. split_and!; [done|apply l3_le_refl|by left|].
      intros q' [= <-] Hq. apply l3_candidate_bools in Hq. congruence. }
  apply l3_candidate_bools in Hc.
  destruct (Z.gtb_spec (priority q) (priority p)) as [Hgt|Hle].
  { exists q. rewrite Hm. split_and!; [done| |by right|].
    - unfold l3_le. lia.
    - intros q' [= <-] _. apply l3_le_refl. }
  destruct (Z.eqb_spec (priority q) (priority p)) as [Heq|Hne].
  - destruct (Z.ltb_spec (pid q) (pid p)) as [Hlt|Hge].
    + exists q. rewrite Hm. split_and!; [done| |by right|].
      * unfold l3_le. lia.
      * intros q' [= <-] _. apply l3_le_refl.
    + exists p. rewrite Hi. split_and!; [done|apply l3_le_refl|by left|].
      intros q' [= <-] _. unfold l3_le. lia.
  - exists p. rewrite Hi. split_and!; [done|apply l3_le_refl|by left|].
    intros q' [= <-] _. unfold l3_le. lia.
Qed.

Lemma l3_fold_spec t ms : ∀ i p,
  t !! i = Some p →
  ∃ b, t !! foldl (l3_step t) i ms = Some b
       ∧ l3_le p b
       ∧ (foldl (l3_step t) i ms = i ∨ l3_candidate b)
       ∧ ∀ m q, m ∈ ms → t !! m = Some q → l3_candidate q → l3_le q b.
Proof.
  induction ms as [|m0 ms IH]; intros i p Hi.
  - exists p. split_and!; [done|apply l3_le_refl|by left|].
    intros m q Hin. by apply elem_of_nil in Hin.
  - destruct (l3_step_spec t i p m0 Hi) as (b1 & Hb1 & Hle1 & Hor1 & Hm0).
    destruct (IH _ _ Hb1) as (b & Hb & Hle & Hor & Hms).
    exists b. simpl. split_and!.
    + exact Hb.
    + by eapply l3_le_trans.
    + destruct Hor as [Hr|Hc]; [|by right].
      destruct Hor1 as [Hr1|Hc1].
      * left. by rewrite Hr.
      * right. rewrite Hr, Hb1 in Hb. by simplify_eq.
    + intros m q Hin Hq Hc. apply elem_of_cons in Hin as [->|Hin].
      * eapply l3_le_trans; [by apply Hm0|done].
      * by eapply Hms.
Qed.

Lemma l3_select_spec t i p :
  t !! i = Some p →
  ∃ b, t !! l3_select t i = Some b
       ∧ l3_le p b
       ∧ (l3_select t i = i ∨ l3_candidate b)
       ∧ ∀ m q, t !! m = Some q → l3_candidate q → l3_le q b.
Proof.
  intros Hi. unfold l3_select.
  destruct (l3_fold_spec t (seq 0 (length t)) i p Hi) as (b & Hb & Hle & Hor & Hms).
  exists b. split_and!; [done..|].
  intros m q Hm Hc. eapply Hms; [|done..].
  apply elem_of_seq. apply lookup_lt_Some in Hm. lia.
Qed.

(** What the last branch does when it is entered as meant, with no
    RUNNABLE, non-monopolized process at levels 0 to 2: the process it
    dispatches is RUNNABLE at level 3; every RUNNABLE level-3 process has a
    smaller priority, or the same priority and a pid that is not smaller;
    that process is marked RUNNING and becomes the CPU's process, and
    [numProc[3]] loses one. *)
Lemma last_branch_selects_best (swtch : kstate → kstate)
    (k : kstate) (i : nat) (p : proc) :
  ptable_proc k !! i = Some p →
  state p = RUNNABLE →
  monopolize_flag p ≠ 1 →
  Forall level_ok (ptable_proc k) →
  (∀ q, q ∈ ptable_proc k → state q = RUNNABLE → monopolize_flag q ≠ 1 →
        ¬ 0 <= level q <= 2) →
  length (ptable_numProc k) = 6%nat →
  scheduler_branch p (ptable_numProc k) = BrLast
  ∧ ∃ j b,
      j = l3_select (ptable_proc k) i
      ∧ scheduler_body swtch i k
        = Ok (j, set_cpu_proc None (swtch (dispatch 3 j k)))
      ∧ ptable_proc k !! j = Some b
      ∧ state b = RUNNABLE ∧ level b = 3
      ∧ (∀ m q, ptable_proc k !! m = Some q →
                state q = RUNNABLE → level q = 3 →
                priority q < priority b
                ∨ (priority q = priority b ∧ pid b <= pid q))
      ∧ cpu_proc (dispatch 3 j k) = Some j
      ∧ ptable_proc (dispatch 3 j k)
        = <[j := set_state RUNNING b]> (ptable_proc k)
      ∧ np_get 3 (ptable_numProc (dispatch 3 j k))
        = wrap (np_get 3 (ptable_numProc k) - 1)
      ∧ ∀ l, l ≠ 3%nat →
             np_get l (ptable_numProc (dispatch 3 j k))
             = np_get l (ptable_numProc k).
Proof.
  intros Hi Hst Hm Hlv Hnone Hlen.
  assert (Hl3 : level p = 3).
  { assert (Hin : p ∈ ptable_proc k) by (by eapply list_elem_of_lookup_2).
    pose proof (Hnone p Hin Hst Hm).
    rewrite Forall_forall in Hlv. specialize (Hlv p Hin).
    unfold level_ok in Hlv. lia. }
  assert (Hbr : scheduler_branch p (ptable_numProc k) = BrLast).
  { unfold scheduler_branch. apply Z.eqb_neq in Hm. rewrite Hm, Hl3. simpl.
    by rewrite !andb_false_r. }
  split; [exact Hbr|].
  destruct (l3_select_spec (ptable_proc k) i p Hi) as (b & Hb & Hle & Hor & Hbest).
  exists (l3_select (ptable_proc k) i), b.
  assert (Hcand : l3_candidate b).
  { destruct Hor as [Hr|Hc]; [|done]. rewrite Hr, Hi in Hb. by simplify_eq. }
  split_and!.
  - done.
  - unfold scheduler_body, deref. rewrite Hi. simpl.
    unfold is_runnable. rewrite bool_decide_true by done. simpl.
    by rewrite Hbr.
  - exact Hb.
  - apply Hcand.
  - apply Hcand.
  - intros m q Hq Hqs Hql. by apply (Hbest m q).
  - done.
  - simpl. by apply alter_as_insert.
  - simpl. apply np_get_decr_eq. lia.
  - intros l Hl. simpl. by apply np_get_decr_ne.
Qed.

(** In [k_level3] the scan starts at slot 0 (priority 3); pids 4 and 2 have
    priority 5, and pid 2, in slot 3, is dispatched. *)
Lemma last_branch_selects_best_k_level3 :
  scheduler_body id 0 k_level3
  = Ok (3%nat,
        mkKstate
          [ mkProc RUNNABLE 3 None ChanNull 0 3 0 3 0;
            mkProc RUNNABLE 4 None ChanNull 0 3 0 5 0;
            mkProc SLEEPING 1 None (ChanProc 2) 0 0 0 0 0;
            mkProc RUNNING 2 None ChanNull 0 3 0 5 0 ]
          [0; 0; 0; 2; 0; 0] None 7 5).
Proof.
  destruct (last_branch_selects_best id k_level3 0%nat
              (mkProc RUNNABLE 3 None ChanNull 0 3 0 3 0))
    as (_ & j & b & Hj & Hbody & _).
  - reflexivity.
  - reflexivity.
  - done.
  - repeat constructor; by vm_compute.
  - intros q Hq Hst _. simpl in Hq.
    repeat (apply elem_of_cons in Hq as [->|Hq]); simpl in *;
      try discriminate; try lia.
    by apply elem_of_nil in Hq.
  - reflexivity.
  - rewrite Hbody, Hj. reflexivity.
Qed.

(** [claim C5] The last branch of the scan is meant for the case that
    levels 0 to 2 hold no eligible process, as the comment above it says,
    and to dispatch the best RUNNABLE process of level 3.  It is a bare
    [else].  In [k_mixed] the counts are right; the scan at slot 1,
    eligible at level 1, enters the last branch because [numProc[0]] is
    not 0 (slot 2 is eligible at level 0); the inner loop keeps slot 1,
    since the level-3 process of slot 3 has the same priority and a larger
    pid; so a level-1 process is dispatched, [numProc[3]] loses the one of
    the level-3 process that is still RUNNABLE, and [numProc[1]] keeps
    counting the process that now runs. *)
Theorem C5_last_branch_dispatches_level_1 (swtch : kstate → kstate) :
  numProc_consistent k_mixed
  ∧ ptable_proc k_mixed !! 1%nat
    = Some (mkProc RUNNABLE 3 (Some 0%nat) ChanNull 0 1 0 0 0)
  ∧ ptable_proc k_mixed !! 2%nat
    = Some (mkProc RUNNABLE 5 (Some 0%nat) ChanNull 0 0 0 0 0)
  ∧ eligible 0 (mkProc RUNNABLE 5 (Some 0%nat) ChanNull 0 0 0 0 0)
  ∧ ptable_proc k_mixed !! 3%nat
    = Some (mkProc RUNNABLE 4 (Some 0%nat) ChanNull 0 3 0 0 0)
  ∧ scheduler_branch (mkProc RUNNABLE 3 (Some 0%nat) ChanNull 0 1 0 0 0)
                     (ptable_numProc k_mixed) = BrLast
  ∧ l3_select (ptable_proc k_mixed) 1 = 1%nat
  ∧ scheduler_body swtch 1 k_mixed
    = Ok (1%nat, set_cpu_proc None (swtch (dispatch 3 1 k_mixed)))
  ∧ dispatch 3 1 k_mixed
    = mkKstate [ mkProc SLEEPING 1 None (ChanProc 0) 0 0 0 0 0;
                 mkProc RUNNING 3 (Some 0%nat) ChanNull 0 1 0 0 0;
                 mkProc RUNNABLE 5 (Some 0%nat) ChanNull 0 0 0 0 0;
                 mkProc RUNNABLE 4 (Some 0%nat) ChanNull 0 3 0 0 0 ]
               [1; 1; 0; 0; 0; 0] (Some 1%nat) 7 6
  ∧ ¬ numProc_consistent (dispatch 3 1 k_mixed).
Proof.
  split_and!.
  - apply (bool_decide_unpack _). by vm_compute.
  - reflexivity.
  - reflexivity.
  - by split_and!.
  - reflexivity.
  - reflexivity.
  - reflexivity.
  - reflexivity.
  - reflexivity.
  - apply (bool_decide_eq_false_1 _). by vm_compute.
Qed.

End ProcProperties.

Section KallocProperties.

Import Kalloc.

Context {L : layout}.

(** ** The page allocator *)

Lemma load32_store32 m a w :
  0 <= w < 2 ^ 32 → load32 (store32 m a w) a = w.
Proof.
  intros Hw. unfold load32, store32, store8.
  repeat match goal with
         | |- context [?x =? ?y] =>
             destruct (Z.eqb_spec x y); [try lia|try lia]
         end.
  change (2 ^ 8) with 256. change (2 ^ 16) with 65536.
  change (2 ^ 24) with 16777216. change (2 ^ 32) with 4294967296 in Hw.
  Z.div_mod_to_equations. lia.
Qed.

Lemma store32_other m a w x :
  ¬ a <= x < a + 4 → store32 m a w x = m x.
Proof.
  intros Hx. unfold store32, store8.
  repeat match goal with
         | |- context [?x =? ?y] => destruct (Z.eqb_spec x y); try lia
         end.
Qed.

Lemma memset_inside m a c n x :
  a <= x < a + n → memset m a c n x = c mod 256.
Proof.
  intros Hx. unfold memset.
  destruct (Z.leb_spec a x); [|lia]. destruct (Z.ltb_spec x (a + n)); [done|lia].
Qed.

Lemma rc_set_eq rc i v : rc_set rc i v i = v.
Proof. unfold rc_set. by rewrite Z.eqb_refl. Qed.

Lemma rc_set_ne rc i v j : j ≠ i → rc_set rc i v j = rc j.
Proof. intros H. unfold rc_set. by apply Z.eqb_neq in H as ->. Qed.

Lemma page_count_le : layout_ok → PAGE_COUNT <= 2 ^ 31.
Proof.
  intros (Hpg & Hphys & _). unfold PAGE_COUNT.
  apply Z.div_le_upper_bound; nia.
Qed.

Lemma rc_index_ok pa :
  layout_ok → 0 <= pa < PHYSTOP → rc_index (pa / PGSIZE) = Ok (pa / PGSIZE).
Proof.
  intros (Hpg & Hphys & Hmod) Hpa. unfold rc_index, PAGE_COUNT.
  assert (0 <= pa / PGSIZE) by (apply Z.div_pos; lia).
  assert (pa / PGSIZE < PHYSTOP / PGSIZE).
  { apply Z.div_lt_upper_bound; [lia|].
    rewrite <- Z_div_exact_full_2 by lia. lia. }
  destruct (Z.leb_spec 0 (pa / PGSIZE)); [|lia].
  destruct (Z.ltb_spec (pa / PGSIZE) (PHYSTOP / PGSIZE)); [done|lia].
Qed.

Lemma rc_index_inv i j : rc_index i = Ok j → j = i ∧ 0 <= i < PAGE_COUNT.
Proof.
  unfold rc_index. intros H.
  destruct (Z.leb_spec 0 i); simpl in H; [|done].
  destruct (Z.ltb_spec i PAGE_COUNT); simplify_eq. lia.
Qed.

Lemma page_index_int pa :
  layout_ok → 0 <= pa < PHYSTOP →
  wrap (PAGE_INDEX (wrapu pa)) = pa / PGSIZE.
Proof.
  intros Hok Hpa. pose proof Hok as (Hpg & Hphys & _).
  rewrite wrapu_small by lia. unfold PAGE_INDEX.
  destruct (rc_index_inv _ _ (rc_index_ok pa Hok Hpa)) as [_ Hi].
  pose proof (page_count_le Hok).
  apply wrap_small. unfold INT_MIN, INT_MAX. lia.
Qed.

Lemma kfree_guard_ok v :
  frame_ok v →
  negb (wrapu v mod PGSIZE =? 0) || (v <? kend) || (V2P v >=? PHYSTOP) = false.
Proof.
  intros (Hal & Hend & Hv).
  rewrite Hal, Z.eqb_refl. simpl.
  destruct (Z.ltb_spec v kend); [lia|]. simpl.
  rewrite Z.geb_leb. apply Z.leb_gt. lia.
Qed.

(** [kfree] of a frame that other owners still hold. *)
Lemma kfree_shared v s :
  layout_ok → frame_ok v →
  1 < ref_cnt s (frame_index v) <= INT_MAX →
  kfree v s
  = Ok (set_ref_cnt (rc_set (ref_cnt s) (frame_index v)
                            (ref_cnt s (frame_index v) - 1)) s).
Proof.
  intros Hok Hv Hrc. unfold kfree. rewrite kfree_guard_ok by done.
  destruct Hv as (_ & _ & Hv). fold (frame_index v).
  unfold frame_index at 1. rewrite rc_index_ok by done. simpl.
  fold (frame_index v).
  destruct (Z.gtb_spec (ref_cnt s (frame_index v)) 0); [|lia].
  rewrite rc_set_eq.
  rewrite wrap_small by (unfold INT_MIN, INT_MAX in *; lia).
  destruct (Z.eqb_spec (ref_cnt s (frame_index v) - 1) 0); [lia|done].
Qed.

(** [kfree] by the last owner. *)
Lemma kfree_last v s :
  layout_ok → frame_ok v →
  ref_cnt s (frame_index v) = 1 →
  kfree v s
  = Ok (mkKmem (use_lock s) v (rc_set (ref_cnt s) (frame_index v) 0)
               (wrap (num_freePage s + 1))
               (store32 (memset (mem s) v 1 PGSIZE) v (freelist s))).
Proof.
  intros Hok Hv Hrc. unfold kfree. rewrite kfree_guard_ok by done.
  destruct Hv as (_ & _ & Hv). fold (frame_index v).
  unfold frame_index at 1. rewrite rc_index_ok by done. simpl.
  fold (frame_index v). rewrite Hrc. simpl.
  rewrite rc_set_eq. done.
Qed.

(** [kfree] of a frame nobody holds. *)
Lemma kfree_unowned v s :
  layout_ok → frame_ok v →
  ref_cnt s (frame_index v) = 0 →
  kfree v s
  = Ok (mkKmem (use_lock s) v (ref_cnt s) (wrap (num_freePage s + 1))
               (store32 (memset (mem s) v 1 PGSIZE) v (freelist s))).
Proof.
  intros Hok Hv Hrc. unfold kfree. rewrite kfree_guard_ok by done.
  destruct Hv as (_ & _ & Hv). fold (frame_index v).
  unfold frame_index at 1. rewrite rc_index_ok by done. simpl.
  fold (frame_index v). rewrite Hrc. simpl. rewrite Hrc. done.
Qed.

Lemma incr_refc_frame v s :
  layout_ok → frame_ok v →
  incr_refc (V2P v) s
  = Ok (set_ref_cnt (rc_set (ref_cnt s) (frame_index v)
                            (wrap (ref_cnt s (frame_index v) + 1))) s).
Proof.
  intros Hok (_ & _ & Hv). unfold incr_refc.
  rewrite page_index_int by done. rewrite rc_index_ok by done. done.
Qed.

Lemma recycled_intro v s rc :
  0 <= freelist s < 2 ^ 32 →
  recycled v s (mkKmem (use_lock s) v rc (wrap (num_freePage s + 1))
                       (store32 (memset (mem s) v 1 PGSIZE) v (freelist s))).
Proof.
  intros Hfl. unfold recycled. simpl. split_and!; [done| |..|done].
  - by apply load32_store32.
  - intros a Ha. rewrite store32_other by lia.
    rewrite memset_inside by lia. done.
Qed.

Lemma same_pool_refl s : same_pool s s.
Proof. by unfold same_pool. Qed.

Lemma same_pool_set_ref_cnt rc s : same_pool s (set_ref_cnt rc s).
Proof. by unfold same_pool. Qed.

Lemma same_pool_trans s1 s2 s3 :
  same_pool s1 s2 → same_pool s2 s3 → same_pool s1 s3.
Proof. unfold same_pool. intros (-> & -> & ->) (-> & -> & ->). done. Qed.

Lemma recycled_same_pool v s1 s2 s3 :
  same_pool s1 s2 → recycled v s2 s3 → recycled v s1 s3.
Proof. unfold same_pool, recycled. intros (-> & -> & _). done. Qed.

Lemma kalloc_inv s v s0 :
  kalloc s = Ok (v, s0) → v ≠ 0 →
  v = freelist s
  ∧ 0 <= frame_index v < PAGE_COUNT
  ∧ s0 = mkKmem (use_lock s) (load32 (mem s) v)
                (rc_set (ref_cnt s) (frame_index v) 1)
                (wrap (num_freePage s - 1)) (mem s).
Proof.
  unfold kalloc. intros H Hv.
  destruct (Z.eqb_spec (freelist s) 0) as [H0|H0]; simpl in H.
  { simplify_eq. }
  apply is_Ok_bind in H as (i & Hi & H).
  apply rc_index_inv in Hi as [-> Hi]. by simplify_eq.
Qed.

Lemma incr_refc_step v s :
  layout_ok → frame_ok v →
  0 <= ref_cnt s (frame_index v) < INT_MAX →
  ∃ s', incr_refc (V2P v) s = Ok s'
        ∧ ref_cnt s' (frame_index v) = ref_cnt s (frame_index v) + 1
        ∧ same_pool s s'.
Proof.
  intros Hok Hv Hrc. eexists. split; [by apply incr_refc_frame|].
  simpl. rewrite rc_set_eq.
  split; [|apply same_pool_set_ref_cnt].
  apply wrap_small. unfold INT_MIN, INT_MAX in *. lia.
Qed.

Lemma kfree_shared_step v s :
  layout_ok → frame_ok v →
  1 < ref_cnt s (frame_index v) <= INT_MAX →
  ∃ s', kfree v s = Ok s'
        ∧ ref_cnt s' (frame_index v) = ref_cnt s (frame_index v) - 1
        ∧ same_pool s s'.
Proof.
  intros Hok Hv Hrc. eexists. split; [by apply kfree_shared|].
  simpl. rewrite rc_set_eq. split; [done|apply same_pool_set_ref_cnt].
Qed.

Lemma kfree_last_step v s :
  layout_ok → frame_ok v →
  ref_cnt s (frame_index v) = 1 →
  0 <= freelist s < 2 ^ 32 →
  ∃ s', kfree v s = Ok s'
        ∧ ref_cnt s' (frame_index v) = 0
        ∧ recycled v s s'.
Proof.
  intros Hok Hv Hrc Hfl. eexists. split; [by apply kfree_last|].
  split; [simpl; apply rc_set_eq|by apply recycled_intro].
Qed.

(** [claim C7] A frame [v] fresh from [kalloc] has count 1; three
    [incr_refc] bring it to 4; of four [kfree] the first three only lower
    the count (3, 2, 1) and leave the free list, the free-page counter and
    the memory alone; the fourth brings the count to 0, fills the frame
    with the byte 1, links it in front of the free list and adds one to the
    counter. *)
Theorem C7_recycled_on_fourth_release (s s0 : kmem) (v : Z) :
  layout_ok →
  kalloc s = Ok (v, s0) →
  v ≠ 0 →
  frame_ok v →
  0 <= freelist s0 < 2 ^ 32 →
  INT_MIN <= num_freePage s0 < INT_MAX →
  ref_cnt s0 (frame_index v) = 1
  ∧ ∃ s1 s2 s3 f1 f2 f3 f4,
      incr_refc (V2P v) s0 = Ok s1
      ∧ incr_refc (V2P v) s1 = Ok s2
      ∧ incr_refc (V2P v) s2 = Ok s3
      ∧ ref_cnt s3 (frame_index v) = 4
      ∧ kfree v s3 = Ok f1
      ∧ ref_cnt f1 (frame_index v) = 3 ∧ same_pool s0 f1
      ∧ kfree v f1 = Ok f2
      ∧ ref_cnt f2 (frame_index v) = 2 ∧ same_pool s0 f2
      ∧ kfree v f2 = Ok f3
      ∧ ref_cnt f3 (frame_index v) = 1 ∧ same_pool s0 f3
      ∧ kfree v f3 = Ok f4
      ∧ ref_cnt f4 (frame_index v) = 0
      ∧ recycled v s0 f4
      ∧ num_freePage f4 = num_freePage s0 + 1.
Proof.
  intros Hok Hk Hv Hfr Hfl Hnum.
  destruct (kalloc_inv _ _ _ Hk Hv) as (_ & _ & Hs0).
  assert (H0 : ref_cnt s0 (frame_index v) = 1).
  { rewrite Hs0. simpl. apply rc_set_eq. }
  split; [exact H0|].
  unfold INT_MAX in *.
  destruct (incr_refc_step v s0 Hok Hfr) as (s1 & E1 & R1 & P1);
    [unfold INT_MAX; lia|].
  destruct (incr_refc_step v s1 Hok Hfr) as (s2 & E2 & R2 & P2);
    [unfold INT_MAX; lia|].
  destruct (incr_refc_step v s2 Hok Hfr) as (s3 & E3 & R3 & P3);
    [unfold INT_MAX; lia|].
  destruct (kfree_shared_step v s3 Hok Hfr) as (f1 & F1 & Q1 & T1);
    [unfold INT_MAX; lia|].
  destruct (kfree_shared_step v f1 Hok Hfr) as (f2 & F2 & Q2 & T2);
    [unfold INT_MAX; lia|].
  destruct (kfree_shared_step v f2 Hok Hfr) as (f3 & F3 & Q3 & T3);
    [unfold INT_MAX; lia|].
  assert (S1 : same_pool s0 f1).
  { eapply same_pool_trans; [exact P1|].
    eapply same_pool_trans; [exact P2|].
    eapply same_pool_trans; [exact P3|exact T1]. }
  assert (S2 : same_pool s0 f2) by (eapply same_pool_trans; [exact S1|exact T2]).
  assert (S3 : same_pool s0 f3) by (eapply same_pool_trans; [exact S2|exact T3]).
  destruct (kfree_last_step v f3 Hok Hfr) as (f4 & F4 & Q4 & T4); [lia|..].
  { destruct S3 as (-> & _). done. }
  pose proof (recycled_same_pool _ _ _ _ S3 T4) as T.
  exists s1, s2, s3, f1, f2, f3, f4.
  split_and!; try done; try lia.
  destruct T as (_ & _ & _ & ->).
  apply wrap_small. unfold INT_MIN, INT_MAX in *. lia.
Qed.

(** [claim C8, amended] [kfree] of an aligned, in-range frame whose count
    is 0 does not stop the system: it returns, leaves every count as it
    was, and recycles the frame (fills it with the byte 1, links it in front
    of the free list, adds one to the free-page counter).  This is the path
    [freerange] uses to seed the free list. *)
Theorem C8_release_of_unowned_frame_recycles (s : kmem) (v : Z) :
  layout_ok →
  frame_ok v →
  ref_cnt s (frame_index v) = 0 →
  0 <= freelist s < 2 ^ 32 →
  ∃ s', kfree v s = Ok s' ∧ ref_cnt s' = ref_cnt s ∧ recycled v s s'.
Proof.
  intros Hok Hv Hrc Hfl. eexists. split; [by apply kfree_unowned|].
  split; [done|by apply recycled_intro].
Qed.

(** [kfree] links its frame in front of the free list exactly when the
    count it leaves is 0. *)
Lemma kfree_inv v s s' :
  kfree v s = Ok s' →
  (ref_cnt s' (frame_index v) = 0 ∧ freelist s' = v
   ∧ num_freePage s' = wrap (num_freePage s + 1))
  ∨ (ref_cnt s' (frame_index v) ≠ 0 ∧ same_pool s s').
Proof.
  unfold kfree. intros H.
  destruct (_ || _); [done|].
  apply is_Ok_bind in H as (i & Hi & H).
  apply rc_index_inv in Hi as [-> _]. fold (frame_index v) in H.
  destruct (Z.eqb_spec
              ((if ref_cnt s (frame_index v) >? 0
                then rc_set (ref_cnt s) (frame_index v)
                            (wrap (ref_cnt s (frame_index v) - 1))
                else ref_cnt s) (frame_index v)) 0) as [H0|H0];
    simplify_eq; simpl.
  - by left.
  - right. split; [done|apply same_pool_set_ref_cnt].
Qed.

(** Without [decr_refc] no count goes below 0, whatever frames the calls
    name. *)
Lemma run_call_bounds c s s' B :
  guarded c →
  (∀ i, 0 <= ref_cnt s i <= B) → B < INT_MAX →
  run_call c s = Ok s' →
  ∀ i, 0 <= ref_cnt s' i <= B + 1.
Proof.
  intros Hg Hb HB Hrun i. pose proof (Hb i) as Hbi.
  assert (HB0 : 0 <= B) by (specialize (Hb 0); lia).
  destruct c as [|v|pa|pa]; simpl in Hrun; [| | |done].
  - apply is_Ok_bind in Hrun as ([r s1] & Hk & Hrun). simplify_eq/=.
    unfold kalloc in Hk. destruct (negb _); [|simplify_eq; lia].
    apply is_Ok_bind in Hk as (j & _ & Hk). simplify_eq/=.
    unfold rc_set. destruct (i =? j); lia.
  - unfold kfree in Hrun. destruct (_ || _); [done|].
    apply is_Ok_bind in Hrun as (j & _ & Hrun).
    assert (Hrc : 0 <= (if ref_cnt s j >? 0
                        then rc_set (ref_cnt s) j (wrap (ref_cnt s j - 1))
                        else ref_cnt s) i <= B + 1).
    { destruct (Z.gtb_spec (ref_cnt s j) 0); [|lia].
      unfold rc_set. destruct (Z.eqb_spec i j) as [->|_]; [|lia].
      specialize (Hb j).
      rewrite wrap_small by (unfold INT_MIN, INT_MAX in *; lia). lia. }
    destruct (_ =? 0); by simplify_eq/=.
  - unfold incr_refc in Hrun.
    apply is_Ok_bind in Hrun as (j & _ & Hrun). simplify_eq/=.
    unfold rc_set. destruct (Z.eqb_spec i j) as [->|_]; [|lia].
    rewrite wrap_small by (unfold INT_MIN, INT_MAX in *; lia). lia.
Qed.

Lemma run_calls_bounds cs : ∀ s s',
  Forall guarded cs →
  (∀ i, 0 <= ref_cnt s i <= INT_MAX - Z.of_nat (length cs)) →
  run_calls cs s = Ok s' →
  ∀ i, 0 <= ref_cnt s' i <= INT_MAX.
Proof.
  induction cs as [|c cs IH]; intros s s' Hg Hb Hrun.
  - simpl in *. simplify_eq. intros i. specialize (Hb i). lia.
  - apply Forall_cons in Hg as [Hc Hg]. simpl in Hrun.
    apply is_Ok_bind in Hrun as (s1 & H1 & Hrun).
    apply (IH s1 s' Hg); [|done].
    intros i.
    pose proof (run_call_bounds c s s1 _ Hc Hb) as Hstep.
    simpl length in *. specialize (Hstep ltac:(lia) H1 i). lia.
Qed.

(** *** The free list under disciplined use *)

Lemma memset_outside m a c n x :
  ¬ a <= x < a + n → memset m a c n x = m x.
Proof.
  intros Hx. unfold memset.
  destruct (Z.leb_spec a x); [|done].
  destruct (Z.ltb_spec x (a + n)); [lia|done].
Qed.

Lemma load32_recycle_other m v w u :
  4 <= PGSIZE →
  u + 4 <= v ∨ v + PGSIZE <= u →
  load32 (store32 (memset m v 1 PGSIZE) v w) u = load32 m u.
Proof.
  intros Hpg Hu. unfold load32.
  rewrite !store32_other by lia. rewrite !memset_outside by lia. done.
Qed.

Lemma aligned_apart u v :
  0 < PGSIZE → is_ptr u → is_ptr v →
  wrapu u mod PGSIZE = 0 → wrapu v mod PGSIZE = 0 → u ≠ v →
  u + PGSIZE <= v ∨ v + PGSIZE <= u.
Proof.
  unfold is_ptr. intros Hpg Hu Hv Hau Hav Hne.
  rewrite wrapu_small in Hau, Hav by lia.
  apply Z_div_exact_full_2 in Hau, Hav; try lia.
  assert (u `div` PGSIZE ≠ v `div` PGSIZE) by congruence.
  nia.
Qed.

Lemma is_chain_frame m m' l : ∀ r,
  (∀ u, u ∈ l → load32 m' u = load32 m u) →
  is_chain m r l → is_chain m' r l.
Proof.
  induction l as [|v l IH]; intros r Hm Hc; [done|].
  destruct Hc as (-> & Hv & Hc). simpl. split_and!; [done|done|].
  rewrite Hm by apply list_elem_of_here.
  apply IH; [|done]. intros u Hu. apply Hm. by apply list_elem_of_further.
Qed.

Lemma is_chain_walk m l : ∀ r fuel,
  is_chain m r l → freelist_walk fuel m r = take fuel l.
Proof.
  induction l as [|v l IH]; intros r fuel Hc.
  - simpl in Hc. subst. destruct fuel; done.
  - destruct Hc as (-> & Hv & Hc). destruct fuel as [|fuel]; [done|].
    simpl. apply Z.eqb_neq in Hv as ->. f_equal. by apply IH.
Qed.

Lemma on_freelist_chain s l v :
  is_chain (mem s) (freelist s) l → on_freelist s v ↔ v ∈ l.
Proof.
  intros Hc. unfold on_freelist. split.
  - intros [fuel Hin]. rewrite (is_chain_walk _ _ _ _ Hc) in Hin.
    apply elem_of_take in Hin as (i & Hi & _).
    by eapply list_elem_of_lookup_2.
  - intros Hin. exists (length l).
    by rewrite (is_chain_walk _ _ _ _ Hc), firstn_all.
Qed.

Lemma is_chain_head m r l :
  is_chain m r l → (∀ v, v ∈ l → is_ptr v) → 0 <= r < 2 ^ 32.
Proof.
  destruct l as [|v l]; simpl.
  - intros -> _. lia.
  - intros (-> & _ & _) Hp.
    specialize (Hp v (list_elem_of_here _ _)). unfold is_ptr in Hp. lia.
Qed.

Section Discipline.

Variable managed : Z → Prop.

Hypothesis Hok : layout_ok.
Hypothesis Hpg : 4 <= PGSIZE.
Hypothesis Hinj :
  ∀ u v, good u → good v → frame_index u = frame_index v → u = v.
Hypothesis Hman : ∀ v, managed v → good v.

(** A count that stays positive does not touch the free list. *)
Lemma alloc_wf_positive s i c :
  alloc_wf managed s →
  0 < ref_cnt s i → 0 < c <= INT_MAX →
  alloc_wf managed (set_ref_cnt (rc_set (ref_cnt s) i c) s).
Proof.
  intros (Hrc & l & Hc & Hnd & Hl & Hm) Hi Hcv.
  split.
  { intros j. simpl. unfold rc_set. destruct (j =? i); [lia|apply Hrc]. }
  exists l. simpl. split_and!; [done|done|..].
  - intros v Hv. destruct (Hl v Hv) as [Hg H0]. split; [done|].
    rewrite rc_set_ne; [done|]. intros Heq. rewrite Heq in H0. lia.
  - intros v Hv H0. apply Hm; [done|].
    destruct (Z.eq_dec (frame_index v) i) as [Heq|Hne].
    + rewrite Heq, rc_set_eq in H0. lia.
    + by rewrite rc_set_ne in H0.
Qed.

Lemma kalloc_wf s :
  alloc_wf managed s →
  ∃ r s', kalloc s = Ok (r, s') ∧ alloc_wf managed s'.
Proof.
  intros (Hrc & l & Hc & Hnd & Hl & Hm).
  destruct l as [|h l].
  - simpl in Hc. unfold kalloc. rewrite Hc. simpl.
    exists 0, s. split; [done|].
    split; [done|]. exists []. by rewrite Hc.
  - destruct Hc as (Hh & Hh0 & Hc).
    destruct (Hl h (list_elem_of_here _ _)) as [[Hfr Hp] Hrc0].
    apply NoDup_cons in Hnd as [Hnotin Hnd].
    unfold kalloc. rewrite Hh. apply Z.eqb_neq in Hh0 as ->. simpl.
    destruct Hfr as (Hal & Hend & Hv).
    rewrite rc_index_ok by done. simpl. fold (frame_index h).
    eexists _, _. split; [reflexivity|].
    split.
    { intros j. simpl. unfold rc_set.
      destruct (j =? frame_index h); [unfold INT_MAX; lia|apply Hrc]. }
    exists l. simpl. split_and!; [done|done|..].
    + intros v Hin.
      destruct (Hl v (list_elem_of_further _ _ _ Hin)) as [Hg H0].
      split; [done|]. rewrite rc_set_ne; [done|].
      intros Heq. apply Hnotin.
      rewrite <- (Hinj v h Hg (conj (conj Hal (conj Hend Hv)) Hp) Heq). done.
    + intros v Hmv H0.
      destruct (Z.eq_dec (frame_index v) (frame_index h)) as [Heq|Hne].
      * rewrite Heq, rc_set_eq in H0. lia.
      * rewrite rc_set_ne in H0 by done.
        specialize (Hm v Hmv H0). apply elem_of_cons in Hm as [->|Hm]; done.
Qed.

Lemma kfree_wf v s :
  alloc_wf managed s →
  good v → 0 < ref_cnt s (frame_index v) →
  ∃ s', kfree v s = Ok s' ∧ alloc_wf managed s'.
Proof.
  intros Hwf Hg Hpos. pose proof Hwf as (Hrc & l & Hc & Hnd & Hl & Hm).
  pose proof Hg as [Hfr Hp].
  destruct (Z.eq_dec (ref_cnt s (frame_index v)) 1) as [H1|Hn1].
  2:{ eexists. split.
      - apply kfree_shared; [done|done|]. specialize (Hrc (frame_index v)). lia.
      - apply alloc_wf_positive; [done|done|].
        specialize (Hrc (frame_index v)). lia. }
  eexists. split; [by apply kfree_last|].
  assert (Hnotin : v ∉ l).
  { intros Hin. destruct (Hl v Hin) as [_ H0]. lia. }
  assert (Hhead : 0 <= freelist s < 2 ^ 32).
  { eapply is_chain_head; [exact Hc|]. intros u Hu. by destruct (Hl u Hu) as [[_ ?] _]. }
  split.
  { intros j. simpl. unfold rc_set.
    destruct (j =? frame_index v); [unfold INT_MAX; lia|apply Hrc]. }
  exists (v :: l). simpl. split_and!.
  - done.
  - unfold is_ptr in Hp. lia.
  - rewrite load32_store32 by done.
    eapply is_chain_frame; [|exact Hc].
    intros u Hu. destruct (Hl u Hu) as [[Hfu Hpu] _].
    apply load32_recycle_other; [done|].
    destruct Hok as (Hpg0 & _).
    destruct (aligned_apart u v Hpg0 Hpu Hp) as [H|H];
      [apply Hfu|apply Hfr|congruence|lia|lia].
  - by apply NoDup_cons.
  - intros u Hu. apply elem_of_cons in Hu as [->|Hu].
    + split; [done|apply rc_set_eq].
    + destruct (Hl u Hu) as [Hgu H0]. split; [done|].
      rewrite rc_set_ne; [done|]. intros Heq.
      apply Hnotin. by rewrite <- (Hinj u v Hgu Hg Heq).
  - intros u Hmu H0.
    destruct (Z.eq_dec (frame_index u) (frame_index v)) as [Heq|Hne].
    + rewrite (Hinj u v (Hman u Hmu) Hg Heq). apply list_elem_of_here.
    + rewrite rc_set_ne in H0 by done.
      apply list_elem_of_further. by apply Hm.
Qed.

Lemma run_call_wf c s :
  alloc_wf managed s → call_ok c s →
  ∃ s', run_call c s = Ok s' ∧ alloc_wf managed s'.
Proof.
  intros Hwf Hc. destruct c as [|v|pa|pa]; simpl in Hc |- *.
  - destruct (kalloc_wf s Hwf) as (r & s' & -> & Hwf'). by exists s'.
  - destruct Hc as [Hg Hpos]. by apply kfree_wf.
  - destruct Hc as [Hidx Hrc]. unfold incr_refc, rc_index.
    destruct (Z.leb_spec 0 (wrap (PAGE_INDEX (wrapu pa)))); [|lia].
    destruct (Z.ltb_spec (wrap (PAGE_INDEX (wrapu pa))) PAGE_COUNT); [|lia].
    simpl. eexists. split; [reflexivity|].
    apply alloc_wf_positive; [done|lia|].
    rewrite wrap_small by (unfold INT_MIN, INT_MAX in *; lia). lia.
  - destruct Hc as [Hidx Hrc]. unfold decr_refc, rc_index.
    destruct (Z.leb_spec 0 (wrap (PAGE_INDEX (wrapu pa)))); [|lia].
    destruct (Z.ltb_spec (wrap (PAGE_INDEX (wrapu pa))) PAGE_COUNT); [|lia].
    simpl. eexists. split; [reflexivity|].
    destruct Hwf as (Hb & Hrest).
    pose proof (Hb (wrap (PAGE_INDEX (wrapu pa)))) as Hbi.
    apply alloc_wf_positive; [by split|lia|].
    rewrite wrap_small by (unfold INT_MIN, INT_MAX in *; lia). lia.
Qed.

Lemma run_calls_wf cs : ∀ s,
  alloc_wf managed s → calls_ok cs s →
  ∃ s', run_calls cs s = Ok s' ∧ alloc_wf managed s'.
Proof.
  induction cs as [|c cs IH]; intros s Hwf Hcs.
  - by exists s.
  - destruct Hcs as [Hc Hcs].
    destruct (run_call_wf c s Hwf Hc) as (s1 & H1 & Hwf1).
    destruct (IH s1 Hwf1 (Hcs s1 H1)) as (s' & Hrun & Hwf').
    exists s'. simpl. rewrite H1. done.
Qed.

End Discipline.

(** No call takes a count out of the non-negative [int]s, but [decr_refc]
    of a count that is not positive and [incr_refc] of [INT_MAX]. *)
Lemma run_call_nonneg c s s' :
  count_ok c s →
  (∀ i, 0 <= ref_cnt s i <= INT_MAX) →
  run_call c s = Ok s' →
  ∀ i, 0 <= ref_cnt s' i <= INT_MAX.
Proof.
  intros Hc Hb Hrun i. pose proof (Hb i) as Hbi.
  assert (HM : 1 <= INT_MAX) by (by vm_compute).
  destruct c as [|v|pa|pa]; simpl in Hc, Hrun.
  - apply is_Ok_bind in Hrun as ([r s1] & Hk & Hrun). simplify_eq/=.
    unfold kalloc in Hk. destruct (negb _); [|simplify_eq; lia].
    apply is_Ok_bind in Hk as (j & _ & Hk). simplify_eq/=.
    unfold rc_set. destruct (i =? j); lia.
  - unfold kfree in Hrun. destruct (_ || _); [done|].
    apply is_Ok_bind in Hrun as (j & _ & Hrun).
    assert (Hrc : 0 <= (if ref_cnt s j >? 0
                        then rc_set (ref_cnt s) j (wrap (ref_cnt s j - 1))
                        else ref_cnt s) i <= INT_MAX).
    { destruct (Z.gtb_spec (ref_cnt s j) 0); [|lia].
      unfold rc_set. destruct (Z.eqb_spec i j) as [->|_]; [|lia].
      specialize (Hb j).
      rewrite wrap_small by (unfold INT_MIN, INT_MAX in *; lia). lia. }
    destruct (_ =? 0); by simplify_eq/=.
  - unfold incr_refc in Hrun.
    apply is_Ok_bind in Hrun as (j & Hj & Hrun).
    apply rc_index_inv in Hj as [-> _]. apply Ok_inj in Hrun as <-.
    simpl. unfold rc_set.
    destruct (Z.eqb_spec i (wrap (PAGE_INDEX (wrapu pa)))) as [->|_]; [|lia].
    rewrite wrap_small by (unfold INT_MIN, INT_MAX in *; lia). lia.
  - unfold decr_refc in Hrun.
    apply is_Ok_bind in Hrun as (j & Hj & Hrun).
    apply rc_index_inv in Hj as [-> _]. apply Ok_inj in Hrun as <-.
    simpl. unfold rc_set.
    destruct (Z.eqb_spec i (wrap (PAGE_INDEX (wrapu pa)))) as [->|_]; [|lia].
    rewrite wrap_small by (unfold INT_MIN, INT_MAX in *; lia). lia.
Qed.

Lemma run_calls_nonneg cs : ∀ s s',
  counts_ok cs s →
  (∀ i, 0 <= ref_cnt s i <= INT_MAX) →
  run_calls cs s = Ok s' →
  ∀ i, 0 <= ref_cnt s' i <= INT_MAX.
Proof.
  induction cs as [|c cs IH]; intros s s' Hd Hb Hrun.
  - simpl in *. by simplify_eq.
  - destruct Hd as [Hc Hd]. simpl in Hrun.
    apply is_Ok_bind in Hrun as (s1 & H1 & Hrun).
    apply (IH s1 s' (Hd s1 H1)); [|done].
    by apply (run_call_nonneg c s s1).
Qed.

(** [claim C9, amended] Counts: from counts that are non-negative
    [int]s, along any sequence of [kalloc], [kfree], [incr_refc] and
    [decr_refc] that runs to its end, whatever frames it names, every count
    stays a non-negative [int], provided [decr_refc] is only called on a
    frame whose count is positive (and [incr_refc] on one whose count is
    below [INT_MAX]).  Free list: from a well-formed allocator, along any sequence of [kalloc],
    [kfree] of a frame whose count is positive, [incr_refc] of a frame
    whose count is positive and [decr_refc] of a frame whose count is at
    least 2, every call returns, every frame on the free list has count 0,
    and every managed frame with count 0 is on the free list. *)
Theorem C9_counts_nonnegative_and_free_list_exact
    (managed : Z → Prop) (cs : list call) (s : kmem) :
  layout_ok →
  4 <= PGSIZE →
  (∀ u v, good u → good v → frame_index u = frame_index v → u = v) →
  (∀ v, managed v → good v) →
  (∀ s', (∀ i, 0 <= ref_cnt s i <= INT_MAX) →
         counts_ok cs s →
         run_calls cs s = Ok s' →
         ∀ i, 0 <= ref_cnt s' i <= INT_MAX)
  ∧ (alloc_wf managed s →
     calls_ok cs s →
     ∃ s', run_calls cs s = Ok s'
           ∧ (∀ i, 0 <= ref_cnt s' i)
           ∧ (∀ v, on_freelist s' v → ref_cnt s' (frame_index v) = 0)
           ∧ (∀ v, managed v → ref_cnt s' (frame_index v) = 0 →
                   on_freelist s' v)).
Proof.
  intros Hok Hpg Hinj Hman. split.
  { intros s' Hb Hd Hrun. by apply (run_calls_nonneg cs s s'). }
  intros Hwf Hcs.
  destruct (run_calls_wf managed Hok Hpg Hinj Hman cs s Hwf Hcs)
    as (s' & Hrun & Hrc & l & Hc & _ & Hl & Hm).
  exists s'. split_and!.
  - done.
  - intros i. by destruct (Hrc i).
  - intros v Hv. apply (on_freelist_chain s' l v Hc) in Hv. by apply Hl.
  - intros v Hv H0. apply (on_freelist_chain s' l v Hc). by apply Hm.
Qed.

End KallocProperties.

Section KallocExamples.

Import Kalloc.

#[local] Existing Instance xv6_layout.

Lemma xv6_layout_ok : layout_ok.
Proof. unfold layout_ok. simpl. split_and!; [lia|lia|lia|done]. Qed.

Lemma v0_frame_ok : frame_ok v0.
Proof. unfold frame_ok. vm_compute. split_and!; congruence. Qed.

Lemma kinit1_s_boot : kinit1 v0 (v0 + 4096) s_boot = Ok s_init.
Proof. reflexivity. Qed.

Lemma kalloc_s_init : kalloc s_init = Ok (v0, s_fresh).
Proof. reflexivity. Qed.

(** The page that [kinit1] put on the free list and [kalloc] handed out. *)
Lemma C7_recycled_on_fourth_release_witness :
  ref_cnt s_fresh (frame_index v0) = 1
  ∧ ∃ s1 s2 s3 f1 f2 f3 f4,
      incr_refc (V2P v0) s_fresh = Ok s1
      ∧ incr_refc (V2P v0) s1 = Ok s2
      ∧ incr_refc (V2P v0) s2 = Ok s3
      ∧ ref_cnt s3 (frame_index v0) = 4
      ∧ kfree v0 s3 = Ok f1
      ∧ ref_cnt f1 (frame_index v0) = 3 ∧ same_pool s_fresh f1
      ∧ kfree v0 f1 = Ok f2
      ∧ ref_cnt f2 (frame_index v0) = 2 ∧ same_pool s_fresh f2
      ∧ kfree v0 f2 = Ok f3
      ∧ ref_cnt f3 (frame_index v0) = 1 ∧ same_pool s_fresh f3
      ∧ kfree v0 f3 = Ok f4
      ∧ ref_cnt f4 (frame_index v0) = 0
      ∧ recycled v0 s_fresh f4
      ∧ num_freePage f4 = num_freePage s_fresh + 1.
Proof.
  apply (C7_recycled_on_fourth_release s_init s_fresh v0).
  - exact xv6_layout_ok.
  - exact kalloc_s_init.
  - done.
  - exact v0_frame_ok.
  - by vm_compute.
  - by vm_compute.
Defined.

Lemma freelist_walk_null fuel m : freelist_walk fuel m 0 = [].
Proof. by destruct fuel. Qed.

(** [claim C8] The claim has [kfree] stop the system when the count of the
    frame is already 0.  After [kinit1] the page [v0] is on the free list
    with count 0; [kfree v0] returns and links the page in front of the
    list once more, so that the page is its own successor. *)
Lemma C8_release_of_free_frame_returns :
  frame_ok v0
  ∧ ref_cnt s_init (frame_index v0) = 0
  ∧ on_freelist s_init v0
  ∧ (∃ s', kfree v0 s_init = Ok s'
           ∧ freelist s' = v0 ∧ load32 (mem s') v0 = v0
           ∧ num_freePage s' = 2)
  ∧ ¬ ∃ msg, kfree v0 s_init = Panic msg.
Proof.
  assert (Hrc : ref_cnt s_init (frame_index v0) = 0) by (by vm_compute).
  pose proof (kfree_unowned v0 s_init xv6_layout_ok v0_frame_ok Hrc) as Hk.
  split_and!.
  - exact v0_frame_ok.
  - exact Hrc.
  - exists 1%nat.
    assert (freelist_walk 1 (mem s_init) (freelist s_init) = [v0]) as ->
      by (by vm_compute).
    apply list_elem_of_here.
  - eexists. split; [exact Hk|]. split_and!; by vm_compute.
  - intros [msg Hmsg]. rewrite Hk in Hmsg. discriminate.
Qed.

Lemma C8_release_of_unowned_frame_recycles_witness :
  ∃ s', kfree v0 s_init = Ok s' ∧ ref_cnt s' = ref_cnt s_init
        ∧ recycled v0 s_init s'.
Proof.
  apply (C8_release_of_unowned_frame_recycles s_init v0).
  - exact xv6_layout_ok.
  - exact v0_frame_ok.
  - by vm_compute.
  - by vm_compute.
Defined.

(** [claim C9] The claim has every count non-negative and a frame on the
    free list exactly when its count is 0, whatever the calls.  From
    [s_init]: after [kalloc] and one [decr_refc] the page has count 0 and
    the free list is empty, and a second [decr_refc] leaves the count at
    -1; [incr_refc] on the free page gives it count 1 while it is on the
    free list; so does [kfree] of the free page followed by [kalloc]. *)
Lemma C9_counts_can_go_negative :
  (∃ s1 s2,
      run_calls [CallKalloc; CallDecr pa0] s_init = Ok s1
      ∧ ref_cnt s1 (frame_index v0) = 0
      ∧ ¬ on_freelist s1 v0
      ∧ run_calls [CallDecr pa0] s1 = Ok s2
      ∧ ref_cnt s2 (frame_index v0) = -1)
  ∧ (∃ s3,
        run_calls [CallIncr pa0] s_init = Ok s3
        ∧ ref_cnt s3 (frame_index v0) = 1
        ∧ on_freelist s3 v0)
  ∧ (∃ s4,
        run_calls [CallKfree v0; CallKalloc] s_init = Ok s4
        ∧ ref_cnt s4 (frame_index v0) = 1
        ∧ on_freelist s4 v0).
Proof.
  split_and!.
  - eexists. eexists. split; [reflexivity|].
    split; [by vm_compute|]. split.
    + intros [fuel Hin].
      match type of Hin with
      | _ ∈ freelist_walk _ _ ?r =>
          assert (r = 0) as Hnull by (by vm_compute); rewrite Hnull in Hin
      end.
      rewrite freelist_walk_null in Hin. by apply elem_of_nil in Hin.
    + split; [reflexivity|by vm_compute].
  - eexists. split; [reflexivity|]. split; [by vm_compute|].
    exists 1%nat.
    match goal with
    | |- _ ∈ ?l => assert (l = [v0]) as -> by (by vm_compute)
    end.
    apply list_elem_of_here.
  - eexists. split; [reflexivity|]. split; [by vm_compute|].
    exists 1%nat.
    match goal with
    | |- _ ∈ ?l => assert (l = [v0]) as -> by (by vm_compute)
    end.
    apply list_elem_of_here.
Qed.

Lemma xv6_frame_index_inj u v :
  good u → good v → frame_index u = frame_index v → u = v.
Proof.
  unfold good, frame_ok, is_ptr, frame_index. simpl.
  intros [(Hau & Hu & _) Hpu] [(Hav & Hv & _) Hpv].
  rewrite !(wrapu_small u), !(wrapu_small v) in * by lia.
  rewrite !wrapu_small by lia.
  intros Heq. Z.div_mod_to_equations. lia.
Qed.

Lemma v0_good : good v0.
Proof. split; [exact v0_frame_ok|]. unfold is_ptr, v0. lia. Qed.

Lemma s_init_counts i : ref_cnt s_init i = 0.
Proof.
  change (ref_cnt s_init i) with (rc_set (λ _, 0) (frame_index v0) 0 i).
  unfold rc_set. by destruct (_ =? _).
Qed.

Lemma s_init_wf : alloc_wf (λ v, v = v0) s_init.
Proof.
  split.
  { intros i. rewrite s_init_counts. by vm_compute. }
  exists [v0]. split_and!.
  - split_and!; by vm_compute.
  - apply NoDup_singleton.
  - intros v ->%list_elem_of_singleton. split; [exact v0_good|].
    apply s_init_counts.
  - intros v -> _. apply list_elem_of_here.
Qed.

Lemma exec_kalloc :
  run_call CallKalloc s_init = Ok (exec [CallKalloc] s_init).
Proof. reflexivity. Qed.

Lemma exec_kalloc_incr :
  run_call (CallIncr pa0) (exec [CallKalloc] s_init)
  = Ok (exec [CallKalloc; CallIncr pa0] s_init).
Proof. reflexivity. Qed.

Lemma exec_kalloc_incr_kfree :
  run_call (CallKfree v0) (exec [CallKalloc; CallIncr pa0] s_init)
  = Ok (exec [CallKalloc; CallIncr pa0; CallKfree v0] s_init).
Proof. reflexivity. Qed.

Lemma exec_kfree :
  run_call (CallKfree v0) s_init = Ok (exec [CallKfree v0] s_init).
Proof. reflexivity. Qed.

Lemma exec_kfree_kalloc :
  run_call CallKalloc (exec [CallKfree v0] s_init)
  = Ok (exec [CallKfree v0; CallKalloc] s_init).
Proof. reflexivity. Qed.

Lemma exec_kfree_kalloc_decr :
  run_calls [CallKfree v0; CallKalloc; CallDecr pa0] s_init
  = Ok (exec [CallKfree v0; CallKalloc; CallDecr pa0] s_init).
Proof. reflexivity. Qed.

(** From [s_init]: the counts stay non-negative along [kfree] of the free
    page (count 0, the guard of [kfree] at work), [kalloc], and [decr_refc]
    of the count 1 then held; the free list is exact along [kalloc],
    [incr_refc], and two [kfree] of the page. *)
Lemma C9_counts_nonnegative_and_free_list_exact_witness :
  (∀ i, 0 <= ref_cnt (exec [CallKfree v0; CallKalloc; CallDecr pa0] s_init) i
        <= INT_MAX)
  ∧ ∃ s',
      run_calls [CallKalloc; CallIncr pa0; CallKfree v0; CallKfree v0] s_init
      = Ok s'
      ∧ (∀ i, 0 <= ref_cnt s' i)
      ∧ (∀ v, on_freelist s' v → ref_cnt s' (frame_index v) = 0)
      ∧ (∀ v, v = v0 → ref_cnt s' (frame_index v) = 0 → on_freelist s' v).
Proof.
  split.
  - apply (proj1 (C9_counts_nonnegative_and_free_list_exact (λ v, v = v0)
                    [CallKfree v0; CallKalloc; CallDecr pa0] s_init
                    xv6_layout_ok ltac:(simpl; lia) xv6_frame_index_inj
                    (λ v Hv, eq_ind_r good v0_good Hv))).
    + intros i. rewrite s_init_counts. by vm_compute.
    + split; [exact I|]. intros s1 H1.
      rewrite exec_kfree in H1. apply Ok_inj in H1 as <-.
      split; [exact I|]. intros s2 H2.
      rewrite exec_kfree_kalloc in H2. apply Ok_inj in H2 as <-.
      split; [by vm_compute|]. intros s3 _. exact I.
    + exact exec_kfree_kalloc_decr.
  - apply (proj2 (C9_counts_nonnegative_and_free_list_exact (λ v, v = v0)
                    [CallKalloc; CallIncr pa0; CallKfree v0; CallKfree v0]
                    s_init
                    xv6_layout_ok ltac:(simpl; lia) xv6_frame_index_inj
                    (λ v Hv, eq_ind_r good v0_good Hv))).
    + exact s_init_wf.
    + split; [exact I|]. intros s1 H1.
      rewrite exec_kalloc in H1. apply Ok_inj in H1 as <-.
      split; [by vm_compute|]. intros s2 H2.
      rewrite exec_kalloc_incr in H2. apply Ok_inj in H2 as <-.
      split; [split; [exact v0_good|by vm_compute]|]. intros s3 H3.
      rewrite exec_kalloc_incr_kfree in H3. apply Ok_inj in H3 as <-.
      split; [split; [exact v0_good|by vm_compute]|]. intros s4 _.
      exact I.
Defined.

End KallocExamples.

Section ProcBehaviour.

Import Proc.

(** ** More on the process table *)

(** *** allocproc and fork *)

Lemma first_unused_find t i p :
  first_unused t i p → list_find (λ q, state q = UNUSED) t = Some (i, p).
Proof. intros (Hi & Hp & Hfirst). apply list_find_Some. eauto. Qed.

Lemma set_state_same p : set_state (state p) p = p.
Proof. by destruct p. Qed.

Lemma alter_twice_insert {A} (f g : A → A) (l : list A) i x :
  l !! i = Some x → alter f i (alter g i l) = <[i := f (g x)]> l.
Proof.
  intros Hi. rewrite list_alter_alter_eq. by rewrite (alter_as_insert (f ∘ g) l i x Hi).
Qed.

Lemma allocproc_found k i p :
  first_unused (ptable_proc k) i p →
  allocproc true k
  = (set_nextpid (wrap (nextpid k + 1))
       (set_ptable_proc
          (<[i := set_pid (nextpid k) (set_state EMBRYO p)]> (ptable_proc k)) k),
     Some i)
  ∧ allocproc false k
    = (set_nextpid (wrap (nextpid k + 1))
         (set_ptable_proc (<[i := set_pid (nextpid k) p]> (ptable_proc k)) k),
       None).
Proof.
  intros Hf. pose proof Hf as (Hi & Hst & _).
  unfold allocproc. rewrite (first_unused_find _ _ _ Hf).
  unfold update_proc, set_nextpid, set_ptable_proc. simpl.
  split.
  - by rewrite (alter_as_insert _ _ _ _ Hi).
  - rewrite (alter_twice_insert _ _ _ _ _ Hi). do 3 f_equal.
    rewrite <- Hst. by destruct p.
Qed.

Lemma allocproc_full b k :
  Forall (λ p, state p ≠ UNUSED) (ptable_proc k) → allocproc b k = (k, None).
Proof.
  intros Hall. unfold allocproc.
  assert (list_find (λ p, state p = UNUSED) (ptable_proc k) = None) as ->;
    [by apply list_find_None|done].
Qed.

Lemma fork_full_table_core (a b : bool) (k : kstate) (cur : nat) :
  myproc k = Some cur →
  Forall (λ p, state p ≠ UNUSED) (ptable_proc k) →
  fork a b k = Ok (k, -1).
Proof.
  intros Hmy Hall. unfold fork. rewrite Hmy. simpl.
  by rewrite allocproc_full.
Qed.

(** [fork] with a full table returns -1 and changes nothing, whether or
    not a kernel stack or an address space could be had. *)
Theorem fork_full_table (a b : bool) (k : kstate) (cur : nat) :
  myproc k = Some cur →
  Forall (λ p, state p ≠ UNUSED) (ptable_proc k) →
  fork a b k = Ok (k, -1).
Proof. apply fork_full_table_core. Qed.

Lemma fork_full_table_witness : fork true true k_level3' = Ok (k_level3', -1).
Proof.
  apply (fork_full_table true true k_level3' 1%nat).
  - reflexivity.
  - repeat constructor; by vm_compute.
Defined.

Lemma fork_child_inherits_slot_core (k : kstate) (cur i : nat) (p : proc) :
  myproc k = Some cur →
  first_unused (ptable_proc k) i p →
  ∃ k', fork true true k = Ok (k', nextpid k)
    ∧ ptable_proc k'
      = <[i := set_state RUNNABLE (set_parent (Some cur) (set_pid (nextpid k) p))]>
          (ptable_proc k)
    ∧ sched_fields (set_state RUNNABLE (set_parent (Some cur) (set_pid (nextpid k) p)))
      = sched_fields p
    ∧ nextpid k' = wrap (nextpid k + 1)
    ∧ ptable_numProc k' = ptable_numProc k
    ∧ cpu_proc k' = cpu_proc k.
Proof.
  intros Hmy Hf. pose proof Hf as (Hi & Hst & _).
  destruct (allocproc_found k i p Hf) as [Hal _].
  unfold fork. rewrite Hmy. simpl. rewrite Hal.
  unfold deref. simpl.
  rewrite list_lookup_insert_eq by (by eapply lookup_lt_Some). simpl.
  eexists. split; [reflexivity|]. simpl. split_and!; try done.
  assert (Hi' : <[i:=set_pid (nextpid k) (set_state EMBRYO p)]> (ptable_proc k) !! i
                = Some (set_pid (nextpid k) (set_state EMBRYO p))).
  { apply list_lookup_insert_eq. by eapply lookup_lt_Some. }
  rewrite (alter_twice_insert _ _ _ _ _ Hi').
  by rewrite list_insert_insert_eq.
Qed.

(** A successful [fork] takes the first UNUSED slot, returns the pid it
    gave it (the old [nextpid]), and leaves the child RUNNABLE with the
    caller as parent.  Nothing else of the slot is initialised: the child
    has the level, tick, priority and monopolize flag (and the [killed] and
    [chan] fields) the slot held before. *)
Theorem fork_child_inherits_slot (k : kstate) (cur i : nat) (p : proc) :
  myproc k = Some cur →
  first_unused (ptable_proc k) i p →
  ∃ k', fork true true k = Ok (k', nextpid k)
    ∧ ptable_proc k'
      = <[i := set_state RUNNABLE (set_parent (Some cur) (set_pid (nextpid k) p))]>
          (ptable_proc k)
    ∧ sched_fields (set_state RUNNABLE (set_parent (Some cur) (set_pid (nextpid k) p)))
      = sched_fields p
    ∧ nextpid k' = wrap (nextpid k + 1)
    ∧ ptable_numProc k' = ptable_numProc k
    ∧ cpu_proc k' = cpu_proc k.
Proof. apply fork_child_inherits_slot_core. Qed.

(** In [k_reaped] the free slot 1 was left at level 1 with tick 1 and
    priority 5 by the process that died there: the child starts with
    them. *)
Lemma fork_child_inherits_slot_witness :
  ∃ k', fork true true k_reaped = Ok (k', 4)
    ∧ ptable_proc k'
      = <[1%nat := mkProc RUNNABLE 4 (Some 0%nat) ChanNull 0 1 1 5 0]>
          (ptable_proc k_reaped)
    ∧ sched_fields (mkProc RUNNABLE 4 (Some 0%nat) ChanNull 0 1 1 5 0)
      = sched_fields (mkProc UNUSED 0 None ChanNull 0 1 1 5 0)
    ∧ nextpid k' = wrap (4 + 1)
    ∧ ptable_numProc k' = ptable_numProc k_reaped
    ∧ cpu_proc k' = cpu_proc k_reaped.
Proof.
  apply (fork_child_inherits_slot k_reaped 0%nat 1%nat
           (mkProc UNUSED 0 None ChanNull 0 1 1 5 0)).
  - reflexivity.
  - split_and!; [reflexivity|reflexivity|].
    intros [|[|j]] q Hq Hlt; simplify_eq/=; [done|lia|lia].
Defined.

Lemma fork_failure_spends_pid_core (a b : bool) (k : kstate) (cur i : nat) (p : proc) :
  myproc k = Some cur →
  first_unused (ptable_proc k) i p →
  a && b = false →
  ∃ k', fork a b k = Ok (k', -1)
    ∧ ptable_proc k' = <[i := set_pid (nextpid k) p]> (ptable_proc k)
    ∧ state (set_pid (nextpid k) p) = UNUSED
    ∧ nextpid k' = wrap (nextpid k + 1)
    ∧ ptable_numProc k' = ptable_numProc k.
Proof.
  intros Hmy Hf Hab. pose proof Hf as (Hi & Hst & _).
  destruct (allocproc_found k i p Hf) as [Ht Hfalse].
  unfold fork. rewrite Hmy. simpl.
  destruct a.
  - simpl in Hab. subst b. rewrite Ht. eexists. split; [reflexivity|].
    simpl. split_and!; try done.
    assert (Hi' : <[i:=set_pid (nextpid k) (set_state EMBRYO p)]> (ptable_proc k) !! i
                  = Some (set_pid (nextpid k) (set_state EMBRYO p))).
    { apply list_lookup_insert_eq. by eapply lookup_lt_Some. }
    rewrite (alter_as_insert _ _ _ _ Hi'), list_insert_insert_eq.
    f_equal. rewrite <- Hst. by destruct p.
  - rewrite Hfalse. eexists. split; [reflexivity|]. by simpl.
Qed.

(** A [fork] that fails after [allocproc] found a slot (no kernel stack,
    or no address space) returns -1 and gives the slot back, but the pid
    is spent: [nextpid] has advanced and the UNUSED slot keeps the pid. *)
Theorem fork_failure_spends_pid (a b : bool) (k : kstate) (cur i : nat) (p : proc) :
  myproc k = Some cur →
  first_unused (ptable_proc k) i p →
  a && b = false →
  ∃ k', fork a b k = Ok (k', -1)
    ∧ ptable_proc k' = <[i := set_pid (nextpid k) p]> (ptable_proc k)
    ∧ state (set_pid (nextpid k) p) = UNUSED
    ∧ nextpid k' = wrap (nextpid k + 1)
    ∧ ptable_numProc k' = ptable_numProc k.
Proof. apply fork_failure_spends_pid_core. Qed.

Lemma fork_failure_spends_pid_witness :
  ∃ k', fork true false k_reaped = Ok (k', -1)
    ∧ ptable_proc k'
      = <[1%nat := set_pid 4 (mkProc UNUSED 0 None ChanNull 0 1 1 5 0)]>
          (ptable_proc k_reaped)
    ∧ state (set_pid 4 (mkProc UNUSED 0 None ChanNull 0 1 1 5 0)) = UNUSED
    ∧ nextpid k' = wrap (4 + 1)
    ∧ ptable_numProc k' = ptable_numProc k_reaped.
Proof.
  apply (fork_failure_spends_pid true false k_reaped 0%nat 1%nat
           (mkProc UNUSED 0 None ChanNull 0 1 1 5 0)).
  - reflexivity.
  - split_and!; [reflexivity|reflexivity|].
    intros [|[|j]] q Hq Hlt; simplify_eq/=; [done|lia|lia].
  - reflexivity.
Defined.

Lemma pids_below_insert t n i p :
  Forall (λ q, pid q < n) t → pid p < n + 1 →
  Forall (λ q, pid q < n + 1) (<[i := p]> t).
Proof.
  intros Hall Hp. apply Forall_insert; [|done].
  eapply Forall_impl; [exact Hall|]. simpl. intros q Hq. lia.
Qed.

(** [fork] never hands out a pid twice: when every pid of the table is
    below [nextpid], it is so again after [fork], whatever its outcome, and
    the pid a successful [fork] returns is the pid of the RUNNABLE child
    and of no other slot. *)
Theorem fork_pid_is_fresh (a b : bool) (k k' : kstate) (r : Z) :
  pids_below k →
  0 < nextpid k < INT_MAX →
  fork a b k = Ok (k', r) →
  pids_below k'
  ∧ (r ≠ -1 →
     ∃ i c, ptable_proc k' !! i = Some c ∧ pid c = r ∧ state c = RUNNABLE
            ∧ ∀ j q, ptable_proc k' !! j = Some q → pid q = r → j = i).
Proof.
  intros Hbelow Hnext Hfork. unfold pids_below in *.
  assert (Hw : wrap (nextpid k + 1) = nextpid k + 1).
  { apply wrap_small. unfold INT_MIN, INT_MAX in *. lia. }
  destruct (list_find (λ q, state q = UNUSED) (ptable_proc k)) as [[i p]|] eqn:Hfind.
  2:{ apply list_find_None in Hfind.
      unfold fork in Hfork. rewrite (allocproc_full a k Hfind) in Hfork.
      simplify_eq. split; [done|]. intros Hr. done. }
  assert (Hf : first_unused (ptable_proc k) i p).
  { apply list_find_Some in Hfind as (Hi & Hp & Hfirst). split_and!; eauto. }
  pose proof Hf as (Hi & Hst & _).
  destruct (myproc k) as [cur|] eqn:Hmy.
  2:{ (* without a current process [fork] returns only when [kalloc]
         gave no stack *)
      destruct (allocproc_found k i p Hf) as [Htrue Hfalse].
      unfold fork in Hfork. destruct a.
      - rewrite Htrue, Hmy in Hfork. done.
      - rewrite Hfalse in Hfork. simplify_eq. simpl. rewrite Hw.
        split; [|done]. apply pids_below_insert; [done|simpl; lia]. }
  destruct (a && b) eqn:Hab.
  - apply andb_true_iff in Hab as [-> ->].
    destruct (fork_child_inherits_slot_core k cur i p Hmy Hf)
      as (k1 & Hk1 & Ht & _ & Hn & _).
    rewrite Hk1 in Hfork. simplify_eq. rewrite Ht, Hn, Hw. split.
    + apply pids_below_insert; [done|simpl; lia].
    + intros _. eexists i, _. split_and!.
      * apply list_lookup_insert_eq. by eapply lookup_lt_Some.
      * done.
      * done.
      * intros j q Hj Hq. destruct (decide (j = i)) as [|Hne]; [done|].
        rewrite list_lookup_insert_ne in Hj by done.
        rewrite Forall_lookup in Hbelow. specialize (Hbelow j q Hj).
        simpl in Hbelow. lia.
  - destruct (fork_failure_spends_pid_core a b k cur i p Hmy Hf Hab)
      as (k1 & Hk1 & Ht & _ & Hn & _).
    rewrite Hk1 in Hfork. simplify_eq. rewrite Ht, Hn, Hw. split; [|done].
    apply pids_below_insert; [done|simpl; lia].
Qed.

Lemma fork_pid_is_fresh_witness :
  pids_below k_forked
  ∧ (4 ≠ -1 →
     ∃ i c, ptable_proc k_forked !! i = Some c ∧ pid c = 4 ∧ state c = RUNNABLE
            ∧ ∀ j q, ptable_proc k_forked !! j = Some q → pid q = 4 → j = i).
Proof.
  apply (fork_pid_is_fresh true true k_reaped k_forked 4).
  - repeat constructor; by vm_compute.
  - by vm_compute.
  - reflexivity.
Defined.

(** *** wakeup, sleep and kill *)

Lemma wakeup1_proc_idemp c p :
  wakeup1_proc c (wakeup1_proc c p) = wakeup1_proc c p.
Proof.
  unfold wakeup1_proc.
  destruct (bool_decide (state p = SLEEPING) && bool_decide (chan p = c)) eqn:Hb;
    [|by rewrite Hb].
  done.
Qed.

Lemma wakeup_wakes_every_sleeper_core (c : channel) (k : kstate) :
  no_sleeper c (ptable_proc (wakeup c k))
  ∧ (∀ i p, ptable_proc k !! i = Some p →
       ptable_proc (wakeup c k) !! i
       = Some (if decide (state p = SLEEPING ∧ chan p = c)
               then set_state RUNNABLE p else p))
  ∧ ptable_numProc (wakeup c k) = ptable_numProc k
  ∧ wakeup c (wakeup c k) = wakeup c k.
Proof.
  unfold wakeup, wakeup1. simpl. split_and!.
  - unfold no_sleeper. apply Forall_fmap, Forall_forall. intros p _. simpl.
    unfold wakeup1_proc.
    destruct (bool_decide (state p = SLEEPING)) eqn:Hs; simpl.
    + destruct (bool_decide (chan p = c)) eqn:Hc; simpl; [by intros [? _]|].
      apply bool_decide_eq_false in Hc. by intros [_ ?].
    + apply bool_decide_eq_false in Hs. by intros [? _].
  - intros i p Hi. rewrite list_lookup_fmap, Hi. simpl. f_equal.
    unfold wakeup1_proc. case_decide as Hd.
    + destruct Hd as [Hs Hc]. by rewrite !bool_decide_true.
    + destruct (bool_decide (state p = SLEEPING)) eqn:Hs; [|done].
      destruct (bool_decide (chan p = c)) eqn:Hc; [|done].
      apply bool_decide_eq_true in Hs, Hc. by destruct Hd.
  - done.
  - unfold set_ptable_proc. simpl. f_equal.
    rewrite <- list_fmap_compose. apply list_fmap_ext.
    intros i p _. simpl. apply wakeup1_proc_idemp.
Qed.

(** [wakeup] leaves nobody asleep on the channel, makes RUNNABLE exactly
    the processes that slept on it, touches neither the other slots nor
    the counts, and changes nothing when repeated. *)
Theorem wakeup_wakes_every_sleeper (c : channel) (k : kstate) :
  no_sleeper c (ptable_proc (wakeup c k))
  ∧ (∀ i p, ptable_proc k !! i = Some p →
       ptable_proc (wakeup c k) !! i
       = Some (if decide (state p = SLEEPING ∧ chan p = c)
               then set_state RUNNABLE p else p))
  ∧ ptable_numProc (wakeup c k) = ptable_numProc k
  ∧ wakeup c (wakeup c k) = wakeup c k.
Proof. apply wakeup_wakes_every_sleeper_core. Qed.

(** *** The hand-off in [sched] *)

Ltac ok_bind := repeat (change (Ok ?x ≫= ?f) with (f x); cbv beta).

Lemma sched_checks_handoff c : handoff_ok c → sched_checks c = Ok ().
Proof.
  intros (Hh & Hif & Hn). unfold sched_checks. by rewrite Hh, Hif, Hn.
Qed.

Lemma sched_checks_panic c :
  ¬ handoff_ok c →
  ∃ msg, sched_checks c = Panic msg
         ∧ (msg = "sched ptable.lock" ∨ msg = mycpu_msg ∨ msg = "sched locks").
Proof.
  intros Hno. unfold sched_checks, handoff_ok in *.
  destruct (holding_ptable_lock c); simpl; [|eauto].
  destruct (eflags_if c); simpl; [eauto|].
  destruct (Z.eqb_spec (ncli c) 1) as [Hn|Hn]; simpl; [|eauto].
  by destruct Hno.
Qed.

(** [sched] on a process that is not RUNNING stops only at the tests of
    the lock and of the CPU; its last test never fires, since [mycpu()]
    has tested the interrupt flag before. *)
Lemma sched_not_running c k p :
  deref k (myproc k) = Ok p → state p ≠ RUNNING →
  sched c k = sched_checks c ≫= λ _, Ok k.
Proof.
  intros Hp Hs. unfold sched, sched_checks, mycpu.
  destruct (holding_ptable_lock c); simpl; [|done].
  destruct (eflags_if c); simpl; [done|].
  destruct (ncli c =? 1); simpl; [|done].
  rewrite Hp. simpl. by rewrite bool_decide_false.
Qed.

Lemma sched_running c k p :
  deref k (myproc k) = Ok p → state p = RUNNING →
  sched c k = sched_checks c ≫= λ _, Panic "sched running".
Proof.
  intros Hp Hs. unfold sched, sched_checks, mycpu.
  destruct (holding_ptable_lock c); simpl; [|done].
  destruct (eflags_if c); simpl; [done|].
  destruct (ncli c =? 1); simpl; [|done].
  rewrite Hp. simpl. by rewrite bool_decide_true.
Qed.

(** What an operation that ends in [sched] returns, told by the lock and
    the CPU. *)
Lemma via_sched_checks {A} c (r : result A) (a : A) :
  r = (sched_checks c ≫= λ _, Ok a) →
  (handoff_ok c → r = Ok a)
  ∧ (¬ handoff_ok c →
     ∃ msg, r = Panic msg
            ∧ (msg = "sched ptable.lock" ∨ msg = mycpu_msg
               ∨ msg = "sched locks")).
Proof.
  intros ->. split.
  - intros Hc. by rewrite (sched_checks_handoff c Hc).
  - intros Hc. destruct (sched_checks_panic c Hc) as (msg & Hmsg & Hor).
    exists msg. by rewrite Hmsg.
Qed.

(** [sleep] by the current process with a null lock stops with the panic
    [sleep without lk].  With a lock it stops only at a panic of the tests
    [sched] makes of the lock and the CPU, never at [sched running]: when
    [ptable.lock] is held, interrupts are off and [ncli] is 1 it reaches
    the hand-off with the process SLEEPING on the channel.  A [wakeup] on
    that channel then makes it RUNNABLE; a [wakeup] on another channel
    leaves it asleep. *)
Theorem sleep_then_wakeup (c : cpu_view) (ch : channel) (lk : lockref)
    (k : kstate) (i : nat) (p : proc) :
  myproc k = Some i →
  ptable_proc k !! i = Some p →
  (lk = LkNull → sleep c ch lk k = Panic "sleep without lk")
  ∧ (lk ≠ LkNull →
     ∃ k', sleep c ch lk k = (sched_checks c ≫= λ _, Ok k')
       ∧ (handoff_ok c → sleep c ch lk k = Ok k')
       ∧ (¬ handoff_ok c →
          ∃ msg, sleep c ch lk k = Panic msg
                 ∧ (msg = "sched ptable.lock" ∨ msg = mycpu_msg
                    ∨ msg = "sched locks"))
       ∧ ptable_proc k'
         = <[i := set_state SLEEPING (set_chan ch p)]> (ptable_proc k)
       ∧ ptable_proc (wakeup ch k') !! i
         = Some (set_state RUNNABLE (set_chan ch p))
       ∧ ∀ ch', ch' ≠ ch →
           ptable_proc (wakeup ch' k') !! i
           = Some (set_state SLEEPING (set_chan ch p))).
Proof.
  intros Hmy Hi.
  assert (Hlen : (i < length (ptable_proc k))%nat) by (by eapply lookup_lt_Some).
  split.
  { intros ->. unfold sleep. by rewrite Hmy. }
  intros Hlk.
  set (k' := update_proc i (λ q, set_state SLEEPING (set_chan ch q)) k).
  assert (Ht : ptable_proc k'
               = <[i := set_state SLEEPING (set_chan ch p)]> (ptable_proc k)).
  { unfold k', update_proc. cbn [ptable_proc set_ptable_proc].
    exact (alter_as_insert (λ q, set_state SLEEPING (set_chan ch q)) _ _ _ Hi). }
  assert (Heq : sleep c ch lk k = (sched_checks c ≫= λ _, Ok k')).
  { assert (Hs : sched c k' = (sched_checks c ≫= λ _, Ok k')).
    { apply (sched_not_running c k' (set_state SLEEPING (set_chan ch p)));
        [|done].
      assert (myproc k' = Some i) as -> by exact Hmy.
      unfold deref. rewrite Ht. by rewrite list_lookup_insert_eq. }
    unfold sleep. rewrite Hmy. unfold deref. rewrite Hi.
    destruct lk; [done|exact Hs|exact Hs]. }
  exists k'. split_and!.
  - exact Heq.
  - intros Hc. by rewrite Heq, (sched_checks_handoff c Hc).
  - intros Hc. destruct (sched_checks_panic c Hc) as (msg & Hmsg & Hor).
    exists msg. by rewrite Heq, Hmsg.
  - exact Ht.
  - cbn [wakeup wakeup1 ptable_proc set_ptable_proc]. unfold wakeup, wakeup1.
    cbn [ptable_proc set_ptable_proc].
    rewrite list_lookup_fmap, Ht, list_lookup_insert_eq by done. simpl.
    unfold wakeup1_proc. simpl. by rewrite !bool_decide_true.
  - intros ch' Hne. unfold wakeup, wakeup1. cbn [ptable_proc set_ptable_proc].
    rewrite list_lookup_fmap, Ht, list_lookup_insert_eq by done.
    simpl. unfold wakeup1_proc. simpl.
    by rewrite (bool_decide_false (ch = ch')) by done.
Qed.

(** The process of slot 0 of [k_tick] sleeps on [&ticks] with
    [tickslock], as [sys_sleep] does, and reaches the hand-off. *)
Lemma sleep_then_wakeup_witness :
  ∃ k', sleep cpu_handoff ChanTicks LkOther k_tick = Ok k'
    ∧ ptable_proc k'
      = <[0%nat := set_state SLEEPING
                     (set_chan ChanTicks (mkProc RUNNING 2 None ChanNull 0 3 7 5 0))]>
          (ptable_proc k_tick)
    ∧ ptable_proc (wakeup ChanTicks k') !! 0%nat
      = Some (set_state RUNNABLE
                (set_chan ChanTicks (mkProc RUNNING 2 None ChanNull 0 3 7 5 0)))
    ∧ sleep cpu_two_locks ChanTicks LkOther k_tick = Panic "sched locks"
    ∧ sleep cpu_handoff ChanTicks LkNull k_tick = Panic "sleep without lk".
Proof.
  destruct (sleep_then_wakeup cpu_handoff ChanTicks LkOther k_tick 0%nat
              (mkProc RUNNING 2 None ChanNull 0 3 7 5 0) eq_refl eq_refl)
    as [_ H].
  destruct (H ltac:(done)) as (k' & _ & Hok & _ & Ht & Hw & _).
  exists k'. split_and!.
  - apply Hok. by split_and!.
  - exact Ht.
  - exact Hw.
  - reflexivity.
  - reflexivity.
Defined.

Lemma kill_proc_idemp p : kill_proc (kill_proc p) = kill_proc p.
Proof. unfold kill_proc. destruct p as [[] ? ? ? ? ? ? ? ?]; reflexivity. Qed.

Lemma list_find_alter_first {A} (P : A → Prop) `{∀ x, Decision (P x)}
    (f : A → A) (l : list A) i x :
  list_find P l = Some (i, x) → P (f x) →
  list_find P (alter f i l) = Some (i, f x).
Proof.
  intros (Hi & Hx & Hfirst)%list_find_Some Hfx. apply list_find_Some.
  split_and!.
  - by rewrite list_lookup_alter_eq, Hi.
  - done.
  - intros j y Hj Hlt. rewrite list_lookup_alter_ne in Hj by lia. eauto.
Qed.

(** [kill] returns 0 exactly when some slot has the pid, and otherwise -1
    with the state as it was.  The first slot with the pid is left with
    [killed] set; a sleeper becomes RUNNABLE, any other state is kept, and
    so are the pid and the scheduling fields.  No other slot changes, nor
    does [numProc].  Killing again changes nothing. *)
Theorem kill_result_and_idempotence (pid0 : Z) (k : kstate) :
  ((kill pid0 k).2 = 0 ↔ Exists (λ p, pid p = pid0) (ptable_proc k))
  ∧ ((kill pid0 k).2 ≠ 0 → kill pid0 k = (k, -1))
  ∧ (∀ i p, first_with_pid (ptable_proc k) pid0 i p →
       ∃ q, ptable_proc (kill pid0 k).1 !! i = Some q
            ∧ killed q = 1 ∧ state q ≠ SLEEPING
            ∧ (state p ≠ SLEEPING → state q = state p)
            ∧ (state p = SLEEPING → state q = RUNNABLE)
            ∧ pid q = pid p ∧ parent q = parent p ∧ chan q = chan p
            ∧ sched_fields q = sched_fields p
            ∧ (∀ j, j ≠ i →
                 ptable_proc (kill pid0 k).1 !! j = ptable_proc k !! j))
  ∧ ptable_numProc (kill pid0 k).1 = ptable_numProc k
  ∧ kill pid0 (kill pid0 k).1 = kill pid0 k.
Proof.
  unfold kill.
  destruct (list_find (λ p, pid p = pid0) (ptable_proc k)) as [[i p]|] eqn:Hfind.
  - pose proof Hfind as (Hi & Hp & Hfirst)%list_find_Some. simpl.
    split_and!.
    + split; [|done]. intros _. apply Exists_exists. exists p.
      split; [by eapply list_elem_of_lookup_2|done].
    + done.
    + intros j q Hq. apply first_with_pid_find in Hq. simplify_eq.
      exists (kill_proc p). rewrite list_lookup_alter_eq, Hi. simpl.
      split; [done|].
      assert (Hfields : killed (kill_proc p) = 1
                ∧ state (kill_proc p) ≠ SLEEPING
                ∧ (state p ≠ SLEEPING → state (kill_proc p) = state p)
                ∧ (state p = SLEEPING → state (kill_proc p) = RUNNABLE)
                ∧ pid (kill_proc p) = pid p ∧ parent (kill_proc p) = parent p
                ∧ chan (kill_proc p) = chan p
                ∧ sched_fields (kill_proc p) = sched_fields p).
      { unfold kill_proc. simpl.
        destruct (state p) eqn:Hs; simpl; rewrite ?Hs; done. }
      destruct Hfields as (? & ? & ? & ? & ? & ? & ? & ?).
      split_and!; try done.
      intros j' Hne. by rewrite list_lookup_alter_ne.
    + done.
    + rewrite (list_find_alter_first _ kill_proc _ _ _ Hfind)
        by (by destruct p as [[] ? ? ? ? ? ? ? ?]).
      unfold update_proc, set_ptable_proc. simpl. do 2 f_equal.
      rewrite list_alter_alter_eq. apply list_alter_ext; [|done].
      intros x _. apply kill_proc_idemp.
  - pose proof Hfind as Hall%list_find_None. simpl. rewrite Hfind.
    split_and!; try done.
    + split; [done|]. intros Hex%Exists_exists. destruct Hex as (q & Hq & Hpid).
      rewrite Forall_forall in Hall. by destruct (Hall q Hq).
    + intros i p Hf%first_with_pid_find. congruence.
Qed.

(** *** The timer and the domains of the fields *)

Lemma age_unfold p :
  level_ok p → 0 <= tick p < INT_MAX → 0 <= priority p <= INT_MAX →
  age p
  = if monopolize_flag p =? 1 then set_tick 0 p
    else if tick p + 1 <? quantum p then set_tick (tick p + 1) p
    else if level p =? 0 then
      set_tick 0 (set_level (if Z.rem (pid p) 2 =? 1 then 1 else 2) p)
    else if level p =? 3 then
      set_tick 0 (if priority p =? 0 then p
                  else set_priority (priority p - 1) p)
    else set_tick 0 (set_level 3 p).
Proof.
  intros [Hl0 Hl3] Htick Hprio. unfold age, quantum, INT_MAX in *.
  destruct (monopolize_flag p =? 1); [done|]. simpl.
  rewrite wrap_add_l.
  rewrite !wrap_small by (unfold INT_MIN, INT_MAX; lia).
  destruct (Z.ltb_spec (tick p + 1) (2 * level p + 2)) as [Hlt|Hge].
  { assert ((tick p + 1 >=? 2 * level p + 2) = false) as ->; [|done].
    rewrite Z.geb_leb. apply Z.leb_gt. lia. }
  assert ((tick p + 1 >=? 2 * level p + 2) = true) as ->.
  { rewrite Z.geb_leb. apply Z.leb_le. lia. }
  assert (level p = 0 ∨ level p = 1 ∨ level p = 2 ∨ level p = 3)
    as [Hl | [Hl | [Hl | Hl]]] by lia; rewrite Hl; simpl.
  - by destruct (Z.rem (pid p) 2 =? 1).
  - done.
  - done.
  - by destruct (Z.eqb_spec (priority p) 0).
Qed.

Lemma fields_ok_ranges p :
  fields_ok p →
  level_ok p ∧ 0 <= tick p < INT_MAX ∧ 0 <= priority p <= INT_MAX.
Proof.
  unfold fields_ok, level_ok, tick_ok, priority_ok, quantum, INT_MAX. lia.
Qed.

Lemma age_fields_ok p : fields_ok p → fields_ok (age p).
Proof.
  intros Hok. destruct (fields_ok_ranges p Hok) as (Hl & Ht & Hp).
  rewrite age_unfold by done.
  unfold fields_ok, level_ok, tick_ok, priority_ok, quantum in *.
  repeat case_match; simpl; try lia;
    repeat match goal with
           | H : (_ =? _) = true |- _ => apply Z.eqb_eq in H
           | H : (_ =? _) = false |- _ => apply Z.eqb_neq in H
           | H : (_ <? _) = true |- _ => apply Z.ltb_lt in H
           | H : (_ <? _) = false |- _ => apply Z.ltb_ge in H
           end; lia.
Qed.

Lemma age_monotone p :
  fields_ok p →
  level p <= level (age p) ∧ priority (age p) <= priority p
  ∧ state (age p) = state p ∧ pid (age p) = pid p
  ∧ monopolize_flag (age p) = monopolize_flag p.
Proof.
  intros Hok. destruct (fields_ok_ranges p Hok) as (Hl & Ht & Hp).
  rewrite age_unfold by done.
  unfold fields_ok, level_ok, tick_ok, priority_ok, quantum in *.
  repeat case_match; simpl; split_and!; try done; try lia;
    repeat match goal with
           | H : (_ =? _) = true |- _ => apply Z.eqb_eq in H
           | H : (_ =? _) = false |- _ => apply Z.eqb_neq in H
           end; lia.
Qed.

Lemma wakeup1_proc_fields_ok c p : fields_ok p → fields_ok (wakeup1_proc c p).
Proof. unfold wakeup1_proc. by destruct (_ && _). Qed.

Lemma boost_proc_fields_ok p : fields_ok p → fields_ok (boost_proc p).
Proof.
  unfold fields_ok, level_ok, tick_ok, priority_ok, quantum. simpl. lia.
Qed.

(** A timer interrupt keeps every slot in its domain: level in 0..3, tick
    below the quantum [2 * level + 2] of the level, priority in 0..10.  It
    returns whenever the CPU's process pointer is null or points into the
    table. *)
Theorem timer_keeps_fields_in_domain (cpuid : Z) (k : kstate) :
  Forall fields_ok (ptable_proc k) →
  (∀ i, myproc k = Some i → (i < length (ptable_proc k))%nat) →
  ∃ k', trap_timer cpuid k = Ok k'
    ∧ Forall fields_ok (ptable_proc k')
    ∧ length (ptable_proc k') = length (ptable_proc k).
Proof.
  intros Hall Hcur. unfold trap_timer.
  destruct (cpuid =? 0); [|by exists k].
  set (k1 := set_ticks _ k).
  assert (Hw : Forall fields_ok (ptable_proc (wakeup ChanTicks k1))).
  { simpl. apply Forall_fmap. eapply Forall_impl; [exact Hall|].
    intros p Hp. by apply wakeup1_proc_fields_ok. }
  assert (Hlen : length (ptable_proc (wakeup ChanTicks k1)) = length (ptable_proc k)).
  { simpl. by rewrite length_fmap. }
  destruct (wrapu (ticks k + 1) =? 100).
  - eexists. split; [reflexivity|].
    unfold priority_boosting. rewrite boost_loop_fold. simpl. split.
    + apply Forall_fmap. apply Forall_fmap.
      eapply Forall_impl; [exact Hall|]. intros p Hp. simpl.
      by apply boost_proc_fields_ok, wakeup1_proc_fields_ok.
    + by rewrite !length_fmap.
  - change (myproc (wakeup ChanTicks k1)) with (myproc k).
    destruct (myproc k) as [i|] eqn:Hmy; [|by eexists].
    specialize (Hcur i eq_refl). rewrite <- Hlen in Hcur.
    destruct (lookup_lt_is_Some_2 _ _ Hcur) as [p Hp].
    unfold deref. rewrite Hp. simpl.
    destruct (bool_decide (state p = RUNNING)); [|by eexists].
    eexists. split; [reflexivity|]. simpl. split.
    + rewrite (alter_as_insert _ _ _ _ Hp). apply Forall_insert; [done|].
      apply age_fields_ok. rewrite Forall_lookup in Hw. by eapply Hw.
    + by rewrite length_alter, length_fmap.
Qed.

Lemma timer_keeps_fields_in_domain_witness :
  ∃ k', trap_timer 0 k_tick = Ok k'
    ∧ Forall fields_ok (ptable_proc k')
    ∧ length (ptable_proc k') = length (ptable_proc k_tick).
Proof.
  apply (timer_keeps_fields_in_domain 0 k_tick).
  - repeat constructor; by vm_compute.
  - intros i [= <-]. simpl. lia.
Defined.

(** Between two boosts the timer only moves a process down: a timer
    interrupt that does not bring [ticks] to 100 lowers no level and raises
    no priority, and changes the state, pid and monopolize flag of no
    slot other than by waking the sleepers on [&ticks]. *)
Theorem timer_only_demotes (k : kstate) (i : nat) (p : proc) :
  Forall fields_ok (ptable_proc k) →
  wrapu (ticks k + 1) ≠ 100 →
  (∀ j, myproc k = Some j → (j < length (ptable_proc k))%nat) →
  ptable_proc k !! i = Some p →
  ∃ k' q, trap_timer 0 k = Ok k'
    ∧ ptable_proc k' !! i = Some q
    ∧ level p <= level q ∧ priority q <= priority p
    ∧ pid q = pid p ∧ monopolize_flag q = monopolize_flag p
    ∧ (state q = state p ∨ (state p = SLEEPING ∧ chan p = ChanTicks
                            ∧ state q = RUNNABLE)).
Proof.
  intros Hall Hticks Hcur Hi. unfold trap_timer. rewrite Z.eqb_refl.
  apply Z.eqb_neq in Hticks. rewrite Hticks.
  set (k1 := set_ticks _ k).
  destruct (wakeup_wakes_every_sleeper_core ChanTicks k1) as (_ & Hw & _).
  specialize (Hw i p Hi).
  set (p' := if decide (state p = SLEEPING ∧ chan p = ChanTicks)
             then set_state RUNNABLE p else p) in Hw.
  assert (Hp' : level p' = level p ∧ priority p' = priority p ∧ pid p' = pid p
                ∧ monopolize_flag p' = monopolize_flag p
                ∧ (state p' = state p
                   ∨ (state p = SLEEPING ∧ chan p = ChanTicks
                      ∧ state p' = RUNNABLE))).
  { unfold p'. case_decide as Hd; simpl; [|by auto 10].
    destruct Hd. split_and!; auto. }
  destruct Hp' as (Hl & Hpr & Hpid & Hfl & Hst).
  assert (Hok' : fields_ok p').
  { rewrite Forall_lookup in Hall. specialize (Hall i p Hi).
    unfold p'. case_decide; [|done]. exact Hall. }
  change (myproc (wakeup ChanTicks k1)) with (myproc k).
  destruct (myproc k) as [j|] eqn:Hmy.
  2:{ exists (wakeup ChanTicks k1), p'. split_and!; try done; lia. }
  specialize (Hcur j eq_refl).
  assert (Hj : (j < length (ptable_proc (wakeup ChanTicks k1)))%nat).
  { simpl. by rewrite length_fmap. }
  destruct (lookup_lt_is_Some_2 _ _ Hj) as [c Hc].
  unfold deref. rewrite Hc. simpl.
  destruct (bool_decide (state c = RUNNING)).
  2:{ exists (wakeup ChanTicks k1), p'. split_and!; try done; lia. }
  destruct (decide (j = i)) as [->|Hne].
  - rewrite Hw in Hc. apply (inj Some) in Hc. subst c.
    destruct (age_monotone p' Hok') as (Ha1 & Ha2 & Ha3 & Ha4 & Ha5).
    eexists _, (age p'). split; [reflexivity|]. simpl.
    split_and!.
    + unfold wakeup, wakeup1 in Hw. simpl in Hw.
      by rewrite list_lookup_alter_eq, Hw.
    + lia.
    + lia.
    + congruence.
    + congruence.
    + rewrite Ha3. done.
  - eexists _, p'. split; [reflexivity|]. simpl.
    split_and!; try done; try lia.
    unfold wakeup, wakeup1 in Hw. simpl in Hw.
    by rewrite list_lookup_alter_ne.
Qed.

Lemma timer_only_demotes_witness :
  ∃ k' q, trap_timer 0 k_tick = Ok k'
    ∧ ptable_proc k' !! 0%nat = Some q
    ∧ level (mkProc RUNNING 2 None ChanNull 0 3 7 5 0) <= level q
    ∧ priority q <= priority (mkProc RUNNING 2 None ChanNull 0 3 7 5 0)
    ∧ pid q = pid (mkProc RUNNING 2 None ChanNull 0 3 7 5 0)
    ∧ monopolize_flag q = monopolize_flag (mkProc RUNNING 2 None ChanNull 0 3 7 5 0)
    ∧ (state q = state (mkProc RUNNING 2 None ChanNull 0 3 7 5 0)
       ∨ (state (mkProc RUNNING 2 None ChanNull 0 3 7 5 0) = SLEEPING
          ∧ chan (mkProc RUNNING 2 None ChanNull 0 3 7 5 0) = ChanTicks
          ∧ state q = RUNNABLE)).
Proof.
  apply (timer_only_demotes k_tick 0%nat (mkProc RUNNING 2 None ChanNull 0 3 7 5 0)).
  - repeat constructor; by vm_compute.
  - by vm_compute.
  - intros i [= <-]. simpl. lia.
  - reflexivity.
Defined.

(** A process that is not monopolized spends exactly its quantum at a
    level: from tick 0 the first [2 * level + 2 - 1] timer ticks only count,
    and the next one resets the tick and demotes it (one level class down,
    or one unit of priority at level 3, never below 0). *)
Theorem demotion_after_exactly_quantum (p : proc) :
  monopolize_flag p ≠ 1 →
  level_ok p →
  priority_ok p →
  tick p = 0 →
  (∀ n : nat, Z.of_nat n < quantum p →
     Nat.iter n age p = set_tick (Z.of_nat n) p)
  ∧ tick (Nat.iter (Z.to_nat (quantum p)) age p) = 0
  ∧ (level p < 3 →
     level p < level (Nat.iter (Z.to_nat (quantum p)) age p)
     ∧ priority (Nat.iter (Z.to_nat (quantum p)) age p) = priority p)
  ∧ (level p = 3 →
     level (Nat.iter (Z.to_nat (quantum p)) age p) = 3
     ∧ priority (Nat.iter (Z.to_nat (quantum p)) age p)
       = Z.max 0 (priority p - 1)).
Proof.
  intros Hm Hl Hp Ht. apply Z.eqb_neq in Hm.
  assert (Hcount : ∀ n : nat, Z.of_nat n < quantum p →
                     Nat.iter n age p = set_tick (Z.of_nat n) p).
  { induction n as [|n IH]; intros Hn.
    - destruct p; simpl in *. by subst.
    - rewrite Nat.iter_succ, IH by lia.
      unfold level_ok, priority_ok, quantum, INT_MAX in *.
      rewrite age_unfold by (unfold level_ok, INT_MAX; simpl; lia).
      simpl. rewrite Hm.
      assert ((Z.of_nat n + 1 <? quantum (set_tick (Z.of_nat n) p)) = true) as ->.
      { apply Z.ltb_lt. unfold quantum. simpl. lia. }
      unfold set_tick. simpl. f_equal. lia. }
  split; [exact Hcount|].
  assert (Hq : Z.to_nat (quantum p) = S (Z.to_nat (quantum p - 1))).
  { unfold level_ok, quantum in *. lia. }
  rewrite Hq, Nat.iter_succ, Hcount by (unfold level_ok, quantum in *; lia).
  unfold level_ok, priority_ok, quantum, INT_MAX in *.
  rewrite age_unfold by (unfold level_ok, INT_MAX; simpl; lia).
  simpl. rewrite Hm.
  assert ((Z.of_nat (Z.to_nat (2 * level p + 2 - 1)) + 1
           <? quantum (set_tick (Z.of_nat (Z.to_nat (2 * level p + 2 - 1))) p))
          = false) as ->.
  { apply Z.ltb_ge. unfold quantum. simpl. lia. }
  assert (level p = 0 ∨ level p = 1 ∨ level p = 2 ∨ level p = 3)
    as [Hlv | [Hlv | [Hlv | Hlv]]] by lia; rewrite Hlv; simpl.
  - destruct (Z.rem (pid p) 2 =? 1); simpl; split_and!; try done; lia.
  - split_and!; try done; lia.
  - split_and!; try done; lia.
  - destruct (Z.eqb_spec (priority p) 0) as [H0|H0]; simpl;
      split_and!; try done; lia.
Qed.

(** The level-3 process of [k_tick], put back to tick 0: priority 5 goes
    to 4 at the eighth tick. *)
Lemma demotion_after_exactly_quantum_witness :
  (∀ n : nat, Z.of_nat n < 8 →
     Nat.iter n age (mkProc RUNNING 2 None ChanNull 0 3 0 5 0)
     = set_tick (Z.of_nat n) (mkProc RUNNING 2 None ChanNull 0 3 0 5 0))
  ∧ Nat.iter 8 age (mkProc RUNNING 2 None ChanNull 0 3 0 5 0)
    = mkProc RUNNING 2 None ChanNull 0 3 0 4 0.
Proof.
  destruct (demotion_after_exactly_quantum (mkProc RUNNING 2 None ChanNull 0 3 0 5 0))
    as (Hn & _).
  - done.
  - by vm_compute.
  - by vm_compute.
  - reflexivity.
  - split; [exact Hn|reflexivity].
Defined.

(** [setpriority] checks the range before it looks for the pid: a priority
    outside 0..10 gives -2 even for an existing pid.  Otherwise the result
    is 0 exactly when some slot has the pid, and -1 with the state as it
    was when none has.  Priorities within 0..10 stay within 0..10; no other
    field of any slot changes. *)
Theorem setpriority_result_and_range (pid0 prio : Z) (k : kstate) :
  (prio < 0 ∨ 10 < prio → setpriority pid0 prio k = (k, -2))
  ∧ (0 <= prio <= 10 →
     ((setpriority pid0 prio k).2 = 0
      ↔ Exists (λ p, pid p = pid0) (ptable_proc k))
     ∧ ((setpriority pid0 prio k).2 ≠ 0 → setpriority pid0 prio k = (k, -1)))
  ∧ (Forall priority_ok (ptable_proc k) →
     Forall priority_ok (ptable_proc (setpriority pid0 prio k).1))
  ∧ (∀ i p, ptable_proc k !! i = Some p →
       ∃ q, ptable_proc (setpriority pid0 prio k).1 !! i = Some q
            ∧ (q = p ∨ q = set_priority prio p)).
Proof.
  unfold setpriority.
  destruct (Z.ltb_spec prio 0) as [Hneg|Hpos]; simpl.
  { split_and!; [done|lia|done|]. intros i p Hi. exists p. auto. }
  destruct (Z.ltb_spec 10 prio) as [Hbig|Hsmall]; simpl.
  { split_and!; [done|lia|done|]. intros i p Hi. exists p. auto. }
  destruct (list_find (λ p, pid0 = pid p) (ptable_proc k)) as [[i p]|] eqn:Hfind.
  - pose proof Hfind as (Hi & Hp & _)%list_find_Some. simpl.
    split_and!.
    + lia.
    + intros _. split; [|done]. split; [|done]. intros _.
      apply Exists_exists. exists p.
      split; [by eapply list_elem_of_lookup_2|done].
    + intros Hall. rewrite (alter_as_insert _ _ _ _ Hi).
      apply Forall_insert; [done|]. unfold priority_ok. simpl. lia.
    + intros j q Hj. destruct (decide (i = j)) as [->|Hne].
      * exists (set_priority prio q). rewrite list_lookup_alter_eq, Hj. auto.
      * exists q. rewrite list_lookup_alter_ne by done. auto.
  - pose proof Hfind as Hall%list_find_None. simpl.
    split_and!.
    + lia.
    + intros _. split; [|done]. split; [done|].
      intros (q & Hq & Hpid)%Exists_exists.
      rewrite Forall_forall in Hall. by destruct (Hall q Hq).
    + done.
    + intros i p Hi. exists p. auto.
Qed.

(** *** Where the counts of [numProc] are kept *)

Lemma filter_length_insert {A} (P : A → Prop) `{∀ x, Decision (P x)}
    (t : list A) i p q :
  t !! i = Some p →
  Z.of_nat (length (filter P (<[i := q]> t)))
  = Z.of_nat (length (filter P t))
    - (if decide (P p) then 1 else 0) + (if decide (P q) then 1 else 0).
Proof.
  revert i. induction t as [|a t IH]; intros [|i] Hi; simplify_eq/=.
  - rewrite !filter_cons. repeat case_decide; simpl; lia.
  - specialize (IH i Hi). rewrite !filter_cons.
    destruct (decide (P a)); simpl; lia.
Qed.

Lemma numProc_consistent_levels k :
  numProc_consistent k
  ↔ (∀ j : nat, (j < 4)%nat →
       np_get j (ptable_numProc k) = count_eligible (Z.of_nat j) (ptable_proc k))
    ∧ np_get 4 (ptable_numProc k) = count_monopolized (ptable_proc k).
Proof.
  unfold numProc_consistent. split.
  - intros (H0 & H1 & H2 & H3 & H4). split; [|done].
    intros j Hj. do 4 (destruct j as [|j]; [done|]). lia.
  - intros [Hl H4]. split_and!; [apply (Hl 0%nat)|apply (Hl 1%nat)
      |apply (Hl 2%nat)|apply (Hl 3%nat)|done]; lia.
Qed.

(** The counts stay right when slot [i] goes from [p] to [q] and each count
    moves by what [p] and [q] contribute to it. *)
Lemma numProc_consistent_insert k i p q np' :
  numProc_consistent k →
  ptable_proc k !! i = Some p →
  (∀ j : nat, (j < 4)%nat →
     np_get j np' = np_get j (ptable_numProc k)
                    - (if decide (eligible (Z.of_nat j) p) then 1 else 0)
                    + (if decide (eligible (Z.of_nat j) q) then 1 else 0)) →
  np_get 4 np' = np_get 4 (ptable_numProc k)
                 - (if decide (monopolized p) then 1 else 0)
                 + (if decide (monopolized q) then 1 else 0) →
  numProc_consistent
    (set_numProc np' (set_ptable_proc (<[i := q]> (ptable_proc k)) k)).
Proof.
  intros [Hl H4]%numProc_consistent_levels Hi Hl' H4'.
  apply numProc_consistent_levels. simpl. split.
  - intros j Hj. unfold count_eligible.
    rewrite (filter_length_insert _ _ _ p q Hi), Hl', Hl by done. done.
  - unfold count_monopolized.
    rewrite (filter_length_insert _ _ _ p q Hi), H4', H4. done.
Qed.

Lemma count_eligible_bound l t i p :
  t !! i = Some p → ¬ eligible l p →
  0 <= count_eligible l t < Z.of_nat (length t).
Proof.
  intros Hi Hp. unfold count_eligible. split; [lia|].
  apply inj_lt. eapply (length_filter_lt _ _ p); [|done].
  by eapply list_elem_of_lookup_2.
Qed.

Lemma count_eligible_pos l t i p :
  t !! i = Some p → eligible l p → 0 < count_eligible l t.
Proof.
  intros Hi Hp. unfold count_eligible.
  assert (p ∈ filter (eligible l) t).
  { apply list_elem_of_filter. split; [done|by eapply list_elem_of_lookup_2]. }
  destruct (filter (eligible l) t); [by apply elem_of_nil in H|simpl; lia].
Qed.

Lemma eligible_level_nat j p :
  level_ok p → eligible (Z.of_nat j) p ↔
  state p = RUNNABLE ∧ j = Z.to_nat (level p) ∧ monopolize_flag p = 0.
Proof. unfold level_ok, eligible. intros Hl. split; intros (? & ? & ?); split_and!; try done; lia. Qed.

Lemma yield_keeps_counts_core (c : cpu_view) (k : kstate) (i : nat) (p : proc) :
  numProc_consistent k →
  length (ptable_numProc k) = 6%nat →
  Z.of_nat (length (ptable_proc k)) <= INT_MAX →
  myproc k = Some i →
  ptable_proc k !! i = Some p →
  state p = RUNNING →
  monopolize_flag p = 0 →
  level_ok p →
  ∃ k', yield c k = (sched_checks c ≫= λ _, Ok k')
    ∧ ptable_proc k' = <[i := set_state RUNNABLE p]> (ptable_proc k)
    ∧ cpu_proc k' = Some i
    ∧ numProc_consistent k'.
Proof.
  intros Hcons Hlen Hmax Hmy Hi Hst Hfl Hlv.
  assert (Hlt : (i < length (ptable_proc k))%nat) by (by eapply lookup_lt_Some).
  destruct Hlv as [Hl0 Hl3].
  set (k' := set_numProc (np_incr (Z.to_nat (level p)) (ptable_numProc k))
               (update_proc i (set_state RUNNABLE) k)).
  assert (Ht : ptable_proc k' = <[i := set_state RUNNABLE p]> (ptable_proc k)).
  { exact (alter_as_insert (set_state RUNNABLE) _ _ _ Hi). }
  assert (Hy : yield c k = sched c k').
  { unfold yield. rewrite Hmy. unfold nonnull. ok_bind.
    unfold deref. rewrite Hi. ok_bind. cbv zeta.
    unfold np_index. cbn [ptable_numProc update_proc set_ptable_proc].
    rewrite Hlen.
    assert ((0 <=? level p) && (level p <? Z.of_nat 6) = true) as ->.
    { apply andb_true_iff. split; [apply Z.leb_le|apply Z.ltb_lt]; lia. }
    reflexivity. }
  exists k'. split_and!.
  - rewrite Hy.
    apply (sched_not_running c k' (set_state RUNNABLE p)); [|done].
    assert (myproc k' = Some i) as -> by exact Hmy.
    unfold deref. rewrite Ht. by rewrite list_lookup_insert_eq.
  - exact Ht.
  - exact Hmy.
  - unfold k', update_proc. rewrite (alter_as_insert _ _ _ _ Hi).
    apply (numProc_consistent_insert k i p (set_state RUNNABLE p)); [done..| |].
    + intros j Hj.
      assert (Hnot : ¬ eligible (Z.of_nat j) p).
      { intros (Hs & _). congruence. }
      destruct (decide (eligible (Z.of_nat j) p)) as [He|_]; [by destruct Hnot|].
      destruct (decide (j = Z.to_nat (level p))) as [->|Hne].
      * rewrite decide_True by (unfold eligible; simpl; split_and!; [done|lia|done]).
        rewrite np_get_incr_eq by lia.
        apply numProc_consistent_levels in Hcons as [Hl _].
        rewrite (Hl _ Hj) in *.
        pose proof (count_eligible_bound _ _ _ _ Hi Hnot).
        rewrite wrap_small by (unfold INT_MIN, INT_MAX in *; lia). lia.
      * rewrite decide_False by (unfold eligible; simpl; intros (_ & ? & _); lia).
        rewrite np_get_incr_ne by done. lia.
    + rewrite np_get_incr_ne by lia.
      unfold monopolized. simpl. repeat case_decide; lia.
Qed.



Lemma count_eligible_zero l t q :
  count_eligible l t = 0 → q ∈ t → ¬ eligible l q.
Proof.
  intros H0 Hq He. apply list_elem_of_lookup_1 in Hq as [i Hi].
  pose proof (count_eligible_pos l t i q Hi He). lia.
Qed.

Lemma scheduler_branch_level_inv p np l :
  scheduler_branch p np = BrLevel l →
  monopolize_flag p = 0 ∧ level p = Z.of_nat l
  ∧ ((l = 0%nat ∧ np_get 0 np ≠ 0)
     ∨ (l = 1%nat ∧ np_get 0 np = 0 ∧ 0 < np_get 1 np)
     ∨ (l = 2%nat ∧ np_get 0 np = 0 ∧ np_get 1 np = 0 ∧ 0 < np_get 2 np)).
Proof.
  unfold scheduler_branch. intros H.
  destruct (monopolize_flag p =? 1); [done|].
  repeat match type of H with
         | (if ?b then _ else _) = _ => destruct b eqn:?; simplify_eq
         end;
    repeat match goal with
           | H : _ && _ = true |- _ => apply andb_true_iff in H as [? ?]
           | H : negb _ = true |- _ => apply negb_true_iff in H
           | H : (_ =? _) = true |- _ => apply Z.eqb_eq in H
           | H : (_ =? _) = false |- _ => apply Z.eqb_neq in H
           | H : (_ >? _) = true |- _ => apply Z.gtb_lt in H
           end;
    split_and!; try done; auto 10.
Qed.

(** With right counts, the scan takes the branch of level [l] only at a
    RUNNABLE, non-monopolized slot of level [l] and only when no process
    is eligible at a lower level; the hand-off state has the slot RUNNING
    and the counts right again. *)
Theorem level_branch_keeps_counts_and_precedence (swtch : kstate → kstate)
    (k : kstate) (i l : nat) (p : proc) :
  numProc_consistent k →
  length (ptable_numProc k) = 6%nat →
  Z.of_nat (length (ptable_proc k)) <= INT_MAX →
  ptable_proc k !! i = Some p →
  state p = RUNNABLE →
  scheduler_branch p (ptable_numProc k) = BrLevel l →
  level p = Z.of_nat l ∧ monopolize_flag p = 0 ∧ (l < 3)%nat
  ∧ (∀ q l', q ∈ ptable_proc k → 0 <= l' < Z.of_nat l → ¬ eligible l' q)
  ∧ scheduler_body swtch i k = Ok (i, set_cpu_proc None (swtch (dispatch l i k)))
  ∧ ptable_proc (dispatch l i k) = <[i := set_state RUNNING p]> (ptable_proc k)
  ∧ cpu_proc (dispatch l i k) = Some i
  ∧ numProc_consistent (dispatch l i k).
Proof.
  intros Hcons Hlen Hmax Hi Hst Hbr.
  destruct (scheduler_branch_level_inv _ _ _ Hbr) as (Hfl & Hlv & Hcase).
  pose proof Hcons as [Hl H4]%numProc_consistent_levels.
  assert (Hl3 : (l < 3)%nat) by (destruct Hcase as [[? _]|[[? _]|[? _]]]; lia).
  assert (Hel : eligible (Z.of_nat l) p) by (by unfold eligible).
  split_and!; try done.
  - intros q l' Hq Hl'.
    assert (Hz : count_eligible l' (ptable_proc k) = 0).
    { pose proof (Hl 0%nat ltac:(lia)) as E0.
      pose proof (Hl 1%nat ltac:(lia)) as E1.
      change (Z.of_nat 0) with 0 in E0. change (Z.of_nat 1) with 1 in E1.
      destruct Hcase as [[-> _]|[(-> & H0 & _)|(-> & H0 & H1 & _)]]; [lia| |].
      - assert (l' = 0) as -> by lia. lia.
      - assert (l' = 0 ∨ l' = 1) as [-> | ->] by lia; lia. }
    by eapply count_eligible_zero.
  - unfold scheduler_body, deref. rewrite Hi. simpl.
    unfold is_runnable. rewrite bool_decide_true by done. simpl.
    by rewrite Hbr.
  - simpl. by apply alter_as_insert.
  - unfold dispatch, update_proc. simpl. rewrite (alter_as_insert _ _ _ _ Hi).
    apply (numProc_consistent_insert k i p (set_state RUNNING p)); [done..| |].
    + intros j Hj.
      rewrite (decide_False (P := eligible (Z.of_nat j) (set_state RUNNING p)))
        by (intros (? & _); done).
      destruct (decide (j = l)) as [->|Hne].
      * rewrite decide_True by done. rewrite np_get_decr_eq by lia.
        rewrite (Hl l) by lia.
        pose proof (count_eligible_pos _ _ _ _ Hi Hel).
        assert (count_eligible (Z.of_nat l) (ptable_proc k)
                <= Z.of_nat (length (ptable_proc k))).
        { unfold count_eligible.
          pose proof (length_filter (eligible (Z.of_nat l)) (ptable_proc k)). lia. }
        rewrite wrap_small by (unfold INT_MIN, INT_MAX in *; lia). lia.
      * rewrite decide_False by (intros (_ & ? & _); lia).
        rewrite np_get_decr_ne by done. lia.
    + rewrite np_get_decr_ne by lia.
      unfold monopolized. simpl. repeat case_decide; lia.
Qed.

(** In [k_tick'] the counts are right and only level 2 has an eligible
    process, in slot 1: it is dispatched through the branch of level 2. *)
Lemma level_branch_keeps_counts_and_precedence_witness :
  level (mkProc RUNNABLE 3 None ChanNull 0 2 1 4 0) = Z.of_nat 2
  ∧ monopolize_flag (mkProc RUNNABLE 3 None ChanNull 0 2 1 4 0) = 0
  ∧ (2 < 3)%nat
  ∧ (∀ q l', q ∈ ptable_proc k_tick' → 0 <= l' < Z.of_nat 2 → ¬ eligible l' q)
  ∧ scheduler_body id 1 k_tick'
    = Ok (1%nat, set_cpu_proc None (id (dispatch 2 1 k_tick')))
  ∧ ptable_proc (dispatch 2 1 k_tick')
    = <[1%nat := set_state RUNNING (mkProc RUNNABLE 3 None ChanNull 0 2 1 4 0)]>
        (ptable_proc k_tick')
  ∧ cpu_proc (dispatch 2 1 k_tick') = Some 1%nat
  ∧ numProc_consistent (dispatch 2 1 k_tick').
Proof.
  apply (level_branch_keeps_counts_and_precedence id k_tick' 1%nat 2%nat
           (mkProc RUNNABLE 3 None ChanNull 0 2 1 4 0)).
  - apply (bool_decide_unpack _). by vm_compute.
  - reflexivity.
  - by vm_compute.
  - reflexivity.
  - reflexivity.
  - reflexivity.
Defined.

Ltac znat :=
  change (Z.of_nat 0) with 0 in *; change (Z.of_nat 1) with 1 in *;
  change (Z.of_nat 2) with 2 in *; change (Z.of_nat 3) with 3 in *.

(** With right counts, an eligible slot whose level has a non-empty level
    below it is not skipped: the scan takes its last branch there, as it
    does at level 3; at level 0 it never does. *)
Theorem last_branch_under_right_counts (k : kstate) (i : nat) (p : proc) :
  numProc_consistent k →
  ptable_proc k !! i = Some p →
  state p = RUNNABLE →
  monopolize_flag p = 0 →
  level_ok p →
  (scheduler_branch p (ptable_numProc k) = BrLast
   ↔ level p = 3
     ∨ ∃ l' : nat, Z.of_nat l' < level p
                   ∧ 0 < count_eligible (Z.of_nat l') (ptable_proc k))
  ∧ (scheduler_branch p (ptable_numProc k) ≠ BrLast →
     scheduler_branch p (ptable_numProc k) = BrLevel (Z.to_nat (level p))).
Proof.
  intros Hcons Hi Hst Hfl [Hl0 Hl3].
  pose proof Hcons as [Hl _]%numProc_consistent_levels.
  assert (Hel : eligible (level p) p) by (by unfold eligible).
  pose proof (count_eligible_pos _ _ _ _ Hi Hel) as Hpos.
  pose proof (Hl 0%nat ltac:(lia)) as H0. pose proof (Hl 1%nat ltac:(lia)) as H1.
  pose proof (Hl 2%nat ltac:(lia)) as H2.
  change (Z.of_nat 0) with 0 in H0. change (Z.of_nat 1) with 1 in H1.
  change (Z.of_nat 2) with 2 in H2.
  assert (Hnn : ∀ l, 0 <= count_eligible l (ptable_proc k))
    by (intros l; unfold count_eligible; lia).
  pose proof (Hnn 0) as Hn0. pose proof (Hnn 1) as Hn1.
  unfold scheduler_branch. rewrite Hfl. simpl.
  rewrite H0, H1, H2.
  assert (level p = 0 ∨ level p = 1 ∨ level p = 2 ∨ level p = 3)
    as [Hlv | [Hlv | [Hlv | Hlv]]] by lia; rewrite Hlv in *; simpl.
  - destruct (Z.eqb_spec (count_eligible 0 (ptable_proc k)) 0) as [E|E]; [lia|].
    simpl. split; [|done]. split; [done|].
    intros [?|(l' & ? & _)]; lia.
  - destruct (Z.eqb_spec (count_eligible 0 (ptable_proc k)) 0) as [E|E]; simpl.
    + destruct (Z.gtb_spec (count_eligible 1 (ptable_proc k)) 0); [|lia].
      simpl. split; [|done]. split; [done|].
      intros [?|(l' & Hlt & Hc)]; [lia|].
      assert (l' = 0%nat) as -> by lia. znat. lia.
    + rewrite ?andb_false_r. simpl. split; [|done]. split; [|done].
      intros _. right. exists 0%nat. znat. lia.
  - destruct (Z.eqb_spec (count_eligible 0 (ptable_proc k)) 0) as [E|E]; simpl.
    + destruct (Z.eqb_spec (count_eligible 1 (ptable_proc k)) 0) as [E1|E1]; simpl.
      * rewrite ?andb_false_r. simpl.
        destruct (Z.gtb_spec (count_eligible 2 (ptable_proc k)) 0); [|lia].
        simpl. split; [|done]. split; [done|].
        intros [?|(l' & Hlt & Hc)]; [lia|].
        assert (l' = 0%nat ∨ l' = 1%nat) as [-> | ->] by lia; znat; lia.
      * rewrite ?andb_false_r. simpl. split; [|done]. split; [|done].
        intros _. right. exists 1%nat. znat. lia.
    + rewrite ?andb_false_r. simpl. split; [|done]. split; [|done].
      intros _. right. exists 0%nat. znat. lia.
  - rewrite ?andb_false_r. simpl. split; [|done]. split; [|done]. auto.
Qed.

(** In [k_split] the counts are right: slot 0 is eligible at level 1 and
    slot 1 at level 0.  At slot 0 the scan takes its last branch. *)
Lemma last_branch_under_right_counts_witness :
  scheduler_branch (mkProc RUNNABLE 2 None ChanNull 0 1 0 0 0)
                   (ptable_numProc k_split) = BrLast
  ∧ scheduler_body id 0 k_split
    = Ok (0%nat,
          mkKstate [ mkProc RUNNING 2 None ChanNull 0 1 0 0 0;
                     mkProc RUNNABLE 3 None ChanNull 0 0 0 0 0 ]
                   [1; 1; 0; -1; 0; 0] None 7 4).
Proof.
  destruct (last_branch_under_right_counts k_split 0%nat
              (mkProc RUNNABLE 2 None ChanNull 0 1 0 0 0)) as [Hiff _].
  - apply (bool_decide_unpack _). by vm_compute.
  - reflexivity.
  - reflexivity.
  - reflexivity.
  - by vm_compute.
  - split; [|reflexivity]. apply Hiff. right. exists 0%nat.
    split; by vm_compute.
Defined.

Lemma boost_count_get_high np p (j : nat) :
  (4 <= j)%nat → np_get j (boost_count np p) = np_get j np.
Proof.
  intros Hj. unfold boost_count.
  destruct (_ && _ && _); [by rewrite np_get_incr_ne by lia|].
  destruct (is_runnable p && ((level p =? 1) || (level p =? 2) || (level p =? 3))
            && (monopolize_flag p =? 0)) eqn:Hb; [|done].
  apply andb_true_iff in Hb as [Hb _]. apply andb_true_iff in Hb as [_ Hb].
  assert (1 <= level p <= 3).
  { apply orb_true_iff in Hb as [Hb|Hb]; [apply orb_true_iff in Hb as [Hb|Hb]|];
      apply Z.eqb_eq in Hb; lia. }
  rewrite np_get_decr_ne by lia. by rewrite np_get_incr_ne by lia.
Qed.

Lemma boost_fold_get_high np t (j : nat) :
  (4 <= j)%nat → np_get j (foldl boost_count np t) = np_get j np.
Proof.
  intros Hj. revert np. induction t as [|p t IH]; intros np; [done|].
  simpl. by rewrite IH, boost_count_get_high.
Qed.

Lemma count_eligible_boost l t :
  count_eligible l (boost_proc <$> t)
  = if decide (l = 0) then count_ready t else 0.
Proof.
  unfold count_eligible, count_ready.
  induction t as [|p t IH]; [by case_decide|].
  rewrite fmap_cons, !filter_cons.
  destruct (decide (l = 0)) as [->|Hne].
  - destruct (decide (ready p)) as [[Hs Hm]|Hr].
    + rewrite decide_True by (by unfold eligible). simpl length. lia.
    + rewrite decide_False; [done|]. intros (Hs & _ & Hm). by apply Hr.
  - rewrite decide_False; [done|]. intros (_ & Hl & _). simpl in Hl. lia.
Qed.

Lemma count_monopolized_boost t :
  count_monopolized (boost_proc <$> t) = count_monopolized t.
Proof.
  unfold count_monopolized. f_equal.
  induction t as [|p t IH]; [done|].
  rewrite fmap_cons, !filter_cons.
  destruct (decide (monopolized p)) as [Hm|Hm].
  - rewrite decide_True by exact Hm. simpl. by rewrite IH.
  - by rewrite decide_False by exact Hm.
Qed.

Lemma count_ready_le t : 0 <= count_ready t <= Z.of_nat (length t).
Proof. unfold count_ready. pose proof (length_filter ready t). lia. Qed.

Lemma count_eligible_le l t : 0 <= count_eligible l t <= Z.of_nat (length t).
Proof. unfold count_eligible. pose proof (length_filter (eligible l) t). lia. Qed.

Lemma priority_boosting_counts k :
  Forall level_ok (ptable_proc k) →
  length (ptable_numProc k) = 6%nat →
  Z.of_nat (length (ptable_proc k)) <= INT_MAX →
  (∀ j : nat, (1 <= j <= 3)%nat →
     np_get j (ptable_numProc k) = count_eligible (Z.of_nat j) (ptable_proc k)) →
  np_get 4 (ptable_numProc k) = count_monopolized (ptable_proc k) →
  numProc_consistent (priority_boosting k)
  ∧ ptable_proc (priority_boosting k) = boost_proc <$> ptable_proc k
  ∧ np_get 0 (ptable_numProc (priority_boosting k)) = count_ready (ptable_proc k)
  ∧ ∀ j : nat, (1 <= j <= 3)%nat →
      np_get j (ptable_numProc (priority_boosting k)) = 0.
Proof.
  intros Hlv Hlen Hmax Hl H4.
  unfold priority_boosting. rewrite boost_loop_fold. simpl.
  assert (H0' : np_get 0 (foldl boost_count (<[0%nat:=0]> (ptable_numProc k))
                                (ptable_proc k))
                = count_ready (ptable_proc k)).
  { rewrite boost_fold_get_0.
    - unfold np_get. rewrite list_lookup_insert_eq by lia. simpl. lia.
    - rewrite length_insert. lia.
    - done.
    - unfold np_get. rewrite list_lookup_insert_eq by lia. simpl. lia.
    - unfold np_get. rewrite list_lookup_insert_eq by lia. simpl. lia. }
  assert (Hl' : ∀ j : nat, (1 <= j <= 3)%nat →
            np_get j (foldl boost_count (<[0%nat:=0]> (ptable_numProc k))
                            (ptable_proc k)) = 0).
  { intros j Hj. rewrite boost_fold_get_level.
    - unfold np_get at 1. rewrite list_lookup_insert_ne by lia.
      fold (np_get j (ptable_numProc k)). rewrite Hl by done.
      rewrite Z.sub_diag. by vm_compute.
    - done.
    - rewrite length_insert. lia.
    - unfold np_get. rewrite list_lookup_insert_ne by lia.
      fold (np_get j (ptable_numProc k)). rewrite Hl by done.
      pose proof (count_eligible_le (Z.of_nat j) (ptable_proc k)).
      unfold int_range, INT_MIN, INT_MAX in *. lia. }
  split_and!; [|done|done|done].
  apply numProc_consistent_levels. simpl. split.
  - intros j Hj. rewrite count_eligible_boost.
    destruct j as [|j]; [by rewrite decide_True|].
    rewrite decide_False by lia. apply Hl'. lia.
  - rewrite boost_fold_get_high by lia.
    unfold np_get. rewrite list_lookup_insert_ne by lia.
    fold (np_get 4 (ptable_numProc k)). by rewrite H4, count_monopolized_boost.
Qed.

(** [priority_boosting] leaves the counts right when those of levels 1 to
    3 and of the monopolized slot were: whatever [numProc[0]] held, it
    becomes the number of RUNNABLE, non-monopolized processes, and the
    counts of levels 1 to 3 become 0. *)
Theorem boosting_restores_counts (k : kstate) :
  Forall level_ok (ptable_proc k) →
  length (ptable_numProc k) = 6%nat →
  Z.of_nat (length (ptable_proc k)) <= INT_MAX →
  (∀ j : nat, (1 <= j <= 3)%nat →
     np_get j (ptable_numProc k) = count_eligible (Z.of_nat j) (ptable_proc k)) →
  np_get 4 (ptable_numProc k) = count_monopolized (ptable_proc k) →
  numProc_consistent (priority_boosting k)
  ∧ ptable_proc (priority_boosting k) = boost_proc <$> ptable_proc k
  ∧ np_get 0 (ptable_numProc (priority_boosting k)) = count_ready (ptable_proc k)
  ∧ ∀ j : nat, (1 <= j <= 3)%nat →
      np_get j (ptable_numProc (priority_boosting k)) = 0.
Proof. apply priority_boosting_counts. Qed.

(** [k_stale0] has a wrong [numProc[0]] (7 for one eligible process at
    level 0) and right counts elsewhere. *)
Lemma boosting_restores_counts_witness :
  numProc_consistent (priority_boosting k_stale0)
  ∧ ptable_proc (priority_boosting k_stale0) = boost_proc <$> ptable_proc k_stale0
  ∧ np_get 0 (ptable_numProc (priority_boosting k_stale0))
    = count_ready (ptable_proc k_stale0)
  ∧ ∀ j : nat, (1 <= j <= 3)%nat →
      np_get j (ptable_numProc (priority_boosting k_stale0)) = 0.
Proof.
  apply (boosting_restores_counts k_stale0).
  - repeat constructor; by vm_compute.
  - reflexivity.
  - by vm_compute.
  - intros j Hj.
    assert (j = 1 ∨ j = 2 ∨ j = 3)%nat as [-> | [-> | ->]] by lia; by vm_compute.
  - by vm_compute.
Defined.

Lemma wakeup_no_sleeper c k :
  no_sleeper c (ptable_proc k) → wakeup c k = k.
Proof.
  intros Hno. unfold wakeup, wakeup1.
  assert (wakeup1_proc c <$> ptable_proc k = ptable_proc k) as ->.
  { rewrite <- (list_fmap_id (ptable_proc k)) at 2.
    apply Forall_fmap_ext_1. eapply Forall_impl; [exact Hno|].
    intros p Hp. simpl. unfold wakeup1_proc.
    destruct (bool_decide (state p = SLEEPING)) eqn:Hs; [|done].
    destruct (bool_decide (chan p = c)) eqn:Hc; [|done].
    apply bool_decide_eq_true in Hs, Hc. by destruct Hp. }
  by destruct k.
Qed.

Lemma numProc_consistent_ext k k' :
  ptable_proc k' = ptable_proc k → ptable_numProc k' = ptable_numProc k →
  numProc_consistent k → numProc_consistent k'.
Proof. unfold numProc_consistent. by intros -> ->. Qed.

(** A change of slot [i] that leaves it neither eligible nor monopolized
    differently keeps the counts right. *)
Lemma numProc_consistent_alter_running k i p f :
  numProc_consistent k →
  ptable_proc k !! i = Some p →
  state p = RUNNING → state (f p) = RUNNING →
  monopolize_flag (f p) = monopolize_flag p →
  numProc_consistent (update_proc i f k).
Proof.
  intros Hcons Hi Hs Hs' Hm.
  eapply (numProc_consistent_ext
            (set_numProc (ptable_numProc k)
               (set_ptable_proc (<[i := f p]> (ptable_proc k)) k))).
  - simpl. by apply alter_as_insert.
  - done.
  - apply (numProc_consistent_insert k i p (f p)); [done|done| |].
    + intros j Hj.
      rewrite !decide_False; [lia| |]; intros (? & _); congruence.
    + repeat case_decide; unfold monopolized in *; try lia; congruence.
Qed.

(** A timer interrupt on CPU 0 taken by a RUNNING process that is not
    monopolized (and is not to be killed), when nobody sleeps on [&ticks]:
    the handler runs through the timer case to [yield] and stops only at a
    panic of the tests [sched] makes of the lock and the CPU; when
    [ptable.lock] is held, interrupts are off and [ncli] is 1 it reaches
    the hand-off.  The state handed off has the process RUNNABLE, and the
    counts of [numProc], right before, are right in it, whether the tick
    ages the process or boosts the table. *)
Theorem timer_interrupt_keeps_counts (initproc : option nat) (user : bool)
    (c : cpu_view) (k : kstate) (i : nat) (p : proc) :
  numProc_consistent k →
  length (ptable_numProc k) = 6%nat →
  Z.of_nat (length (ptable_proc k)) <= INT_MAX →
  Forall fields_ok (ptable_proc k) →
  no_sleeper ChanTicks (ptable_proc k) →
  myproc k = Some i →
  ptable_proc k !! i = Some p →
  state p = RUNNING →
  monopolize_flag p = 0 →
  killed p = 0 ∨ user = false →
  ∃ k' q,
    trap_timer_irq initproc 0 user c k = (sched_checks c ≫= λ _, Ok k')
    ∧ (handoff_ok c → trap_timer_irq initproc 0 user c k = Ok k')
    ∧ (¬ handoff_ok c →
       ∃ msg, trap_timer_irq initproc 0 user c k = Panic msg
              ∧ (msg = "sched ptable.lock" ∨ msg = mycpu_msg
                 ∨ msg = "sched locks"))
    ∧ numProc_consistent k'
    ∧ ptable_proc k' !! i = Some q
    ∧ state q = RUNNABLE
    ∧ (q = set_state RUNNABLE (age p) ∨ q = set_state RUNNABLE (boost_proc p)).
Proof.
  intros Hcons Hlen Hmax Hok Hno Hmy Hi Hst Hfl Hkill.
  assert (Hkill' : ∀ q, killed q = killed p → negb (killed q =? 0) && user = false).
  { intros q Hq. rewrite Hq. destruct Hkill as [-> | ->]; [done|].
    by rewrite andb_false_r. }
  assert (Hpok : fields_ok p) by (rewrite Forall_lookup in Hok; by eapply Hok).
  destruct (Z.eq_dec (wrapu (ticks k + 1)) 100) as [Hb|Hnb].
  - (* the boost *)
    assert (Hrun : trap_timer 0 k = Ok (priority_boosting (set_ticks 0 k))).
    { unfold trap_timer. rewrite Z.eqb_refl, Hb. simpl.
      by rewrite wakeup_no_sleeper. }
    set (k1 := priority_boosting (set_ticks 0 k)).
    destruct (priority_boosting_counts (set_ticks 0 k)) as (Hc1 & Ht1 & _ & _).
    { eapply Forall_impl; [exact Hok|]. by intros q (? & _). }
    { done. }
    { done. }
    { intros j Hj. apply numProc_consistent_levels in Hcons as [Hl _].
      apply Hl. lia. }
    { by apply numProc_consistent_levels in Hcons as [_ H4]. }
    assert (Hmy1 : myproc k1 = Some i).
    { unfold k1, priority_boosting. by destruct (boost_loop _ _). }
    assert (Hi1 : ptable_proc k1 !! i = Some (boost_proc p)).
    { fold k1 in Ht1. rewrite Ht1. simpl. by rewrite list_lookup_fmap, Hi. }
    assert (Hirq : trap_timer_irq initproc 0 user c k = yield c k1).
    { unfold trap_timer_irq. rewrite Hrun. fold k1. ok_bind.
      rewrite Hmy1. unfold deref. rewrite Hi1. ok_bind.
      rewrite Hkill' by done. cbv iota.
      change (state (boost_proc p)) with (state p).
      by rewrite Hst, bool_decide_true by done. }
    destruct (yield_keeps_counts_core c k1 i (boost_proc p))
      as (k' & Hy & Ht' & _ & Hc'); try done.
    + unfold k1, priority_boosting. rewrite boost_loop_fold. simpl.
      by rewrite length_foldl_boost_count, length_insert.
    + fold k1 in Ht1. rewrite Ht1. simpl. by rewrite length_fmap.
    + rewrite <- Hirq in Hy.
      destruct (via_sched_checks c _ _ Hy) as [Hgo Hstop].
      exists k', (set_state RUNNABLE (boost_proc p)).
      split_and!; [done|done|done|done| |done|by right].
      rewrite Ht'. apply list_lookup_insert_eq. by eapply lookup_lt_Some.
  - (* the aging *)
    set (k1 := update_proc i age (set_ticks (wrapu (ticks k + 1)) k)).
    assert (Hrun : trap_timer 0 k = Ok k1).
    { rewrite (trap_timer_aging k i p) by done.
      by rewrite wakeup_no_sleeper. }
    destruct (age_monotone p Hpok) as (_ & _ & Has & _ & Haf).
    assert (Hi1 : ptable_proc k1 !! i = Some (age p)).
    { simpl. by rewrite list_lookup_alter_eq, Hi. }
    assert (Hc1 : numProc_consistent k1).
    { apply (numProc_consistent_alter_running _ i p); try done; congruence. }
    assert (Hmy1 : myproc k1 = Some i) by exact Hmy.
    assert (Hirq : trap_timer_irq initproc 0 user c k = yield c k1).
    { unfold trap_timer_irq. rewrite Hrun. ok_bind.
      rewrite Hmy1. unfold deref. rewrite Hi1. ok_bind.
      rewrite Hkill' by (rewrite age_unfold by (apply fields_ok_ranges, Hpok);
                         repeat case_match; done).
      cbv iota. by rewrite Has, Hst, bool_decide_true by done. }
    destruct (yield_keeps_counts_core c k1 i (age p))
      as (k' & Hy & Ht' & _ & Hc'); try done.
    + simpl. by rewrite length_alter.
    + congruence.
    + congruence.
    + by destruct (age_fields_ok p Hpok).
    + rewrite <- Hirq in Hy.
      destruct (via_sched_checks c _ _ Hy) as [Hgo Hstop].
      exists k', (set_state RUNNABLE (age p)).
      split_and!; [done|done|done|done| |done|by left].
      rewrite Ht'. apply list_lookup_insert_eq. by eapply lookup_lt_Some.
Qed.

(** In [k_run] slot 0 runs at level 3 and has used 7 of its 8 ticks, slot
    1 is eligible at level 2 and counted, slot 2 sleeps on a disk
    buffer.  The tick demotes slot 0 by one unit of priority and leaves it
    RUNNABLE, counted at level 3. *)
Lemma timer_interrupt_keeps_counts_witness :
  ∃ k' q, trap_timer_irq None 0 true cpu_handoff k_run = Ok k'
    ∧ numProc_consistent k'
    ∧ ptable_proc k' !! 0%nat = Some q
    ∧ state q = RUNNABLE
    ∧ (q = set_state RUNNABLE (age (mkProc RUNNING 2 None ChanNull 0 3 7 5 0))
       ∨ q = set_state RUNNABLE
               (boost_proc (mkProc RUNNING 2 None ChanNull 0 3 7 5 0))).
Proof.
  destruct (timer_interrupt_keeps_counts None true cpu_handoff k_run 0%nat
              (mkProc RUNNING 2 None ChanNull 0 3 7 5 0))
    as (k' & q & _ & Hgo & _ & Hc & Hq & Hs & Hor).
  - apply (bool_decide_unpack _). by vm_compute.
  - reflexivity.
  - by vm_compute.
  - repeat constructor; by vm_compute.
  - repeat constructor; simpl; by intros [? ?].
  - reflexivity.
  - reflexivity.
  - reflexivity.
  - reflexivity.
  - by left.
  - exists k', q. split_and!; [|done..].
    apply Hgo. by split_and!.
Defined.




(** *** exit and wait *)

Lemma wakeup1_proc_parent c p : parent (wakeup1_proc c p) = parent p.
Proof. unfold wakeup1_proc. by case_match. Qed.

Lemma wakeup1_proc_pid c p : pid (wakeup1_proc c p) = pid p.
Proof. unfold wakeup1_proc. by case_match. Qed.

Lemma wakeup1_proc_zombie c p :
  state (wakeup1_proc c p) = ZOMBIE ↔ state p = ZOMBIE.
Proof.
  unfold wakeup1_proc.
  destruct (bool_decide (state p = SLEEPING)) eqn:Hs; simpl; [|done].
  apply bool_decide_eq_true in Hs.
  destruct (bool_decide (chan p = c)); simpl; [|done].
  rewrite Hs. done.
Qed.

Lemma wakeup1_proc_set_parent c ip p :
  wakeup1_proc c (set_parent ip p) = set_parent ip (wakeup1_proc c p).
Proof. unfold wakeup1_proc. simpl. by case_match. Qed.

Lemma wakeup1_proc_state c p :
  state (wakeup1_proc c p) = state p
  ∨ (state p = SLEEPING ∧ chan p = c ∧ state (wakeup1_proc c p) = RUNNABLE).
Proof.
  unfold wakeup1_proc.
  destruct (bool_decide (state p = SLEEPING)) eqn:Hs; simpl; [|by left].
  destruct (bool_decide (chan p = c)) eqn:Hc; simpl; [|by left].
  apply bool_decide_eq_true in Hs, Hc. by right.
Qed.

Lemma wakeup1_proc_wakes c p :
  state p = SLEEPING → chan p = c → state (wakeup1_proc c p) = RUNNABLE.
Proof.
  intros Hs Hc. unfold wakeup1_proc.
  by rewrite !bool_decide_true by done.
Qed.

Lemma exit_loop_table_0 cur ip t : exit_loop_table cur ip 0 t = t.
Proof.
  unfold exit_loop_table. apply list_eq. intros j.
  rewrite list_lookup_imap. by destruct (t !! j) as [p|].
Qed.

Lemma exit_loop_table_S cur ip m t pm :
  t !! m = Some pm →
  exit_loop_table cur ip (S m) t
  = if bool_decide (parent pm = Some cur) then
      let t1 := alter (set_parent ip) m (exit_loop_table cur ip m t) in
      if bool_decide (state pm = ZOMBIE)
      then wakeup1_proc (chan_of ip) <$> t1 else t1
    else exit_loop_table cur ip m t.
Proof.
  intros Hm.
  assert (Hex : Exists (zombie_child cur) (take (S m) t)
                ↔ Exists (zombie_child cur) (take m t) ∨ zombie_child cur pm).
  { rewrite (take_S_r _ _ _ Hm), Exists_app, Exists_cons, Exists_nil. tauto. }
  apply list_eq. intros j.
  assert (Hlk : ∀ m', exit_loop_table cur ip m' t !! j
     = (λ p, let p1 := if bool_decide ((j < m')%nat ∧ parent p = Some cur)
                       then set_parent ip p else p in
             if bool_decide (Exists (zombie_child cur) (take m' t))
             then wakeup1_proc (chan_of ip) p1 else p1) <$> t !! j).
  { intros m'. unfold exit_loop_table. by rewrite list_lookup_imap. }
  destruct (bool_decide (parent pm = Some cur)) eqn:Hpar.
  - apply bool_decide_eq_true in Hpar. cbv zeta.
    destruct (bool_decide (state pm = ZOMBIE)) eqn:Hz.
    + apply bool_decide_eq_true in Hz.
      assert (HT : bool_decide (Exists (zombie_child cur) (take (S m) t)) = true).
      { apply bool_decide_eq_true, Hex. by right. }
      rewrite list_lookup_fmap.
      destruct (decide (j = m)) as [->|Hne].
      * rewrite list_lookup_alter_eq, !Hlk, Hm, HT. simpl.
        rewrite (bool_decide_true (_ ∧ _)) by (split; [lia|done]).
        rewrite (bool_decide_false (_ ∧ _)) by lia.
        f_equal. rewrite !wakeup1_proc_set_parent.
        destruct (bool_decide (Exists (zombie_child cur) (take m t))); [|done].
        by rewrite wakeup1_proc_idemp.
      * rewrite list_lookup_alter_ne by done. rewrite !Hlk, HT.
        destruct (t !! j) as [p|]; simpl; [|done]. f_equal.
        assert (bool_decide ((j < S m)%nat ∧ parent p = Some cur)
                = bool_decide ((j < m)%nat ∧ parent p = Some cur)) as ->.
        { apply bool_decide_ext. split; intros [? ?]; (split; [lia|done]). }
        destruct (bool_decide (Exists (zombie_child cur) (take m t))); [|done].
        by rewrite wakeup1_proc_idemp.
    + apply bool_decide_eq_false in Hz.
      assert (bool_decide (Exists (zombie_child cur) (take (S m) t))
              = bool_decide (Exists (zombie_child cur) (take m t))) as Hsame.
      { apply bool_decide_ext. rewrite Hex. unfold zombie_child. tauto. }
      destruct (decide (j = m)) as [->|Hne].
      * rewrite list_lookup_alter_eq, !Hlk, Hm, Hsame. simpl.
        rewrite (bool_decide_true (_ ∧ _)) by (split; [lia|done]).
        rewrite (bool_decide_false (_ ∧ _)) by lia.
        destruct (bool_decide (Exists (zombie_child cur) (take m t))); [|done].
        by rewrite wakeup1_proc_set_parent.
      * rewrite list_lookup_alter_ne by done. rewrite !Hlk, Hsame.
        destruct (t !! j) as [p|]; simpl; [|done]. f_equal.
        assert (bool_decide ((j < S m)%nat ∧ parent p = Some cur)
                = bool_decide ((j < m)%nat ∧ parent p = Some cur)) as ->.
        { apply bool_decide_ext. split; intros [? ?]; (split; [lia|done]). }
        done.
  - apply bool_decide_eq_false in Hpar.
    assert (bool_decide (Exists (zombie_child cur) (take (S m) t))
            = bool_decide (Exists (zombie_child cur) (take m t))) as Hsame.
    { apply bool_decide_ext. rewrite Hex. unfold zombie_child. tauto. }
    rewrite !Hlk, Hsame.
    destruct (t !! j) as [p|] eqn:Hj; simpl; [|done]. f_equal.
    assert (bool_decide ((j < S m)%nat ∧ parent p = Some cur)
            = bool_decide ((j < m)%nat ∧ parent p = Some cur)) as ->; [|done].
    apply bool_decide_ext. split; intros [? ?]; split; try done; try lia.
    destruct (decide (j = m)) as [->|]; [|lia]. congruence.
Qed.

(** The loop of [exit] in closed form. *)
Lemma exit_loop_prefix cur ip k m :
  (m ≤ length (ptable_proc k))%nat →
  foldl (exit_reparent_step cur ip) k (seq 0 m)
  = set_ptable_proc (exit_loop_table cur ip m (ptable_proc k)) k.
Proof.
  induction m as [|m IH]; intros Hm.
  - simpl. rewrite exit_loop_table_0. by destruct k.
  - rewrite seq_S, foldl_app. simpl. rewrite IH by lia.
    destruct (lookup_lt_is_Some_2 (ptable_proc k) m) as [pm Hpm]; [lia|].
    rewrite (exit_loop_table_S _ _ _ _ _ Hpm).
    unfold exit_reparent_step. simpl.
    unfold exit_loop_table at 1. rewrite list_lookup_imap, Hpm. simpl.
    rewrite (bool_decide_false (_ ∧ _)) by lia.
    set (w := bool_decide (Exists (zombie_child cur) (take m (ptable_proc k)))).
    assert (Hp : parent (if w then wakeup1_proc (chan_of ip) pm else pm)
                 = parent pm).
    { destruct w; [apply wakeup1_proc_parent|done]. }
    assert (Hs : state (if w then wakeup1_proc (chan_of ip) pm else pm) = ZOMBIE
                 ↔ state pm = ZOMBIE).
    { destruct w; [apply wakeup1_proc_zombie|done]. }
    rewrite Hp.
    destruct (bool_decide (parent pm = Some cur)); [|done].
    rewrite (bool_decide_ext _ _ Hs).
    by destruct (bool_decide (state pm = ZOMBIE)).
Qed.

Lemma Exists_zombie_child_wakeup cur c t :
  Exists (zombie_child cur) (wakeup1_proc c <$> t)
  ↔ Exists (zombie_child cur) t.
Proof.
  induction t as [|p t IH]; simpl; [by rewrite !Exists_nil|].
  rewrite !Exists_cons, IH. unfold zombie_child.
  by rewrite wakeup1_proc_parent, wakeup1_proc_zombie.
Qed.

Lemma exit_slot_state_cur cur ip c z p :
  state (exit_slot cur ip c z cur p) = ZOMBIE.
Proof.
  unfold exit_slot.
  destruct (bool_decide (cur = cur)) eqn:E; [done|].
  by apply bool_decide_eq_false in E.
Qed.

(** [exit] in closed form: it stops only at the tests [sched] makes of the
    lock and the CPU, and in the state it hands off every slot has changed
    by [exit_slot]. *)
Lemma exit_closed_form ip cv k cur c :
  myproc k = Some cur →
  ip ≠ Some cur →
  ptable_proc k !! cur = Some c →
  exit ip cv k
  = (sched_checks cv ≫= λ _,
     Ok (set_ptable_proc
           (imap (exit_slot cur ip c
                    (bool_decide (Exists (zombie_child cur) (ptable_proc k))))
                 (ptable_proc k)) k)).
Proof.
  intros Hmy Hip Hc. unfold exit.
  rewrite bool_decide_false by (rewrite Hmy; congruence).
  rewrite Hmy. simpl. unfold deref. rewrite Hc. simpl.
  set (k1 := wakeup1 (chan_of (parent c)) k).
  rewrite (exit_loop_prefix cur ip k1) by done.
  assert (Hlt : (cur < length (ptable_proc k))%nat) by (by eapply lookup_lt_Some).
  set (t2 := exit_loop_table cur ip (length (ptable_proc k1)) (ptable_proc k1)).
  assert (Ht2 : alter (set_state ZOMBIE) cur t2
    = imap (exit_slot cur ip c
              (bool_decide (Exists (zombie_child cur) (ptable_proc k))))
           (ptable_proc k)).
  { assert (Hb : ∀ j p, (j < length (ptable_proc k))%nat →
      bool_decide ((j < length (wakeup1_proc (chan_of (parent c))
                                  <$> ptable_proc k))%nat
                   ∧ parent (wakeup1_proc (chan_of (parent c)) p) = Some cur)
      = bool_decide (parent p = Some cur)).
    { intros j p Hj. apply bool_decide_ext. simpl.
      rewrite length_fmap, wakeup1_proc_parent.
      split; [by intros [_ ?]|by split]. }
    apply list_eq. intros j. unfold t2, exit_loop_table.
    change (ptable_proc k1)
      with (wakeup1_proc (chan_of (parent c)) <$> ptable_proc k).
    rewrite firstn_all.
    rewrite (bool_decide_ext _ _ (Exists_zombie_child_wakeup cur _ _)).
    rewrite list_lookup_imap.
    destruct (decide (j = cur)) as [->|Hne].
    - rewrite list_lookup_alter_eq, list_lookup_imap.
      rewrite list_lookup_fmap, Hc.
      cbn [fmap option_fmap option_map]. f_equal. unfold exit_slot.
      rewrite Hb by done.
      by rewrite (bool_decide_true (cur = cur)) by done.
    - rewrite list_lookup_alter_ne by done.
      rewrite list_lookup_imap.
      rewrite list_lookup_fmap.
      destruct (ptable_proc k !! j) as [p|] eqn:Hj;
        cbn [fmap option_fmap option_map]; [|done].
      f_equal. unfold exit_slot.
      rewrite Hb by (by eapply lookup_lt_Some).
      by rewrite (bool_decide_false (j = cur)) by done. }
  assert (Hk : update_proc cur (set_state ZOMBIE) (set_ptable_proc t2 k1)
    = set_ptable_proc
        (imap (exit_slot cur ip c
                 (bool_decide (Exists (zombie_child cur) (ptable_proc k))))
              (ptable_proc k)) k).
  { unfold update_proc. change (ptable_proc (set_ptable_proc t2 k1)) with t2.
    rewrite Ht2. reflexivity. }
  match goal with
  | |- sched _ ?x = _ =>
      change x with (update_proc cur (set_state ZOMBIE) (set_ptable_proc t2 k1))
  end.
  rewrite Hk.
  apply (sched_not_running cv _
           (exit_slot cur ip c
              (bool_decide (Exists (zombie_child cur) (ptable_proc k))) cur c)).
  - assert (myproc (set_ptable_proc
        (imap (exit_slot cur ip c
                 (bool_decide (Exists (zombie_child cur) (ptable_proc k))))
              (ptable_proc k)) k) = Some cur) as -> by exact Hmy.
    unfold deref. cbn [ptable_proc set_ptable_proc].
    by rewrite list_lookup_imap, Hc.
  - by rewrite exit_slot_state_cur.
Qed.

Lemma exit_slot_pid cur ip c z i p : pid (exit_slot cur ip c z i p) = pid p.
Proof.
  unfold exit_slot.
  repeat (case_match; simpl); rewrite ?wakeup1_proc_pid; simpl;
    by rewrite ?wakeup1_proc_pid.
Qed.

Lemma exit_slot_parent cur ip c z i p :
  parent (exit_slot cur ip c z i p)
  = if decide (parent p = Some cur) then ip else parent p.
Proof.
  unfold exit_slot.
  destruct (decide (parent p = Some cur)) as [Hp|Hp].
  - rewrite (bool_decide_true _ Hp).
    repeat (case_match; simpl); by rewrite ?wakeup1_proc_parent.
  - rewrite (bool_decide_false _ Hp).
    repeat (case_match; simpl); by rewrite ?wakeup1_proc_parent.
Qed.

(** The state of another slot after [exit]: awake if it slept on the
    parent of the caller, or on [initproc] with a ZOMBIE handed over. *)
Lemma exit_slot_state_other cur ip c z i p :
  i ≠ cur →
  state (exit_slot cur ip c z i p)
  = if bool_decide (state p = SLEEPING
                    ∧ (chan p = chan_of (parent c)
                       ∨ (chan p = chan_of ip ∧ z = true)))
    then RUNNABLE else state p.
Proof.
  intros Hne. unfold exit_slot. rewrite (bool_decide_false _ Hne).
  assert (Hsp : ∀ q, (if bool_decide (parent p = Some cur)
                      then set_parent ip q else q)
                     = (if bool_decide (parent p = Some cur)
                        then set_parent ip q else q)) by done.
  assert (Hst : ∀ q, state (if bool_decide (parent p = Some cur)
                            then set_parent ip q else q) = state q)
    by (intros q; by case_match).
  assert (Hch : ∀ q, chan (if bool_decide (parent p = Some cur)
                           then set_parent ip q else q) = chan q)
    by (intros q; by case_match).
  clear Hsp.
  destruct (decide (state p = SLEEPING)) as [Hs|Hs].
  - destruct (decide (chan p = chan_of (parent c))) as [Hc|Hc].
    + rewrite (bool_decide_true (_ ∧ _)) by auto.
      assert (state (wakeup1_proc (chan_of (parent c)) p) = RUNNABLE) as H1
        by (by apply wakeup1_proc_wakes).
      destruct z; [|by rewrite Hst].
      unfold wakeup1_proc at 1. rewrite Hst, H1.
      rewrite (bool_decide_false (RUNNABLE = SLEEPING)) by done. simpl.
      by rewrite Hst.
    + assert (wakeup1_proc (chan_of (parent c)) p = p) as H1.
      { unfold wakeup1_proc. by rewrite (bool_decide_false _ Hc), andb_false_r. }
      rewrite H1. destruct z.
      * unfold wakeup1_proc. rewrite Hst, Hch.
        rewrite (bool_decide_true _ Hs). simpl.
        destruct (decide (chan p = chan_of ip)) as [Hi|Hi].
        -- rewrite (bool_decide_true _ Hi). by rewrite (bool_decide_true (_ ∧ _)) by auto.
        -- rewrite (bool_decide_false _ Hi), Hst.
           rewrite (bool_decide_false (_ ∧ _)); [done|]. intros (_ & [?|[? _]]); done.
      * rewrite Hst. rewrite (bool_decide_false (_ ∧ _)); [done|].
        intros (_ & [?|[_ ?]]); done.
  - rewrite (bool_decide_false (_ ∧ _)) by (by intros [? _]).
    assert (wakeup1_proc (chan_of (parent c)) p = p) as H1.
    { unfold wakeup1_proc. by rewrite (bool_decide_false _ Hs). }
    rewrite H1. destruct z; [|by rewrite Hst].
    unfold wakeup1_proc. rewrite Hst, (bool_decide_false _ Hs). simpl.
    by rewrite Hst.
Qed.

(** [exit] by [initproc] stops with the panic [init exiting].  By any other
    process it stops only at a panic of the tests [sched] makes of the lock
    and the CPU, never at [sched running]; when [ptable.lock] is held,
    interrupts are off and [ncli] is 1 it reaches the hand-off.  The state
    handed off has the caller ZOMBIE, every child of the caller with
    [initproc] as parent, so that no slot names the caller as parent, and
    every other parent, every pid and [numProc] as they were; of the other
    slots only sleepers have changed state, to RUNNABLE. *)
Theorem exit_leaves_zombie_and_no_orphans (ip : option nat) (cv : cpu_view)
    (k : kstate) (cur : nat) (c : proc) :
  myproc k = Some cur →
  ptable_proc k !! cur = Some c →
  (ip = Some cur → exit ip cv k = Panic "init exiting")
  ∧ (ip ≠ Some cur →
     ∃ k', exit ip cv k = (sched_checks cv ≫= λ _, Ok k')
       ∧ (handoff_ok cv → exit ip cv k = Ok k')
       ∧ (¬ handoff_ok cv →
          ∃ msg, exit ip cv k = Panic msg
                 ∧ (msg = "sched ptable.lock" ∨ msg = mycpu_msg
                    ∨ msg = "sched locks"))
       ∧ ptable_numProc k' = ptable_numProc k
       ∧ length (ptable_proc k') = length (ptable_proc k)
       ∧ Forall (λ q, parent q ≠ Some cur) (ptable_proc k')
       ∧ ∀ i p, ptable_proc k !! i = Some p →
           ∃ q, ptable_proc k' !! i = Some q
             ∧ pid q = pid p
             ∧ parent q = (if decide (parent p = Some cur) then ip
                           else parent p)
             ∧ (i = cur → state q = ZOMBIE)
             ∧ (i ≠ cur → state q = state p
                          ∨ (state p = SLEEPING ∧ state q = RUNNABLE))).
Proof.
  intros Hmy Hc. split.
  - intros ->. unfold exit. by rewrite bool_decide_true.
  - intros Hip. eexists.
    pose proof (exit_closed_form ip cv k cur c Hmy Hip Hc) as Heq.
    destruct (via_sched_checks cv _ _ Heq) as [Hgo Hstop].
    split; [exact Heq|]. split; [exact Hgo|]. split; [exact Hstop|].
    cbn [ptable_numProc ptable_proc set_ptable_proc].
    split_and!; [done|by rewrite length_imap| |].
    + apply Forall_lookup. intros i q. rewrite list_lookup_imap.
      destruct (ptable_proc k !! i) as [p|]; [|done].
      intros [= <-]. rewrite exit_slot_parent.
      destruct (decide (parent p = Some cur)); done.
    + intros i p Hi. eexists. rewrite list_lookup_imap, Hi.
      split; [reflexivity|].
      split_and!.
      * apply exit_slot_pid.
      * apply exit_slot_parent.
      * intros ->. apply exit_slot_state_cur.
      * intros Hne. rewrite exit_slot_state_other by done.
        destruct (bool_decide (state p = SLEEPING ∧ _)) eqn:Hb; [|by left].
        apply bool_decide_eq_true in Hb. right. by destruct Hb.
Qed.

(** In [k_family] the process of slot 1 exits with [ptable.lock] held
    once; [init] is slot 0. *)
Lemma exit_leaves_zombie_and_no_orphans_witness :
  ∃ k', exit (Some 0%nat) cpu_handoff k_family = Ok k'
    ∧ exit (Some 0%nat) cpu_two_locks k_family = Panic "sched locks"
    ∧ ptable_numProc k' = ptable_numProc k_family
    ∧ length (ptable_proc k') = length (ptable_proc k_family)
    ∧ Forall (λ q, parent q ≠ Some 1%nat) (ptable_proc k')
    ∧ ∀ i p, ptable_proc k_family !! i = Some p →
        ∃ q, ptable_proc k' !! i = Some q
          ∧ pid q = pid p
          ∧ parent q = (if decide (parent p = Some 1%nat) then Some 0%nat
                        else parent p)
          ∧ (i = 1%nat → state q = ZOMBIE)
          ∧ (i ≠ 1%nat → state q = state p
                         ∨ (state p = SLEEPING ∧ state q = RUNNABLE)).
Proof.
  destruct (exit_leaves_zombie_and_no_orphans (Some 0%nat) cpu_handoff
              k_family 1%nat
              (mkProc RUNNING 2 (Some 0%nat) ChanNull 0 1 3 0 0)
              eq_refl eq_refl) as [_ H].
  destruct (H ltac:(done)) as (k' & _ & Hgo & _ & Hrest).
  exists k'. split; [apply Hgo; by split_and!|].
  split; [reflexivity|exact Hrest].
Defined.

(** Whom [exit] wakes, when it reaches the hand-off ([ptable.lock] held,
    interrupts off, [ncli] 1): a sleeper is RUNNABLE in the state handed
    off exactly when it slept on the parent of the caller, as the parent
    does in [wait], or on [initproc] while the caller had a ZOMBIE child to
    hand over; every other sleeper stays asleep. *)
Theorem exit_wakes_waiting_parent (ip : option nat) (cv : cpu_view)
    (k : kstate) (cur j : nat) (c w : proc) :
  myproc k = Some cur →
  ip ≠ Some cur →
  ptable_proc k !! cur = Some c →
  j ≠ cur →
  ptable_proc k !! j = Some w →
  state w = SLEEPING →
  handoff_ok cv →
  ∃ k' q, exit ip cv k = Ok k'
    ∧ ptable_proc k' !! j = Some q
    ∧ (state q = RUNNABLE ∨ state q = SLEEPING)
    ∧ (state q = RUNNABLE
       ↔ chan w = chan_of (parent c)
         ∨ (chan w = chan_of ip
            ∧ Exists (zombie_child cur) (ptable_proc k))).
Proof.
  intros Hmy Hip Hc Hne Hj Hs Hcv.
  eexists _, _. split.
  { rewrite (exit_closed_form ip cv k cur c) by done.
    by rewrite (sched_checks_handoff cv Hcv). }
  cbn [ptable_proc set_ptable_proc]. rewrite list_lookup_imap, Hj.
  split; [reflexivity|].
  rewrite exit_slot_state_other by done.
  case_bool_decide as Hb.
  - split; [by left|]. split; [intros _|done].
    destruct Hb as (_ & [?|[? Hz]]); [by left|right].
    split; [done|]. by apply bool_decide_eq_true in Hz.
  - split; [by right|]. rewrite Hs. split; [done|].
    intros [?|[? Hz]]; destruct Hb; (split; [done|]); [by left|right].
    split; [done|]. by apply bool_decide_eq_true.
Qed.

(** In [k_family], [init] sleeps in [wait] on its own slot 0 and is the
    parent of the caller. *)
Lemma exit_wakes_waiting_parent_witness :
  ∃ k' q, exit (Some 0%nat) cpu_handoff k_family = Ok k'
    ∧ ptable_proc k' !! 0%nat = Some q
    ∧ (state q = RUNNABLE ∨ state q = SLEEPING)
    ∧ (state q = RUNNABLE
       ↔ chan (mkProc SLEEPING 1 None (ChanProc 0) 0 0 0 0 0)
         = chan_of (parent (mkProc RUNNING 2 (Some 0%nat) ChanNull 0 1 3 0 0))
         ∨ (chan (mkProc SLEEPING 1 None (ChanProc 0) 0 0 0 0 0)
            = chan_of (Some 0%nat)
            ∧ Exists (zombie_child 1) (ptable_proc k_family))).
Proof.
  apply (exit_wakes_waiting_parent (Some 0%nat) cpu_handoff k_family
           1%nat 0%nat
           (mkProc RUNNING 2 (Some 0%nat) ChanNull 0 1 3 0 0)
           (mkProc SLEEPING 1 None (ChanProc 0) 0 0 0 0 0)).
  - reflexivity.
  - done.
  - reflexivity.
  - done.
  - reflexivity.
  - reflexivity.
  - by split_and!.
Defined.





End ProcBehaviour.

Section KallocBehaviour.

Import Kalloc.

Context {L : layout}.

(** ** More on the page allocator *)

Lemma kfree_guard_bad v :
  ¬ frame_ok v → 0 <= V2P v →
  negb (wrapu v mod PGSIZE =? 0) || (v <? kend) || (V2P v >=? PHYSTOP) = true.
Proof.
  intros Hbad Hpos. unfold frame_ok in Hbad.
  destruct (Z.eqb_spec (wrapu v mod PGSIZE) 0) as [Hal|]; [|done]. simpl.
  destruct (Z.ltb_spec v kend) as [|Hend]; [done|]. simpl.
  rewrite Z.geb_leb. apply Z.leb_le.
  destruct (Z.le_gt_cases PHYSTOP (V2P v)); [done|]. destruct Hbad. lia.
Qed.

(** [kfree] stops with the panic [kfree] exactly on an address that is
    misaligned, below [end] or beyond [PHYSTOP]; on every other address it
    returns, and the index into [ref_cnt] is within the array.  The count
    of the frame goes down by one, but not below 0, and no other count
    changes.  The frame is recycled (filled with the byte 1, linked in
    front of the free list, counted) exactly when the count before was 1
    or 0, and then nothing outside the frame is written; with a count
    above 1 the free list, the counter and the memory stay as they were. *)
Theorem kfree_recycles_at_last_owner (v : Z) (s : kmem) :
  layout_ok →
  4 <= PGSIZE →
  (¬ frame_ok v → 0 <= V2P v → kfree v s = Panic "kfree")
  ∧ (frame_ok v →
     0 <= ref_cnt s (frame_index v) <= INT_MAX →
     0 <= freelist s < 2 ^ 32 →
     ∃ s', kfree v s = Ok s'
       ∧ ref_cnt s' (frame_index v) = Z.max 0 (ref_cnt s (frame_index v) - 1)
       ∧ (∀ i, i ≠ frame_index v → ref_cnt s' i = ref_cnt s i)
       ∧ use_lock s' = use_lock s
       ∧ (ref_cnt s (frame_index v) <= 1 →
          recycled v s s'
          ∧ ∀ a, ¬ v <= a < v + PGSIZE → mem s' a = mem s a)
       ∧ (1 < ref_cnt s (frame_index v) → same_pool s s')).
Proof.
  intros Hok Hpg. split.
  { intros Hbad Hpos. unfold kfree. by rewrite kfree_guard_bad. }
  intros Hv Hrc Hfl.
  assert (Hmem : ∀ a, ¬ v <= a < v + PGSIZE →
            store32 (memset (mem s) v 1 PGSIZE) v (freelist s) a = mem s a).
  { intros a Ha. rewrite store32_other by lia. by rewrite memset_outside. }
  destruct (Z.lt_trichotomy (ref_cnt s (frame_index v)) 1) as [H0|[H1|Hgt]].
  - assert (Hz : ref_cnt s (frame_index v) = 0) by lia.
    eexists. split; [by apply kfree_unowned|]. simpl.
    split_and!; [lia|done|done| |lia].
    intros _. split; [by apply recycled_intro|done].
  - eexists. split; [by apply kfree_last|]. simpl.
    split_and!; [rewrite rc_set_eq; lia| |done| |lia].
    + intros i Hi. by rewrite rc_set_ne.
    + intros _. split; [by apply recycled_intro|done].
  - eexists. split; [apply kfree_shared; [done|done|lia]|]. simpl.
    split_and!; [rewrite rc_set_eq; lia| |done|lia|].
    + intros i Hi. by rewrite rc_set_ne.
    + intros _. apply same_pool_set_ref_cnt.
Qed.

(** [incr_refc], [get_refc], [decr_refc] on a physical address below
    [PHYSTOP]: the count of its frame goes up by one and back, [get_refc]
    reads it, every address of the same frame shares it, the other counts
    and the free list are not touched. *)
Theorem refc_round_trip (pa : Z) (s : kmem) :
  layout_ok →
  0 <= pa < PHYSTOP →
  INT_MIN <= ref_cnt s (pa / PGSIZE) < INT_MAX →
  ∃ s1 s2,
    incr_refc pa s = Ok s1
    ∧ get_refc pa s = Ok (ref_cnt s (pa / PGSIZE))
    ∧ get_refc pa s1 = Ok (ref_cnt s (pa / PGSIZE) + 1)
    ∧ (∀ pb, 0 <= pb < PHYSTOP → pb / PGSIZE = pa / PGSIZE →
             get_refc pb s1 = get_refc pa s1)
    ∧ (∀ pb, 0 <= pb < PHYSTOP → pb / PGSIZE ≠ pa / PGSIZE →
             get_refc pb s1 = get_refc pb s)
    ∧ same_pool s s1
    ∧ decr_refc pa s1 = Ok s2
    ∧ (∀ i, ref_cnt s2 i = ref_cnt s i)
    ∧ same_pool s s2.
Proof.
  intros Hok Hpa Hrc.
  assert (Hidx : ∀ pb, 0 <= pb < PHYSTOP →
            rc_index (wrap (PAGE_INDEX (wrapu pb))) = Ok (pb / PGSIZE)).
  { intros pb Hpb. rewrite page_index_int by done. by apply rc_index_ok. }
  eexists _, _. split_and!.
  - unfold incr_refc. rewrite Hidx by done. reflexivity.
  - unfold get_refc. by rewrite Hidx.
  - unfold get_refc. rewrite Hidx by done. simpl. rewrite rc_set_eq.
    f_equal. apply wrap_small. unfold INT_MIN, INT_MAX in *. lia.
  - intros pb Hpb Heq. unfold get_refc. rewrite !Hidx by done.
    simpl. by rewrite Heq.
  - intros pb Hpb Hne. unfold get_refc. rewrite !Hidx by done.
    simpl. by rewrite rc_set_ne.
  - apply same_pool_set_ref_cnt.
  - unfold decr_refc. rewrite Hidx by done. reflexivity.
  - intros i. simpl. rewrite rc_set_eq.
    rewrite (wrap_small (_ + 1)) by (unfold INT_MIN, INT_MAX in *; lia).
    unfold rc_set. destruct (Z.eqb_spec i (pa / PGSIZE)) as [->|]; [|done].
    rewrite wrap_small by (unfold INT_MIN, INT_MAX in *; lia). lia.
  - by unfold same_pool.
Qed.

(** [kalloc] and [kfree] of what it returned: [kalloc] takes the head [v]
    of the free list and gives it the count 1; the [kfree] puts it back in
    front, so that the free list holds the same frames in the same order,
    the free-page counter is as before and [v] has the count 0.  No other
    count changes and nothing outside the frame is written. *)
Theorem kalloc_kfree_round_trip (s : kmem) (v : Z) (l : list Z) :
  layout_ok →
  4 <= PGSIZE →
  is_chain (mem s) (freelist s) (v :: l) →
  NoDup (v :: l) →
  (∀ u, u ∈ v :: l → good u) →
  INT_MIN < num_freePage s <= INT_MAX →
  ∃ s1 s2,
    kalloc s = Ok (v, s1)
    ∧ is_chain (mem s1) (freelist s1) l
    ∧ ref_cnt s1 (frame_index v) = 1
    ∧ num_freePage s1 = num_freePage s - 1
    ∧ kfree v s1 = Ok s2
    ∧ is_chain (mem s2) (freelist s2) (v :: l)
    ∧ num_freePage s2 = num_freePage s
    ∧ ref_cnt s2 (frame_index v) = 0
    ∧ (∀ i, i ≠ frame_index v → ref_cnt s2 i = ref_cnt s i)
    ∧ (∀ a, ¬ v <= a < v + PGSIZE → mem s2 a = mem s a).
Proof.
  intros Hok Hpg (Hh & Hv0 & Hc) Hnd Hgood Hn.
  destruct (Hgood v (list_elem_of_here _ _)) as [Hfr Hp].
  apply NoDup_cons in Hnd as [Hnotin Hnd].
  pose proof Hfr as (Hal & Hend & Hv).
  set (s1 := mkKmem (use_lock s) (load32 (mem s) v)
                    (rc_set (ref_cnt s) (frame_index v) 1)
                    (wrap (num_freePage s - 1)) (mem s)).
  assert (Hk : kalloc s = Ok (v, s1)).
  { unfold kalloc. rewrite Hh. apply Z.eqb_neq in Hv0 as ->. simpl.
    by rewrite rc_index_ok by done. }
  assert (Hn1 : num_freePage s1 = num_freePage s - 1).
  { simpl. apply wrap_small. unfold INT_MIN, INT_MAX in *. lia. }
  assert (Hnext : 0 <= load32 (mem s) v < 2 ^ 32).
  { eapply is_chain_head; [exact Hc|]. intros u Hu.
    by destruct (Hgood u (list_elem_of_further _ _ _ Hu)). }
  exists s1. eexists. split_and!.
  - exact Hk.
  - exact Hc.
  - simpl. apply rc_set_eq.
  - exact Hn1.
  - apply kfree_last; [done|done|]. simpl. apply rc_set_eq.
  - simpl. split_and!; [done|done|].
    rewrite load32_store32 by done.
    eapply is_chain_frame; [|exact Hc].
    intros u Hu.
    destruct (Hgood u (list_elem_of_further _ _ _ Hu)) as [Hfu Hpu].
    apply load32_recycle_other; [done|].
    destruct Hok as (Hpg0 & _).
    destruct (aligned_apart u v Hpg0 Hpu Hp) as [H|H];
      [apply Hfu|apply Hfr|congruence|lia|lia].
  - cbn [num_freePage]. change (num_freePage s1) with (wrap (num_freePage s - 1)).
    rewrite (wrap_small (num_freePage s - 1))
      by (unfold INT_MIN, INT_MAX in *; lia).
    rewrite wrap_small by (unfold INT_MIN, INT_MAX in *; lia). lia.
  - simpl. apply rc_set_eq.
  - intros i Hi. simpl. by rewrite !rc_set_ne.
  - intros a Ha. simpl. rewrite store32_other by lia.
    by rewrite memset_outside.
Qed.

(** *** Seeding the free list *)

Lemma range_pages_S p n :
  range_pages p (S n) = p :: range_pages (p + PGSIZE) n.
Proof.
  unfold range_pages. simpl. f_equal; [lia|].
  rewrite <- fmap_S_seq, <- list_fmap_compose.
  apply list_fmap_ext. intros _ i _. simpl. lia.
Qed.

Lemma elem_of_range_pages u p n :
  u ∈ range_pages p n ↔ ∃ i : nat, (i < n)%nat ∧ u = p + Z.of_nat i * PGSIZE.
Proof.
  unfold range_pages. rewrite list_elem_of_fmap. split.
  - intros (i & -> & Hi). apply elem_of_seq in Hi. exists i. split; [lia|done].
  - intros (i & Hi & ->). exists i. split; [done|]. apply elem_of_seq. lia.
Qed.

Lemma length_range_pages p n : length (range_pages p n) = n.
Proof. unfold range_pages. by rewrite length_fmap, length_seq. Qed.

(** Pushing a frame whose count is 0 in front of a chain of other frames. *)
Lemma is_chain_push s v l rc n :
  layout_ok → 4 <= PGSIZE →
  good v →
  is_chain (mem s) (freelist s) l →
  (∀ u, u ∈ l → good u) →
  v ∉ l →
  is_chain (store32 (memset (mem s) v 1 PGSIZE) v (freelist s)) v (v :: l)
  ∧ freelist (mkKmem (use_lock s) v rc n
                     (store32 (memset (mem s) v 1 PGSIZE) v (freelist s))) = v.
Proof.
  intros Hok Hpg [Hfr Hp] Hc Hl Hnotin. split; [|done].
  assert (Hhead : 0 <= freelist s < 2 ^ 32).
  { eapply is_chain_head; [exact Hc|]. intros u Hu. by destruct (Hl u Hu). }
  simpl. split_and!; [done|unfold is_ptr in Hp; lia|].
  rewrite load32_store32 by done.
  eapply is_chain_frame; [|exact Hc].
  intros u Hu. destruct (Hl u Hu) as [Hfu Hpu].
  apply load32_recycle_other; [done|].
  destruct Hok as (Hpg0 & _).
  destruct (aligned_apart u v Hpg0 Hpu Hp) as [H|H];
    [apply Hfu|apply Hfr|congruence|lia|lia].
Qed.

(** The loop of [freerange] over [n] whole pages below [vend]. *)
Lemma freerange_loop_spec (n : nat) : ∀ (p vend : Z) (s : kmem) (l : list Z),
  layout_ok → 4 <= PGSIZE →
  (∀ u v, good u → good v → frame_index u = frame_index v → u = v) →
  (n ≠ 0%nat → p + Z.of_nat n * PGSIZE <= vend) →
  (∀ u, u ∈ range_pages p n → good u ∧ u ∉ l) →
  is_chain (mem s) (freelist s) l →
  (∀ u, u ∈ l → good u) →
  INT_MIN <= num_freePage s → num_freePage s + Z.of_nat n <= INT_MAX →
  ∃ s', freerange_loop n p vend s = Ok s'
    ∧ use_lock s' = use_lock s
    ∧ seeded (range_pages p n) l s s'.
Proof.
  induction n as [|n IH]; intros p vend s l Hok Hpg Hinj Hend Hpages Hc Hl Hn0 Hn.
  { exists s. split; [done|]. split; [done|].
    unfold seeded. simpl. split_and!; [done|lia| |done].
    intros u Hu. by apply elem_of_nil in Hu. }
  pose proof Hok as (Hpg0 & _).
  assert (Hp : good p ∧ p ∉ l).
  { apply Hpages, elem_of_range_pages. exists 0%nat. split; [lia|]. simpl. lia. }
  destruct Hp as [Hgp Hpl]. pose proof Hgp as [Hfr Hptr].
  pose proof Hfr as (_ & _ & Hv).
  set (s0 := set_ref_cnt (rc_set (ref_cnt s) (frame_index p) 0) s).
  set (s1 := mkKmem (use_lock s0) p (ref_cnt s0) (wrap (num_freePage s0 + 1))
                    (store32 (memset (mem s0) p 1 PGSIZE) p (freelist s0))).
  assert (Hk : kfree p s0 = Ok s1).
  { apply kfree_unowned; [done|done|]. unfold s0. simpl. apply rc_set_eq. }
  assert (Hn1 : num_freePage s1 = num_freePage s + 1).
  { simpl. apply wrap_small. unfold INT_MIN, INT_MAX in *. lia. }
  destruct (is_chain_push s p l (ref_cnt s0) (wrap (num_freePage s0 + 1)))
    as [Hc1 _]; try done.
  specialize (Hend (Nat.neq_succ_0 n)).
  destruct (IH (p + PGSIZE) vend s1 (p :: l)) as (s' & Hrun & Hlock & Hseed);
    try done.
  { intros _. lia. }
  { intros u Hu. apply elem_of_range_pages in Hu as (i & Hi & ->).
    destruct (Hpages (p + Z.of_nat (S i) * PGSIZE)) as [Hg Hnl].
    { apply elem_of_range_pages. exists (S i). split; [lia|done]. }
    replace (p + PGSIZE + Z.of_nat i * PGSIZE)
      with (p + Z.of_nat (S i) * PGSIZE) by lia.
    split; [done|]. intros [Heq|Hin]%elem_of_cons; [|done]. nia. }
  { intros u [->|Hu]%elem_of_cons; [done|by apply Hl]. }
  { lia. }
  { lia. }
  exists s'. split_and!.
  - cbn [freerange_loop].
    destruct (Z.leb_spec (p + PGSIZE) vend) as [_|Hbad]; [|nia].
    fold (frame_index p). unfold frame_index at 1.
    rewrite rc_index_ok by done. fold (frame_index p).
    change (Ok (frame_index p) ≫= ?f) with (f (frame_index p)). cbv beta.
    fold s0. rewrite Hk.
    change (Ok s1 ≫= ?f) with (f s1). cbv beta. exact Hrun.
  - by rewrite Hlock.
  - destruct Hseed as (Hch & Hnum & Hz & Hrest).
    rewrite range_pages_S. unfold seeded. split_and!.
    + rewrite reverse_cons, <- app_assoc. exact Hch.
    + rewrite Hnum, Hn1. cbn [length]. rewrite !length_range_pages. lia.
    + intros u [->|Hu]%elem_of_cons; [|by apply Hz].
      rewrite Hrest.
      * simpl. apply rc_set_eq.
      * intros u Hu Heq.
        apply elem_of_range_pages in Hu as (i & Hi & ->).
        destruct (Hpages (p + Z.of_nat (S i) * PGSIZE)) as [Hg _].
        { apply elem_of_range_pages. exists (S i). split; [lia|done]. }
        replace (p + PGSIZE + Z.of_nat i * PGSIZE)
          with (p + Z.of_nat (S i) * PGSIZE) in Heq by lia.
        pose proof (Hinj _ _ Hgp Hg Heq). nia.
    + intros i Hi. rewrite Hrest.
      * simpl. rewrite rc_set_ne; [done|]. apply Hi, list_elem_of_here.
      * intros u Hu. by apply Hi, list_elem_of_further.
Qed.

Lemma NoDup_range_pages p n : 0 < PGSIZE → NoDup (range_pages p n).
Proof.
  intros Hpg. unfold range_pages. apply NoDup_fmap_2_strong; [|apply NoDup_seq].
  intros i j _ _ Heq. nia.
Qed.

(** Distinct frames that [kfree] accepts have distinct slots in
    [ref_cnt]: there are at most [PAGE_COUNT] of them. *)
Lemma good_frames_bounded l :
  layout_ok →
  (∀ u v, good u → good v → frame_index u = frame_index v → u = v) →
  NoDup l → (∀ u, u ∈ l → good u) →
  Z.of_nat (length l) <= PAGE_COUNT.
Proof.
  intros Hok Hinj Hnd Hl.
  assert (Hsub : frame_index <$> l ⊆+ seqZ 0 PAGE_COUNT).
  { apply NoDup_submseteq.
    - apply NoDup_fmap_2_strong; [|done].
      intros u v Hu Hv. apply Hinj; by apply Hl.
    - intros i (u & -> & Hu)%list_elem_of_fmap.
      destruct (Hl u Hu) as [(_ & _ & Hv) _].
      destruct (rc_index_inv _ _ (rc_index_ok (V2P u) Hok Hv)) as [_ Hi].
      apply elem_of_seqZ. unfold frame_index. lia. }
  apply submseteq_length in Hsub.
  rewrite length_fmap, length_seqZ in Hsub.
  destruct Hok as (Hpg0 & Hphys & _).
  assert (0 <= PAGE_COUNT) by (unfold PAGE_COUNT; apply Z.div_pos; lia).
  lia.
Qed.

Lemma page_count_small : layout_ok → 4 <= PGSIZE → PAGE_COUNT < INT_MAX.
Proof.
  intros (Hpg0 & Hphys & _) Hpg. unfold PAGE_COUNT, INT_MAX.
  apply Z.div_lt_upper_bound; nia.
Qed.

Lemma countfp_small s : 0 <= num_freePage s <= INT_MAX → countfp s = num_freePage s.
Proof.
  intros Hn. unfold countfp. unfold INT_MAX in Hn.
  rewrite wrapu_small by lia.
  apply wrap_small. unfold INT_MIN, INT_MAX. lia.
Qed.

Lemma is_chain_unique m r l l' :
  is_chain m r l → is_chain m r l' → l = l'.
Proof.
  revert r l'. induction l as [|a l IH]; intros r [|b l']; simpl.
  - done.
  - intros -> (? & ? & _). congruence.
  - intros (? & ? & _) ->. congruence.
  - intros (-> & _ & H1) (-> & _ & H2). f_equal. by eapply IH.
Qed.

(** A seeded allocator is well formed, with the new pages managed. *)
Lemma seeded_wf managed pages l s s' :
  layout_ok →
  (∀ u v, good u → good v → frame_index u = frame_index v → u = v) →
  (∀ v, managed v → good v) →
  NoDup pages →
  (∀ u, u ∈ pages → good u ∧ u ∉ l) →
  alloc_wf managed s →
  is_chain (mem s) (freelist s) l →
  seeded pages l s s' →
  alloc_wf (λ v, managed v ∨ v ∈ pages) s'
  ∧ NoDup (reverse pages ++ l)
  ∧ ∀ u, u ∈ reverse pages ++ l → good u.
Proof.
  intros Hok Hinj Hman Hndp Hpages (Hrc & l0 & Hc0 & Hnd & Hl & Hm) Hc
         (Hch & Hnum & Hz & Hrest).
  assert (l0 = l) as -> by (by eapply is_chain_unique).
  assert (Hcnt : ∀ v, good v → v ∉ pages →
                      ref_cnt s' (frame_index v) = ref_cnt s (frame_index v)).
  { intros v Hg Hv. apply Hrest. intros u Hu Heq.
    destruct (Hpages u Hu) as [Hgu _].
    apply Hv. by rewrite (Hinj v u Hg Hgu Heq). }
  assert (Hgl : ∀ u, u ∈ reverse pages ++ l → good u).
  { intros u [Hu|Hu]%elem_of_app.
    - rewrite elem_of_reverse in Hu. by destruct (Hpages u Hu).
    - by destruct (Hl u Hu). }
  assert (Hndl : NoDup (reverse pages ++ l)).
  { apply NoDup_app. split_and!; [by rewrite reverse_Permutation| |done].
    intros u Hu. rewrite elem_of_reverse in Hu. by destruct (Hpages u Hu). }
  split; [|by split]. split.
  { intros i.
    destruct (decide (i ∈ frame_index <$> pages)) as [Hi|Hi].
    - apply list_elem_of_fmap in Hi as (u & -> & Hu). rewrite Hz by done.
      unfold INT_MAX. lia.
    - rewrite Hrest; [apply Hrc|]. intros u Hu ->. apply Hi.
      apply list_elem_of_fmap. by exists u. }
  exists (reverse pages ++ l). split_and!.
  - done.
  - done.
  - intros u Hu. split; [by apply Hgl|].
    apply elem_of_app in Hu as [Hu|Hu];
      [rewrite elem_of_reverse in Hu; by apply Hz|].
    destruct (Hl u Hu) as [Hg H0]. rewrite Hcnt; [done|done|].
    intros Hin. by destruct (Hpages u Hin).
  - intros v [Hv|Hv] H0.
    + destruct (decide (v ∈ pages)) as [Hin|Hnin].
      * apply elem_of_app. left. by rewrite elem_of_reverse.
      * apply elem_of_app. right. apply Hm; [done|].
        by rewrite <- (Hcnt v (Hman v Hv) Hnin).
    + apply elem_of_app. left. by rewrite elem_of_reverse.
Qed.

(** [kinit1] and [kinit2] over a range whose whole pages [kfree] accepts
    and are not on the free list yet: every whole page from
    [PGROUNDUP(vstart)] up to [vend] is pushed onto the free list, the
    highest one in front, with the count 0; the free-page counter and
    [countfp] grow by the number of pages; the allocator is well formed
    with these pages managed as well; [kinit1] leaves [use_lock] 0 and
    [kinit2] leaves it 1. *)
Theorem kinit_seeds_free_list (managed : Z → Prop) (s : kmem)
    (vstart vend : Z) (l : list Z) :
  layout_ok →
  4 <= PGSIZE →
  (∀ u v, good u → good v → frame_index u = frame_index v → u = v) →
  (∀ v, managed v → good v) →
  (∀ u, u ∈ range_pages (PGROUNDUP (wrapu vstart))
                        (Z.to_nat ((vend - PGROUNDUP (wrapu vstart)) / PGSIZE)) →
        good u ∧ u ∉ l) →
  alloc_wf managed s →
  is_chain (mem s) (freelist s) l →
  num_freePage s = Z.of_nat (length l) →
  ∃ s1 s2,
    kinit1 vstart vend s = Ok s1 ∧ use_lock s1 = 0
    ∧ kinit2 vstart vend s = Ok s2 ∧ use_lock s2 = 1
    ∧ ∀ s', s' = s1 ∨ s' = s2 →
        seeded (range_pages (PGROUNDUP (wrapu vstart))
                  (Z.to_nat ((vend - PGROUNDUP (wrapu vstart)) / PGSIZE)))
               l s s'
        ∧ alloc_wf
            (λ v, managed v
                  ∨ v ∈ range_pages (PGROUNDUP (wrapu vstart))
                          (Z.to_nat ((vend - PGROUNDUP (wrapu vstart)) / PGSIZE)))
            s'
        ∧ countfp s'
          = Z.of_nat (length l)
            + Z.of_nat (Z.to_nat ((vend - PGROUNDUP (wrapu vstart)) / PGSIZE)).
Proof.
  intros Hok Hpg Hinj Hman.
  set (p := PGROUNDUP (wrapu vstart)).
  set (n := Z.to_nat ((vend - p) / PGSIZE)).
  intros Hpages Hwf Hc Hnum.
  pose proof Hok as (Hpg0 & _).
  pose proof Hwf as (_ & l0 & Hc0 & Hnd0 & Hl0 & _).
  assert (l0 = l) as -> by (by eapply is_chain_unique).
  assert (Hl : ∀ u, u ∈ l → good u) by (intros u Hu; by destruct (Hl0 u Hu)).
  assert (Hend : n ≠ 0%nat → p + Z.of_nat n * PGSIZE <= vend).
  { intros Hn. unfold n in *.
    destruct (Z.le_gt_cases 0 ((vend - p) / PGSIZE)) as [Hq|Hq].
    - rewrite Z2Nat.id by done.
      pose proof (Z.mul_div_le (vend - p) PGSIZE Hpg0). lia.
    - destruct Hn. lia. }
  assert (Hndp : NoDup (range_pages p n)) by (by apply NoDup_range_pages).
  assert (Hlen : Z.of_nat (length l) + Z.of_nat n < INT_MAX).
  { pose proof (page_count_small Hok Hpg).
    assert (Z.of_nat (length (range_pages p n ++ l)) <= PAGE_COUNT).
    { apply good_frames_bounded; [done|done| |].
      - apply NoDup_app. split_and!; [done| |done].
        intros u Hu. by destruct (Hpages u Hu).
      - intros u [Hu|Hu]%elem_of_app; [by destruct (Hpages u Hu)|by apply Hl]. }
    rewrite length_app, length_range_pages in *. lia. }
  assert (Hspec : ∀ s0, mem s0 = mem s → freelist s0 = freelist s →
            ref_cnt s0 = ref_cnt s → num_freePage s0 = num_freePage s →
            ∃ s', freerange vstart vend s0 = Ok s'
              ∧ use_lock s' = use_lock s0
              ∧ seeded (range_pages p n) l s s').
  { intros s0 Em Ef Er En.
    destruct (freerange_loop_spec n p vend s0 l) as (s' & Hrun & Hlk & Hsd);
      try done.
    - by rewrite Em, Ef.
    - rewrite En, Hnum. unfold INT_MIN. lia.
    - rewrite En, Hnum. lia.
    - exists s'. split; [exact Hrun|]. split; [done|].
      unfold seeded in *. by rewrite Er, En in Hsd. }
  destruct (Hspec (set_use_lock 0 s)) as (s1 & Hrun1 & Hlk1 & Hsd1); try done.
  destruct (Hspec s) as (s2 & Hrun2 & Hlk2 & Hsd2); try done.
  assert (Hfin : ∀ s', seeded (range_pages p n) l s s' →
            seeded (range_pages p n) l s s'
            ∧ alloc_wf (λ v, managed v ∨ v ∈ range_pages p n) s'
            ∧ countfp s' = Z.of_nat (length l) + Z.of_nat n).
  { intros s' Hsd. split; [done|]. split.
    - by destruct (seeded_wf managed (range_pages p n) l s s').
    - destruct Hsd as (_ & Hn' & _). rewrite length_range_pages in Hn'.
      rewrite countfp_small; lia. }
  exists s1, (set_use_lock 1 s2). split_and!.
  - exact Hrun1.
  - by rewrite Hlk1.
  - unfold kinit2. rewrite Hrun2. reflexivity.
  - reflexivity.
  - intros s' [->| ->]; [by apply Hfin|].
    destruct (Hfin s2 Hsd2) as (H1 & H2 & H3).
    split_and!; [exact H1|exact H2|exact H3].
Qed.

(** *** The free-page counter *)

Lemma counted_same_pool s s' : same_pool s s' → counted s → counted s'.
Proof. unfold counted. by intros (-> & -> & ->). Qed.

Section Counting.

Variable managed : Z → Prop.

Hypothesis Hok : layout_ok.
Hypothesis Hpg : 4 <= PGSIZE.
Hypothesis Hinj :
  ∀ u v, good u → good v → frame_index u = frame_index v → u = v.
Hypothesis Hman : ∀ v, managed v → good v.

Lemma chain_length_small l :
  NoDup l → (∀ u, u ∈ l → good u) → Z.of_nat (length l) < INT_MAX.
Proof.
  intros Hnd Hl. pose proof (good_frames_bounded l Hok Hinj Hnd Hl).
  pose proof (page_count_small Hok Hpg). lia.
Qed.

Lemma kalloc_counted s r s' :
  alloc_wf managed s → counted s → kalloc s = Ok (r, s') → counted s'.
Proof.
  intros (Hrc & l & Hc & Hnd & Hl & Hm) Hcnt Hk.
  pose proof (Hcnt l Hc) as Hn.
  destruct l as [|h l].
  - simpl in Hc. unfold kalloc in Hk. rewrite Hc in Hk. simpl in Hk.
    apply Ok_inj in Hk. by simplify_eq.
  - pose proof Hc as (Hh & Hh0 & Hc').
    destruct (Hl h (list_elem_of_here _ _)) as [[(Hal & Hend & Hv) Hp] _].
    unfold kalloc in Hk. rewrite Hh in Hk.
    apply Z.eqb_neq in Hh0. rewrite Hh0 in Hk. simpl in Hk.
    rewrite rc_index_ok in Hk by done. simpl in Hk.
    apply Ok_inj in Hk. simplify_eq.
    intros l' Hc''. simpl in Hc''.
    rewrite <- (is_chain_unique _ _ _ _ Hc' Hc''). simpl.
    rewrite Hn.
    assert (Z.of_nat (length (freelist s :: l)) < INT_MAX).
    { apply chain_length_small; [done|]. intros u Hu. by destruct (Hl u Hu). }
    simpl length in *.
    rewrite wrap_small; unfold INT_MIN, INT_MAX in *; lia.
Qed.

Lemma kfree_counted v s s' :
  alloc_wf managed s → counted s →
  good v → 0 < ref_cnt s (frame_index v) →
  kfree v s = Ok s' → counted s'.
Proof.
  intros (Hrc & l & Hc & Hnd & Hl & Hm) Hcnt Hg Hpos Hk.
  pose proof Hg as [Hfr Hp].
  pose proof (Hcnt l Hc) as Hn.
  destruct (Z.eq_dec (ref_cnt s (frame_index v)) 1) as [H1|Hn1].
  2:{ rewrite kfree_shared in Hk; [|done|done|].
      - apply Ok_inj in Hk as <-.
        eapply counted_same_pool; [apply same_pool_set_ref_cnt|done].
      - specialize (Hrc (frame_index v)). lia. }
  rewrite kfree_last in Hk by done. apply Ok_inj in Hk as <-.
  assert (Hnotin : v ∉ l).
  { intros Hin. destruct (Hl v Hin) as [_ H0]. lia. }
  assert (Hgl : ∀ u, u ∈ l → good u) by (intros u Hu; by destruct (Hl u Hu)).
  destruct (is_chain_push s v l (rc_set (ref_cnt s) (frame_index v) 0)
              (wrap (num_freePage s + 1))) as [Hc1 _]; try done.
  intros l' Hc'. simpl in Hc'.
  rewrite <- (is_chain_unique _ _ _ _ Hc1 Hc'). simpl num_freePage.
  rewrite Hn.
  assert (Z.of_nat (length (v :: l)) < INT_MAX).
  { apply chain_length_small; [by apply NoDup_cons|].
    intros u [->|Hu]%elem_of_cons; [done|by apply Hgl]. }
  simpl length in *.
  rewrite wrap_small; unfold INT_MIN, INT_MAX in *; lia.
Qed.

Lemma run_call_counted c s s' :
  alloc_wf managed s → counted s → call_ok c s →
  run_call c s = Ok s' → counted s'.
Proof.
  intros Hwf Hcnt Hc Hrun. destruct c as [|v|pa|pa]; simpl in Hc, Hrun.
  - apply is_Ok_bind in Hrun as ([r s1] & Hk & Hr).
    apply Ok_inj in Hr. simpl in Hr. subst s1.
    by eapply kalloc_counted.
  - destruct Hc as [Hg Hpos]. by eapply kfree_counted.
  - unfold incr_refc in Hrun.
    apply is_Ok_bind in Hrun as (i & _ & Hr). apply Ok_inj in Hr as <-.
    eapply counted_same_pool; [apply same_pool_set_ref_cnt|done].
  - unfold decr_refc in Hrun.
    apply is_Ok_bind in Hrun as (i & _ & Hr). apply Ok_inj in Hr as <-.
    eapply counted_same_pool; [apply same_pool_set_ref_cnt|done].
Qed.

Lemma run_calls_counted cs : ∀ s,
  alloc_wf managed s → counted s → calls_ok cs s →
  ∃ s', run_calls cs s = Ok s' ∧ alloc_wf managed s' ∧ counted s'.
Proof.
  induction cs as [|c cs IH]; intros s Hwf Hcnt Hcs.
  - by exists s.
  - destruct Hcs as [Hc Hcs].
    destruct (run_call_wf managed Hok Hpg Hinj Hman c s Hwf Hc)
      as (s1 & H1 & Hwf1).
    pose proof (run_call_counted c s s1 Hwf Hcnt Hc H1) as Hcnt1.
    destruct (IH s1 Hwf1 Hcnt1 (Hcs s1 H1)) as (s' & Hrun & Hwf' & Hcnt').
    exists s'. simpl. rewrite H1. done.
Qed.

End Counting.

(** [countfp] returns the number of frames on the free list: when the
    free-page counter of a well-formed allocator is the length of its free
    list, it still is after any sequence of [kalloc], [kfree] of a frame
    whose count is positive, [incr_refc] of a frame whose count is positive
    and [decr_refc] of a frame whose count is at least 2; the free list
    then holds each frame once. *)
Theorem countfp_counts_free_list (managed : Z → Prop) (cs : list call)
    (s : kmem) :
  layout_ok →
  4 <= PGSIZE →
  (∀ u v, good u → good v → frame_index u = frame_index v → u = v) →
  (∀ v, managed v → good v) →
  alloc_wf managed s →
  counted s →
  calls_ok cs s →
  ∃ s' l, run_calls cs s = Ok s'
    ∧ is_chain (mem s') (freelist s') l
    ∧ NoDup l
    ∧ (∀ v, on_freelist s' v ↔ v ∈ l)
    ∧ countfp s' = Z.of_nat (length l).
Proof.
  intros Hok Hpg Hinj Hman Hwf Hcnt Hcs.
  destruct (run_calls_counted managed Hok Hpg Hinj Hman cs s Hwf Hcnt Hcs)
    as (s' & Hrun & (Hrc & l & Hc & Hnd & Hl & Hm) & Hcnt').
  exists s', l. split_and!; [done|done|done| |].
  - intros v. by apply on_freelist_chain.
  - assert (Z.of_nat (length l) < INT_MAX).
    { apply chain_length_small; [done|done|done|done|].
      intros u Hu. by destruct (Hl u Hu). }
    rewrite countfp_small; rewrite (Hcnt' l Hc); lia.
Qed.

End KallocBehaviour.

Section KallocBehaviourExamples.

Import Kalloc.

#[local] Existing Instance xv6_layout.

Lemma xv6_page_size : 4 <= PGSIZE.
Proof. simpl. lia. Qed.

Lemma s_init_chain : is_chain (mem s_init) (freelist s_init) [v0].
Proof. split_and!; by vm_compute. Qed.

Lemma s_init_counted : counted s_init.
Proof.
  intros l Hc. rewrite <- (is_chain_unique _ _ _ _ s_init_chain Hc).
  by vm_compute.
Qed.

Lemma s_init_calls_ok :
  calls_ok [CallKalloc; CallIncr pa0; CallKfree v0; CallKfree v0] s_init.
Proof.
  split; [exact I|]. intros s1 H1.
  rewrite exec_kalloc in H1. apply Ok_inj in H1 as <-.
  split; [by vm_compute|]. intros s2 H2.
  rewrite exec_kalloc_incr in H2. apply Ok_inj in H2 as <-.
  split; [split; [exact v0_good|by vm_compute]|]. intros s3 H3.
  rewrite exec_kalloc_incr_kfree in H3. apply Ok_inj in H3 as <-.
  split; [split; [exact v0_good|by vm_compute]|]. intros s4 _.
  exact I.
Qed.

(** The page [v0], held once in [s_fresh]; [v0 + 1] is misaligned. *)
Lemma kfree_recycles_at_last_owner_witness :
  kfree (v0 + 1) s_fresh = Panic "kfree"
  ∧ ∃ s', kfree v0 s_fresh = Ok s'
      ∧ ref_cnt s' (frame_index v0)
        = Z.max 0 (ref_cnt s_fresh (frame_index v0) - 1)
      ∧ (∀ i, i ≠ frame_index v0 → ref_cnt s' i = ref_cnt s_fresh i)
      ∧ use_lock s' = use_lock s_fresh
      ∧ (ref_cnt s_fresh (frame_index v0) <= 1 →
         recycled v0 s_fresh s'
         ∧ ∀ a, ¬ v0 <= a < v0 + PGSIZE → mem s' a = mem s_fresh a)
      ∧ (1 < ref_cnt s_fresh (frame_index v0) → same_pool s_fresh s').
Proof.
  split.
  - apply (proj1 (kfree_recycles_at_last_owner (v0 + 1) s_fresh
                    xv6_layout_ok xv6_page_size)).
    + unfold frame_ok. intros (Hal & _). by vm_compute in Hal.
    + by vm_compute.
  - apply (proj2 (kfree_recycles_at_last_owner v0 s_fresh
                    xv6_layout_ok xv6_page_size)).
    + exact v0_frame_ok.
    + by vm_compute.
    + by vm_compute.
Defined.

(** The frame of [pa0], held once in [s_fresh]. *)
Lemma refc_round_trip_witness :
  ∃ s1 s2,
    incr_refc pa0 s_fresh = Ok s1
    ∧ get_refc pa0 s_fresh = Ok (ref_cnt s_fresh (pa0 / PGSIZE))
    ∧ get_refc pa0 s1 = Ok (ref_cnt s_fresh (pa0 / PGSIZE) + 1)
    ∧ (∀ pb, 0 <= pb < PHYSTOP → pb / PGSIZE = pa0 / PGSIZE →
             get_refc pb s1 = get_refc pa0 s1)
    ∧ (∀ pb, 0 <= pb < PHYSTOP → pb / PGSIZE ≠ pa0 / PGSIZE →
             get_refc pb s1 = get_refc pb s_fresh)
    ∧ same_pool s_fresh s1
    ∧ decr_refc pa0 s1 = Ok s2
    ∧ (∀ i, ref_cnt s2 i = ref_cnt s_fresh i)
    ∧ same_pool s_fresh s2.
Proof.
  apply (refc_round_trip pa0 s_fresh).
  - exact xv6_layout_ok.
  - by vm_compute.
  - by vm_compute.
Defined.

(** The one page on the free list of [s_init]. *)
Lemma kalloc_kfree_round_trip_witness :
  ∃ s1 s2,
    kalloc s_init = Ok (v0, s1)
    ∧ is_chain (mem s1) (freelist s1) []
    ∧ ref_cnt s1 (frame_index v0) = 1
    ∧ num_freePage s1 = num_freePage s_init - 1
    ∧ kfree v0 s1 = Ok s2
    ∧ is_chain (mem s2) (freelist s2) [v0]
    ∧ num_freePage s2 = num_freePage s_init
    ∧ ref_cnt s2 (frame_index v0) = 0
    ∧ (∀ i, i ≠ frame_index v0 → ref_cnt s2 i = ref_cnt s_init i)
    ∧ (∀ a, ¬ v0 <= a < v0 + PGSIZE → mem s2 a = mem s_init a).
Proof.
  apply (kalloc_kfree_round_trip s_init v0 []).
  - exact xv6_layout_ok.
  - exact xv6_page_size.
  - exact s_init_chain.
  - apply NoDup_singleton.
  - intros u ->%list_elem_of_singleton. exact v0_good.
  - by vm_compute.
Defined.

Lemma boot_range_pages :
  range_pages (PGROUNDUP (wrapu (v0 - 1)))
              (Z.to_nat ((v0 + 8200 - PGROUNDUP (wrapu (v0 - 1))) / PGSIZE))
  = [v0; v0 + 4096].
Proof. by vm_compute. Qed.

Lemma s_boot_wf : alloc_wf (λ _, False) s_boot.
Proof.
  split; [intros i; by vm_compute|].
  exists []. split_and!; [done|apply NoDup_nil_2| |done].
  intros v Hv. by apply elem_of_nil in Hv.
Qed.

(** From the zeroed allocator, over the range from one byte below [v0] to
    8 bytes past the second page after it: the pages [v0] and
    [v0 + 4096]. *)
Lemma kinit_seeds_free_list_witness :
  ∃ s1 s2,
    kinit1 (v0 - 1) (v0 + 8200) s_boot = Ok s1 ∧ use_lock s1 = 0
    ∧ kinit2 (v0 - 1) (v0 + 8200) s_boot = Ok s2 ∧ use_lock s2 = 1
    ∧ ∀ s', s' = s1 ∨ s' = s2 →
        seeded (range_pages (PGROUNDUP (wrapu (v0 - 1)))
                  (Z.to_nat ((v0 + 8200 - PGROUNDUP (wrapu (v0 - 1))) / PGSIZE)))
               [] s_boot s'
        ∧ alloc_wf
            (λ v, False
                  ∨ v ∈ range_pages (PGROUNDUP (wrapu (v0 - 1)))
                          (Z.to_nat ((v0 + 8200 - PGROUNDUP (wrapu (v0 - 1)))
                                     / PGSIZE)))
            s'
        ∧ countfp s'
          = Z.of_nat (length (@nil Z))
            + Z.of_nat (Z.to_nat ((v0 + 8200 - PGROUNDUP (wrapu (v0 - 1)))
                                  / PGSIZE)).
Proof.
  apply (kinit_seeds_free_list (λ _, False) s_boot (v0 - 1) (v0 + 8200) []).
  - exact xv6_layout_ok.
  - exact xv6_page_size.
  - exact xv6_frame_index_inj.
  - by intros v [].
  - rewrite boot_range_pages. intros u Hu. split.
    + apply elem_of_cons in Hu as [->|Hu%list_elem_of_singleton].
      * exact v0_good.
      * subst u. split; [|unfold is_ptr, v0; lia].
        unfold frame_ok. vm_compute. split_and!; congruence.
    + intros Hin. by apply elem_of_nil in Hin.
  - exact s_boot_wf.
  - reflexivity.
  - reflexivity.
Defined.

(** [kalloc], [incr_refc], and two [kfree] of the page, from [s_init]. *)
Lemma countfp_counts_free_list_witness :
  ∃ s' l,
    run_calls [CallKalloc; CallIncr pa0; CallKfree v0; CallKfree v0] s_init
    = Ok s'
    ∧ is_chain (mem s') (freelist s') l
    ∧ NoDup l
    ∧ (∀ v, on_freelist s' v ↔ v ∈ l)
    ∧ countfp s' = Z.of_nat (length l).
Proof.
  apply (countfp_counts_free_list (λ v, v = v0)
           [CallKalloc; CallIncr pa0; CallKfree v0; CallKfree v0] s_init).
  - exact xv6_layout_ok.
  - exact xv6_page_size.
  - exact xv6_frame_index_inj.
  - intros v ->. exact v0_good.
  - exact s_init_wf.
  - exact s_init_counted.
  - exact s_init_calls_ok.
Defined.

End KallocBehaviourExamples.
